(** * RekrusiveScraper: a shallow embedding of [main.py]

    The crawler of [main.py] is embedded as a state-and-exception monad over
    - the module globals ([maxRekrusion], [visitedUrls]),
    - a small model of the file system ([os.makedirs], [open(..., 'w')]),
    - the sequence of calls made to the outside world (stdout, HTTP,
      file system), kept in call order.
    The HTTP transport, the HTML parser and [urllib.parse] are collaborators
    of the program: they are the fields of the class [World].

    The file has three parts: the embedding of the program, with mocked
    sites to run it on; the vocabulary of the specification (phases of a
    call, records of calls, relations between states); the proofs, which
    end with the claims C1 to C10, the further properties X1 to X15 of
    the program, and their instances on the mocked sites. *)

From Stdlib Require Import Ascii DecimalString DecimalNat.
From stdpp Require Import base strings list gmap sets.

Local Open Scope string_scope.
Local Open Scope list_scope.

Set Warnings "-clear-no-such-hyp".

(** * The embedding *)

(** ** Python [str] *)

(** A [string] is a sequence of characters; a character is read as a code
    point below 256. *)

Module Str.

Definition chr_eqb (a b : ascii) : bool := Ascii.eqb a b.

Fixpoint map (f : ascii -> ascii) (s : string) : string :=
  match s with
  | EmptyString => EmptyString
  | String c s' => String (f c) (map f s')
  end.

Fixpoint forallb (f : ascii -> bool) (s : string) : bool :=
  match s with
  | EmptyString => true
  | String c s' => f c && forallb f s'
  end.

Fixpoint contains (x : ascii) (s : string) : bool :=
  match s with
  | EmptyString => false
  | String c s' => chr_eqb c x || contains x s'
  end.

(** [s.replace(old, new)] for one-character [old] and [new]. *)
Definition replace (old new : ascii) (s : string) : string :=
  map (fun c => if chr_eqb c old then new else c) s.

(** [s.split(sep)[[0]]]: what precedes the first [sep], all of [s] when
    there is none. *)
Fixpoint split_head (sep : ascii) (s : string) : string :=
  match s with
  | EmptyString => EmptyString
  | String c s' => if chr_eqb c sep then EmptyString
                   else String c (split_head sep s')
  end.

(** [s.split(sep)] for a one-character separator. *)
Fixpoint split (sep : ascii) (s : string) : list string :=
  match s with
  | EmptyString => [EmptyString]
  | String c s' =>
      if chr_eqb c sep then EmptyString :: split sep s'
      else match split sep s' with
           | w :: ws => String c w :: ws
           | [] => [String c EmptyString]
           end
  end.

(** [sep.join(parts)]. *)
Fixpoint join (sep : string) (parts : list string) : string :=
  match parts with
  | [] => EmptyString
  | [p] => p
  | p :: ps => p +:+ sep +:+ join sep ps
  end.

Fixpoint ends_with (x : ascii) (s : string) : bool :=
  match s with
  | EmptyString => false
  | String c EmptyString => chr_eqb c x
  | String _ s' => ends_with x s'
  end.

Definition starts_with (x : ascii) (s : string) : bool :=
  match s with
  | String c _ => chr_eqb c x
  | EmptyString => false
  end.

(** [str(n)] of a non-negative [int], as an f-string prints it. *)
Definition of_nat (n : nat) : string :=
  NilZero.string_of_uint (Nat.to_uint n).

Definition nonempty (s : string) : bool :=
  match s with EmptyString => false | _ => true end.

(** [len(os.fsencode(s))]: the bytes of [s] in UTF-8, two for a code
    point above 127. *)
Fixpoint utf8_length (s : string) : nat :=
  match s with
  | EmptyString => 0
  | String c s' =>
      ((if nat_of_ascii c <? 128 then 1 else 2) + utf8_length s')%nat
  end.

End Str.

(** ** [os.path] (posixpath) *)

Module Path.

(** [os.path.join(a, b)]. *)
Definition join (a b : string) : string :=
  if Str.starts_with "/" b then b
  else if negb (Str.nonempty a) || Str.ends_with "/" a then a +:+ b
  else a +:+ "/" +:+ b.

(** [os.path.basename(p)]: what follows the last ["/"]. *)
Fixpoint basename (p : string) : string :=
  match p with
  | EmptyString => EmptyString
  | String c rest =>
      if Str.contains "/" rest then basename rest
      else if Str.chr_eqb c "/" then rest
      else p
  end.

(** The names along a path: ["data/a_b/"] and ["data//a_b"] both name
    [["data"; "a_b"]]. The names ["."] and [".."] are not resolved, and a
    leading separator is not told apart: the program makes relative
    paths only, from the working directory, and [get_domain_folder]
    replaces every ['.']. *)
Definition components (p : string) : list string :=
  List.filter Str.nonempty (Str.split "/" p).

(** A path and the directories above it, outermost first. *)
Fixpoint prefixes (cs : list string) : list (list string) :=
  match cs with
  | [] => []
  | c :: cs' => [c] :: List.map (cons c) (prefixes cs')
  end.

End Path.

(** ** [re.sub(r"[^\w\.]", "_", name)] *)

Module Re.

(** [\w] of a [str] pattern on code points below 256: the characters
    with [str.isalnum()], and the underscore. *)
Definition is_word (c : ascii) : bool :=
  let n := nat_of_ascii c in
  (((48 <=? n) && (n <=? 57)) || ((65 <=? n) && (n <=? 90))
   || ((97 <=? n) && (n <=? 122)) || (n =? 95)
   || (n =? 170) || (n =? 178) || (n =? 179) || (n =? 181)
   || (n =? 185) || (n =? 186) || ((188 <=? n) && (n <=? 190))
   || ((192 <=? n) && (n <=? 214)) || ((216 <=? n) && (n <=? 246))
   || (248 <=? n))%nat.

(** The characters the class [[^\w\.]] does not match. *)
Definition kept (c : ascii) : bool := is_word c || Str.chr_eqb c ".".

Definition sub_nonword (repl : ascii) (s : string) : string :=
  Str.map (fun c => if kept c then c else repl) s.

Global Arguments is_word : simpl never.
Global Arguments kept : simpl never.

End Re.

(** ** Module globals, the outside world and the state *)

(** [maxRekrusion = 100]: the maximum recursion depth. *)
Definition maxRekrusion : nat := 100.

Global Opaque maxRekrusion.

(** The file system: the directories that exist and the content of the
    files, both under the names along their path. *)
Record FS := mkFS {
  dirs : gset (list string);
  files : gmap (list string) string
}.

(** What [print] writes to stdout; the text of a caught exception, which
    two of the messages end with, is left out. *)
Inductive message : Type :=
  | Scraping (url : string) (depth : nat)
  | DownloadedImage (img_name : string)
  | FailedImage (img_url : string)
  | FailedRetrieve (url : string).

(** The calls that reach outside the program, recorded when they are made. *)
Inductive event : Type :=
  | Print (m : message)
  | Makedirs (path : string)          (* os.makedirs(path, exist_ok=True) *)
  | Get (url : string)                (* requests.get(url), in scrape *)
  | GetStream (img_url : string)      (* requests.get(img_url, headers=.., stream=True) *)
  | OpenText (filename : string)      (* open(filename, 'w', encoding='utf-8') *)
  | OpenBinary (img_path : string).   (* open(img_path, 'wb') *)

(** The answer to [requests.get(url)] in [scrape]: a RequestException
    of the transport, or the final response with its status. *)
Inductive http_response : Type :=
  | TransportError
  | Response (status_code : nat) (text : string).

(** The answer to the streamed GET of [download_image]. *)
Inductive image_response : Type :=
  | ImageError
      (* requests.get or raise_for_status raises a RequestException *)
  | ImageBody (chunks : list string) (complete : bool).
      (* iter_content yields [chunks]; unless [complete], it then raises a
         RequestException *)

(** An element of the parsed page: its tag name, its attributes (a dict)
    and what [get_text(strip=True)] returns for it. A soup is the list of
    the elements of the page in document order, as [find_all] walks them. *)
Record Tag := mkTag {
  name : string;
  attrs : gmap string string;
  get_text_strip : string
}.

(** The collaborators of the program. [urljoin] and [urlparse] raise a
    [ValueError] on some malformed arguments: [urljoin_raises] and
    [urlparse_raises] tell when, [urljoin] and [netloc] give the value
    when they do not. *)
Class World := {
  (** [requests.get(url)]. *)
  http_get : string -> http_response;
  (** [requests.get(img_url, headers=headers, stream=True)], its status
      check and the iteration over its body. *)
  requests_get_stream : string -> image_response;
  (** [BeautifulSoup(text, 'html.parser')]. *)
  BeautifulSoup : string -> list Tag;
  (** [urljoin(base, ref)]. *)
  urljoin : string -> string -> string;
  urljoin_raises : string -> string -> bool;
  (** [urlparse(url).netloc]. *)
  netloc : string -> string;
  urlparse_raises : string -> bool
}.

(** [response.raise_for_status()] raises an HTTPError, which is a
    RequestException, for the statuses 400 to 599, and for no other. *)
Definition raise_for_status (status_code : nat) : bool :=
  ((400 <=? status_code) && (status_code <? 600))%nat.

(** The [try] block of [scrape]: [requests.get(url)] followed by
    [raise_for_status()] gives [response.text], or [None] when either
    raises a RequestException. *)
Definition requests_get {W : World} (url : string) : option string :=
  match http_get url with
  | TransportError => None
  | Response status_code text =>
      if raise_for_status status_code then None else Some text
  end.

(** The state of the program: the global [visitedUrls], the disk, and
    the calls made so far, oldest first. *)
Record State := mkState {
  visitedUrls : gset string;
  disk : FS;
  calls : list event
}.

(** The exceptions that are not RequestExceptions: the [OSError]s of the
    file system, with the path given to the call of [os.makedirs] or of
    [open] that raises, and the [ValueError]s of [urllib.parse], with
    the URL or the reference they are raised for. *)
Inductive exn : Type :=
  | OSError (path : string)
  | ValueError (url : string).

(** ** The monad: state, exceptions, fuel *)

Inductive result (A : Type) : Type :=
  | Ok (a : A) (st : State)       (* returns [a] *)
  | Raise (e : exn) (st : State)  (* an exception leaves the function *)
  | OutOfFuel.                    (* the embedding ran out of fuel *)
Arguments Ok {A} a st.
Arguments Raise {A} e st.
Arguments OutOfFuel {A}.

Definition M (A : Type) : Type := State -> result A.

Definition ret {A} (a : A) : M A := fun st => Ok a st.

Definition bind {A B} (m : M A) (k : A -> M B) : M B := fun st =>
  match m st with
  | Ok a st' => k a st'
  | Raise e st' => Raise e st'
  | OutOfFuel => OutOfFuel
  end.

Declare Scope crawl_scope.
Delimit Scope crawl_scope with crawl.
Notation "x <- m ;; k" := (bind m (fun x => k))
  (at level 100, m at next level, right associativity) : crawl_scope.
Notation "m ;; k" := (bind m (fun _ => k))
  (at level 100, right associativity) : crawl_scope.
Local Open Scope crawl_scope.

Definition raise {A} (e : exn) : M A := fun st => Raise e st.

Definition add_call (e : event) (st : State) : State :=
  mkState (visitedUrls st) (disk st) (calls st ++ [e]).

Definition call (e : event) : M unit := fun st => Ok tt (add_call e st).

Definition print (m : message) : M unit := call (Print m).

Definition get_visited : M (gset string) := fun st => Ok (visitedUrls st) st.

(** [visitedUrls.add(url)]. *)
Definition visited_add (url : string) : M unit := fun st =>
  Ok tt (mkState ({[url]} ∪ visitedUrls st) (disk st) (calls st)).

Definition get_disk : M FS := fun st => Ok (disk st) st.

Definition set_disk (d : FS) : M unit := fun st =>
  Ok tt (mkState (visitedUrls st) d (calls st)).

(** [[f(x) for x in xs]]: the list is built from left to right, and an
    exception of [f] leaves the comprehension. *)
Fixpoint map_M {A B} (f : A -> M B) (xs : list A) : M (list B) :=
  match xs with
  | [] => ret []
  | x :: xs' => y <- f x ;; ys <- map_M f xs' ;; ret (y :: ys)
  end.

(** [for x in xs: body(x)]. *)
Fixpoint for_each {A} (xs : list A) (body : A -> M unit) : M unit :=
  match xs with
  | [] => ret tt
  | x :: xs' => body x ;; for_each xs' body
  end.

(** ** File-system calls *)

Definition is_file (d : FS) (cs : list string) : bool :=
  bool_decide (is_Some (files d !! cs)).

Definition is_dir (d : FS) (cs : list string) : bool :=
  bool_decide (cs = []) || bool_decide (cs ∈ dirs d).

(** [NAME_MAX]: the bytes a name may have in the file system. *)
Definition NAME_MAX : nat := 255.

Definition name_too_long (n : string) : bool :=
  (NAME_MAX <? Str.utf8_length n)%nat.

(** The names of a path that come before the first that is too long. *)
Fixpoint fitting (cs : list string) : list string :=
  match cs with
  | [] => []
  | c :: cs' => if name_too_long c then [] else c :: fitting cs'
  end.

(** [os.makedirs(path, exist_ok=True)]: the directory and those above it
    exist afterwards. An [OSError] when one of them is a file; the
    directories are made from the outermost on, and an [OSError] ends
    this at the first name that is too long. *)
Definition os_makedirs (path : string) : M unit :=
  call (Makedirs path) ;;
  d <- get_disk ;;
  let cs := Path.components path in
  if existsb (is_file d) (Path.prefixes cs) then raise (OSError path)
  else
    set_disk (mkFS (dirs d ∪ list_to_set (Path.prefixes (fitting cs))) (files d)) ;;
    if existsb name_too_long cs then raise (OSError path) else ret tt.

(** No file can be opened under these names: the path ends in a
    separator or names a directory, or the name is too long. *)
Definition names_no_file (n : string) : bool :=
  negb (Str.nonempty n) || String.eqb n "." || String.eqb n ".."
  || name_too_long n.

(** [with open(path, 'w' or 'wb') as file: file.write(content)]: an
    [OSError] when the path names a directory or lies in none; the file
    is created or truncated otherwise. *)
Definition write_file (path content : string) : M unit :=
  d <- get_disk ;;
  let cs := Path.components path in
  if names_no_file (Path.basename path) then raise (OSError path)
  else if is_dir d cs then raise (OSError path)
  else if negb (is_dir d (removelast cs)) then raise (OSError path)
  else set_disk (mkFS (dirs d) (<[cs := content]> (files d))).

(** ** BeautifulSoup calls *)

(** [soup.find_all(names)]. *)
Definition find_all (names : list string) (soup : list Tag) : list Tag :=
  List.filter (fun t => bool_decide (name t ∈ names)) soup.

(** [soup.find_all(nm, attr=True)]. *)
Definition find_all_with (nm attr : string) (soup : list Tag) : list Tag :=
  List.filter
    (fun t => String.eqb (name t) nm && bool_decide (is_Some (attrs t !! attr)))
    soup.

(** [tag[[attr]]], on a tag that has the attribute. *)
Definition getitem (t : Tag) (attr : string) : string :=
  default "" (attrs t !! attr).

(** ** The functions of [main.py] *)

Section Crawler.

Context {W : World}.

Definition get_domain_folder (url : string) : M string :=
  if urlparse_raises url then raise (ValueError url)
  else
    let domain := Str.replace "." "_" (netloc url) in
    let base_folder := Path.join "data" domain in
    os_makedirs base_folder ;;
    ret base_folder.

(** The call [urljoin(base, ref)]. *)
Definition urljoin_M (base ref : string) : M string :=
  if urljoin_raises base ref then raise (ValueError ref)
  else ret (urljoin base ref).

(** The file name [download_image] derives from the image URL. *)
Definition image_name (img_url : string) : string :=
  let img_name := Path.basename (Str.split_head "?" img_url) in
  Re.sub_nonword "_" img_name.

Definition download_image (img_url folder_path : string) : M unit :=
  call (GetStream img_url) ;;
  match requests_get_stream img_url with
  | ImageError => print (FailedImage img_url)
  | ImageBody chunks complete =>
      let img_name := image_name img_url in
      let img_path := Path.join folder_path img_name in
      call (OpenBinary img_path) ;;
      write_file img_path (Str.join "" chunks) ;;
      if complete then print (DownloadedImage img_name)
      else print (FailedImage img_url)
  end.

Definition save_text (content filename : string) : M unit :=
  call (OpenText filename) ;;
  write_file filename content.

Definition text_tags : list string :=
  ["p"; "h1"; "h2"; "h3"; "h4"; "h5"; "h6"; "li"].

(** [page_text] of [scrape]. *)
Definition page_text (soup : list Tag) : string :=
  Str.join (String "010" "") (List.map get_text_strip (find_all text_tags soup)).

(** The body of [scrape], its recursive call being [self]. *)
Definition scrape_body (self : string -> nat -> option string -> M unit)
    (url : string) (depth : nat) (base_folder : option string) : M unit :=
  visited <- get_visited ;;
  if bool_decide (url ∈ visited) || (maxRekrusion <=? depth)%nat then ret tt
  else
    print (Scraping url depth) ;;
    visited_add url ;;
    base_folder <- match base_folder with
                   | None => get_domain_folder url
                   | Some b => ret b
                   end ;;
    let img_folder := Path.join base_folder "img" in
    let text_folder := Path.join base_folder "text" in
    os_makedirs img_folder ;;
    os_makedirs text_folder ;;
    call (Get url) ;;
    match requests_get url with
    | None => print (FailedRetrieve url)
    | Some text =>
        let soup := BeautifulSoup text in
        let page_filename :=
          Path.join text_folder ("page_" +:+ Str.of_nat depth +:+ ".txt") in
        save_text (page_text soup) page_filename ;;
        img_urls <- map_M (fun img_tag => urljoin_M url (getitem img_tag "src"))
                          (find_all_with "img" "src" soup) ;;
        for_each img_urls (fun img_url => download_image img_url img_folder) ;;
        new_urls <- map_M (fun a => urljoin_M url (getitem a "href"))
                          (find_all_with "a" "href" soup) ;;
        for_each new_urls (fun link =>
          visited <- get_visited ;;
          if bool_decide (link ∈ visited) then ret tt
          else self link (S depth) (Some base_folder))
    end.

Fixpoint scrape_fuel (fuel : nat) : string -> nat -> option string -> M unit :=
  match fuel with
  | O => fun _ _ _ _ => OutOfFuel
  | S fuel' => scrape_body (scrape_fuel fuel')
  end.

(** [scrape(url, depth, base_folder)]: a call at [depth] nests at most
    [maxRekrusion - depth] further calls. *)
Definition scrape (url : string) (depth : nat) (base_folder : option string)
    : M unit :=
  scrape_fuel (S (maxRekrusion - depth)) url depth base_folder.

End Crawler.

(** The state the program starts in: no URL visited, an empty working
    directory, nothing called yet. *)
Definition initial : State := mkState ∅ (mkFS ∅ ∅) [].

(** The program: [scrape(url)] on the URL read from the prompt. *)
Definition main {W : World} (url : string) : result unit :=
  scrape url 0 None initial.

(** ** A mocked world, to run the crawler on concrete sites *)

Module Mock.

(** What follows the first ["//"] of a URL. *)
Fixpoint after_slashes (url : string) : string :=
  match url with
  | String "/" (String "/" rest) => rest
  | String _ rest => after_slashes rest
  | EmptyString => EmptyString
  end.

Fixpoint until_delim (s : string) : string :=
  match s with
  | EmptyString => EmptyString
  | String c s' =>
      if Str.chr_eqb c "/" || Str.chr_eqb c "?" || Str.chr_eqb c "#"
      then EmptyString else String c (until_delim s')
  end.

(** The network location of [scheme://netloc/path?query#fragment]. *)
Definition netloc_of (url : string) : string :=
  until_delim (after_slashes url).

(** [scheme://netloc] of a URL. *)
Definition origin (url : string) : string :=
  String.substring 0
    (String.length url - String.length (after_slashes url)
     + String.length (netloc_of url)) url.

(** Resolution of the references the mocked pages use: absolute ones,
    host-relative ones and the empty one. *)
Definition join_url (base ref : string) : string :=
  match ref with
  | EmptyString => base
  | String "/" _ => origin base +:+ ref
  | _ => ref
  end.

(** [urlsplit] raises a [ValueError] for a network location with one
    square bracket and not the other. *)
Definition unbalanced (url : string) : bool :=
  xorb (Str.contains "[" (netloc_of url)) (Str.contains "]" (netloc_of url)).

(** [urljoin(base, ref)] returns the one when the other is empty, and
    parses both otherwise. *)
Definition join_raises (base ref : string) : bool :=
  Str.nonempty base && Str.nonempty ref && (unbalanced base || unbalanced ref).

Definition tag (nm : string) (kvs : list (string * string)) (text : string)
    : Tag :=
  mkTag nm (list_to_map kvs) text.

(** A site is a table from URL to the elements of its page; the body of
    a page is its URL, which the mocked parser looks up. *)
Definition lookup {A} (table : list (string * A)) (k : string) : option A :=
  snd <$> List.find (fun kv => String.eqb (fst kv) k) table.

(** The pages of the table are answered with the status 200, the others
    with the status 404. *)
Definition world (pages : list (string * list Tag))
    (images : list (string * image_response)) : World :=
  {| http_get url :=
       match lookup pages url with
       | Some _ => Response 200 url
       | None => Response 404 ""
       end;
     requests_get_stream url := default ImageError (lookup images url);
     BeautifulSoup text := default [] (lookup pages text);
     urljoin := join_url;
     urljoin_raises := join_raises;
     netloc := netloc_of;
     urlparse_raises := unbalanced |}.

(** The same world, but the GET of [url] in [scrape] is answered with
    the status [status_code]. *)
Definition with_status (url : string) (status_code : nat) (W : World) : World :=
  {| http_get u :=
       if String.eqb u url then Response status_code u else @http_get W u;
     requests_get_stream := @requests_get_stream W;
     BeautifulSoup := @BeautifulSoup W;
     urljoin := @urljoin W;
     urljoin_raises := @urljoin_raises W;
     netloc := @netloc W;
     urlparse_raises := @urlparse_raises W |}.

End Mock.

(** The site of the example of the specification: one paragraph, one
    image and one link, whose page cannot be retrieved. *)
Definition hello_site : World :=
  Mock.world
    [ ("http://example.com/",
        [ Mock.tag "p" [] "Hello";
          Mock.tag "img" [("src", "/a.png")] "";
          Mock.tag "a" [("href", "/b")] "b" ]) ]
    [ ("http://example.com/a.png", ImageBody ["PNG"] true) ].

(** A site whose two pages link to each other. *)
Definition cyclic_site : World :=
  Mock.world
    [ ("http://example.com/",
        [ Mock.tag "h1" [] "Home";
          Mock.tag "a" [("href", "/b")] "to b";
          Mock.tag "a" [("href", "/b")] "to b again" ]);
      ("http://example.com/b",
        [ Mock.tag "p" [] "B";
          Mock.tag "a" [("href", "/")] "home";
          Mock.tag "a" [("href", "/b")] "self" ]) ]
    [].

(** A page of one host that links to a page of another. *)
Definition two_hosts_site : World :=
  Mock.world
    [ ("http://a.com/",
        [ Mock.tag "p" [] "A";
          Mock.tag "a" [("href", "http://b.org/")] "b" ]);
      ("http://b.org/", [ Mock.tag "p" [] "B" ]) ]
    [].

(** A page with two links, both one level down. *)
Definition siblings_site : World :=
  Mock.world
    [ ("http://example.com/",
        [ Mock.tag "h1" [] "Home";
          Mock.tag "a" [("href", "/b")] "b";
          Mock.tag "a" [("href", "/c")] "c" ]);
      ("http://example.com/b", [ Mock.tag "p" [] "B" ]);
      ("http://example.com/c", [ Mock.tag "p" [] "C" ]) ]
    [].

(** The page shows itself as an image: [<img src="/">]. *)
Definition slash_image_site : World :=
  Mock.world
    [ ("http://example.com/",
        [ Mock.tag "p" [] "Hello";
          Mock.tag "img" [("src", "/")] "";
          Mock.tag "a" [("href", "/b")] "b" ]);
      ("http://example.com/b", [ Mock.tag "p" [] "B" ]) ]
    [ ("http://example.com/", ImageBody ["<html>"] true) ].

(** The server answers the seed with the status 300 and a page that
    lists the choices. *)
Definition choices_site : World :=
  Mock.with_status "http://example.com/" 300
    (Mock.world
       [ ("http://example.com/",
           [ Mock.tag "h1" [] "Multiple Choices";
             Mock.tag "a" [("href", "/b")] "b" ]);
         ("http://example.com/b", [ Mock.tag "p" [] "B" ]) ]
       []).

(** A site served on a port of its own. *)
Definition port_site : World :=
  Mock.world
    [ ("http://example.com:8080/", [ Mock.tag "p" [] "Hello" ]) ]
    [].

(** A page whose second link is not a URL: [<a href="http://[x">]. *)
Definition bad_href_site : World :=
  Mock.world
    [ ("http://example.com/",
        [ Mock.tag "p" [] "Hello";
          Mock.tag "a" [("href", "/b")] "b";
          Mock.tag "a" [("href", "http://[x")] "x" ]);
      ("http://example.com/b", [ Mock.tag "p" [] "B" ]) ]
    [].

(** A page whose image is not a URL: [<img src="http://[x">]. *)
Definition bad_src_site : World :=
  Mock.world
    [ ("http://example.com/",
        [ Mock.tag "p" [] "Hello";
          Mock.tag "img" [("src", "http://[x")] "";
          Mock.tag "a" [("href", "/b")] "b" ]);
      ("http://example.com/b", [ Mock.tag "p" [] "B" ]) ]
    [].

(** A page that shows the same image twice, and between the two an
    image that cannot be fetched. *)
Definition gallery_site : World :=
  Mock.world
    [ ("http://example.com/",
        [ Mock.tag "img" [("src", "/a.png")] "";
          Mock.tag "img" [("src", "/missing.png")] "";
          Mock.tag "img" [("src", "/a.png")] "" ]) ]
    [ ("http://example.com/a.png", ImageBody ["PNG"] true) ].

(** A page with an empty paragraph between two others. *)
Definition blank_paragraph : list Tag :=
  [ Mock.tag "p" [] "A"; Mock.tag "p" [] ""; Mock.tag "div" [] "skipped";
    Mock.tag "p" [] "B" ].

(** * The vocabulary of the specification *)

(** [\n]. *)
Definition LF : string := String "010" "".

(** The text of a page as the specification words it: the elements with
    no text contribute nothing, not even an empty line. *)
Definition page_text_spec (soup : list Tag) : string :=
  Str.join LF
    (List.filter Str.nonempty
       (List.map get_text_strip (find_all text_tags soup))).

(** The host of a network location [user:password@host:port], which is
    what the specification names the folder of a site after. *)
Definition host_of (netloc : string) : string :=
  Str.split_head ":" (List.last (Str.split "@" netloc) "").

(** The statuses the specification counts as a failed fetch: all but
    200 to 299. *)
Definition non_2xx (status_code : nat) : bool :=
  negb ((200 <=? status_code) && (status_code <? 300))%nat.

(** [wp m Q E st]: run from [st], [m] either returns a value and a state
    that satisfy [Q], or raises an exception with a state that satisfy [E]. *)
Definition wp {A} (m : M A) (Q : A -> State -> Prop) (E : exn -> State -> Prop)
    (st : State) : Prop :=
  match m st with
  | Ok a st' => Q a st'
  | Raise e st' => E e st'
  | OutOfFuel => True
  end.

(** The same postcondition however [m] is left. *)
Definition wp_any {A} (m : M A) (R : State -> Prop) (st : State) : Prop :=
  wp m (fun _ => R) (fun _ => R) st.

(** [m] does not run out of fuel. *)
Definition returns {A} (m : M A) : Prop := forall st, m st <> OutOfFuel.

(** The state a call ends in, however it ends. *)
Definition final (r : result unit) : option State :=
  match r with
  | Ok _ st' | Raise _ st' => Some st'
  | OutOfFuel => None
  end.

(** The order of a depth-first, pre-order walk: a page at depth [d],
    then, one after the other, the walks of pages at depth [d + 1]. *)
Inductive preorder : nat -> list (string * nat) -> Prop :=
| preorder_node u d l : forest (S d) l -> preorder d ((u, d) :: l)
with forest : nat -> list (string * nat) -> Prop :=
| forest_nil d : forest d []
| forest_cons d t l : preorder d t -> forest d l -> forest d (t ++ l).

(** The recursion over the links as the specification words it: for each
    link, in document order, if it is not visited yet, the whole call of
    [scrape] on it, at the depth of the links and with the folder of the
    site; then the next link. *)
Fixpoint visit_links {W : World} (links : list string) (depth : nat)
    (root : string) : M unit :=
  match links with
  | [] => ret tt
  | link :: rest => fun st =>
      if bool_decide (link ∈ visitedUrls st)
      then visit_links rest depth root st
      else (scrape link depth (Some root) ;; visit_links rest depth root) st
  end.

(** ** Phases of a call, records of calls, relations between states *)

Section Specification.

Context {W : World}.

(** The test at the head of [scrape]. *)
Definition gated (url : string) (depth : nat) (st : State) : bool :=
  bool_decide (url ∈ visitedUrls st) || (maxRekrusion <=? depth)%nat.

(** The directory [get_domain_folder] derives from a URL. *)
Definition site_root (url : string) : string :=
  Path.join "data" (Str.replace "." "_" (netloc url)).

(** The [base_folder] a call works with. *)
Definition resolve_base (url : string) (base_folder : option string) : string :=
  match base_folder with
  | Some b => b
  | None => site_root url
  end.

(** The folders and the file a call at [depth] works with. *)
Definition img_folder (base : string) : string := Path.join base "img".
Definition text_folder (base : string) : string := Path.join base "text".
Definition page_filename (base : string) (depth : nat) : string :=
  Path.join (text_folder base) ("page_" +:+ Str.of_nat depth +:+ ".txt").

(** The directories [os.makedirs(path)] leaves in place. *)
Definition made (path : string) : gset (list string) :=
  list_to_set (Path.prefixes (Path.components path)).

(** [os.makedirs(path)] cannot make the directories: a name is too
    long, or it finds a file where it needs a directory. *)
Definition blocked (d : FS) (path : string) : bool :=
  existsb name_too_long (Path.components path)
  || existsb (is_file d) (Path.prefixes (Path.components path)).

(** The directories it has made by then: those above the first name
    that is too long, none when a file is in the way. *)
Definition half_made (d : FS) (path : string) : gset (list string) :=
  if existsb (is_file d) (Path.prefixes (Path.components path)) then ∅
  else list_to_set (Path.prefixes (fitting (Path.components path))).

(** The folders a call makes before it fetches its page. *)
Definition make_folders (url : string) (base_folder : option string) : M string :=
  base <- match base_folder with
          | None => get_domain_folder url
          | Some b => ret b
          end ;;
  os_makedirs (img_folder base) ;;
  os_makedirs (text_folder base) ;;
  ret base.

(** From the gate to the page fetch: the URL is announced and marked,
    the folders are made. *)
Definition enter (url : string) (depth : nat) (base_folder : option string)
    : M string :=
  print (Scraping url depth) ;;
  visited_add url ;;
  make_folders url base_folder.

(** [img_urls] and [new_urls] of [scrape]. *)
Definition img_urls (url : string) (soup : list Tag) : list string :=
  List.map (fun img_tag => urljoin url (getitem img_tag "src"))
           (find_all_with "img" "src" soup).

Definition new_urls (url : string) (soup : list Tag) : list string :=
  List.map (fun a => urljoin url (getitem a "href"))
           (find_all_with "a" "href" soup).

(** The two list comprehensions of [scrape]: they return [img_urls] and
    [new_urls], unless [urljoin] raises. *)
Definition resolve_imgs (url : string) (soup : list Tag) : M (list string) :=
  map_M (fun img_tag => urljoin_M url (getitem img_tag "src"))
        (find_all_with "img" "src" soup).

Definition resolve_links (url : string) (soup : list Tag) : M (list string) :=
  map_M (fun a => urljoin_M url (getitem a "href"))
        (find_all_with "a" "href" soup).

(** The first reference of [tags] that [urljoin] raises for. *)
Definition bad_ref (url attr : string) (tags : list Tag) : option string :=
  (fun t => getitem t attr)
    <$> List.find (fun t => urljoin_raises url (getitem t attr)) tags.

(** After a successful fetch: the text is saved, the images downloaded. *)
Definition persist (url : string) (depth : nat) (base text : string) : M unit :=
  let soup := BeautifulSoup text in
  save_text (page_text soup) (page_filename base depth) ;;
  imgs <- resolve_imgs url soup ;;
  for_each imgs (fun img_url => download_image img_url (img_folder base)).

(** The loop over the links of the page. *)
Definition recurse (self : string -> nat -> option string -> M unit)
    (depth : nat) (base : string) (links : list string) : M unit :=
  for_each links (fun link =>
    visited <- get_visited ;;
    if bool_decide (link ∈ visited) then ret tt
    else self link (S depth) (Some base)).

(** The links of the page are resolved, then followed. *)
Definition follow (self : string -> nat -> option string -> M unit)
    (url : string) (depth : nat) (base : string) (soup : list Tag) : M unit :=
  links <- resolve_links url soup ;;
  recurse self depth base links.

(** What a call does with the answer to its page fetch. *)
Definition fetched (self : string -> nat -> option string -> M unit)
    (url : string) (depth : nat) (base : string) : M unit :=
  match requests_get url with
  | None => print (FailedRetrieve url)
  | Some text =>
      persist url depth base text ;;
      follow self url depth base (BeautifulSoup text)
  end.

(** The page fetches of a record, in order. *)
Definition gets (tr : list event) : list string :=
  omap (fun e => match e with Get u => Some u | _ => None end) tr.

(** The calls of [scrape] that passed the gate, in order, each with
    its depth. *)
Definition entered (tr : list event) : list (string * nat) :=
  omap (fun e => match e with
                 | Print (Scraping u d) => Some (u, d)
                 | _ => None
                 end) tr.

(** What a call made at [depth] with the folder [base], or a call below
    it, may show in the record. *)
Definition event_ok (base : string) (depth : nat) (e : event) : Prop :=
  match e with
  | Print (Scraping _ d) => depth <= d < maxRekrusion
  | Print _ | Get _ | GetStream _ => True
  | Makedirs p => p = base \/ p = img_folder base \/ p = text_folder base
  | OpenText p => exists d, depth <= d < maxRekrusion /\ p = page_filename base d
  | OpenBinary p => exists u, p = Path.join (img_folder base) (image_name u)
  end.

(** The files a call working in [base] writes: the text of a page and
    the images. *)
Definition artifact (base : string) (cs : list string) : Prop :=
  (exists d, cs = Path.components (page_filename base d)) \/
  (exists u, cs = Path.components (Path.join (img_folder base) (image_name u))).

(** Directories are only added, and a file that is not an artifact of
    [base] is as it was. *)
Definition disk_ok (base : string) (d d' : FS) : Prop :=
  dirs d ⊆ dirs d' /\
  forall cs, files d' !! cs = files d !! cs \/ artifact base cs.

(** A step that enters no page and fetches none: the visited set is
    untouched. *)
Definition Frame (base : string) (depth : nat) (st st' : State) : Prop :=
  visitedUrls st' = visitedUrls st /\
  disk_ok base (disk st) (disk st') /\
  exists tr, calls st' = calls st ++ tr /\
             Forall (event_ok base depth) tr /\
             gets tr = [] /\ entered tr = [].

(** Every run of [m] is such a step. *)
Definition frames {A} (base : string) (depth : nat) (m : M A) : Prop :=
  forall st, wp_any m (Frame base depth st) st.

(** Any call but a page fetch or the announcement of a page. *)
Definition quiet (e : event) : Prop :=
  match e with
  | Get _ | Print (Scraping _ _) => False
  | _ => True
  end.

(** [Run base depth st st']: from [st], calls of [scrape] at [depth] or
    below, working in [base], lead to [st']. The pages entered are new
    and distinct, they are what is added to the visited set, and only
    entered pages are fetched, each at most once. *)
Definition Run (base : string) (depth : nat) (st st' : State) : Prop :=
  exists tr,
    calls st' = calls st ++ tr /\
    visitedUrls st' = visitedUrls st ∪ list_to_set (entered tr).*1 /\
    disk_ok base (disk st) (disk st') /\
    Forall (event_ok base depth) tr /\
    NoDup (entered tr).*1 /\
    (forall u, u ∈ (entered tr).*1 -> u ∉ visitedUrls st) /\
    NoDup (gets tr) /\
    (forall u, u ∈ gets tr -> u ∈ (entered tr).*1).

(** The state in which a call that passed the gate makes its folders. *)
Definition entered_state (url : string) (depth : nat) (st : State) : State :=
  mkState ({[url]} ∪ visitedUrls st) (disk st)
          (calls st ++ [Print (Scraping url depth)]).

(** The calls and the directories of [make_folders]. *)
Definition folder_calls (url : string) (base_folder : option string) : list event :=
  match base_folder with
  | None => [Makedirs (site_root url)]
  | Some _ => []
  end ++
  [Makedirs (img_folder (resolve_base url base_folder));
   Makedirs (text_folder (resolve_base url base_folder))].

Definition folders_made (url : string) (base_folder : option string)
    : gset (list string) :=
  match base_folder with
  | None => made (site_root url)
  | Some _ => ∅
  end ∪ made (img_folder (resolve_base url base_folder))
    ∪ made (text_folder (resolve_base url base_folder)).

(** A call of [os.makedirs]. *)
Definition is_makedirs (e : event) : Prop :=
  match e with Makedirs _ => True | _ => False end.

(** The claim of the specification: the artifacts of a page are stored
    in the folder derived from the page's own URL. For the page fetched
    at [depth] from [url] this is where its text would be. *)
Definition own_text_file (url : string) (depth : nat) : list string :=
  Path.components (page_filename (site_root url) depth).

(** From [st] to [st'], the calls entered are a sequence of walks at
    depth [d]. *)
Definition Forest (d : nat) (st st' : State) : Prop :=
  exists tr, calls st' = calls st ++ tr /\ forest d (entered tr).

(** Every run of [m] enters such a sequence. *)
Definition forests {A} (d : nat) (m : M A) : Prop :=
  forall st, wp_any m (Forest d st) st.

(** The calls entered by one call of [scrape]: none, or the call itself
    followed by walks one level down. *)
Definition Walk (url : string) (d : nat) (st st' : State) : Prop :=
  exists tr, calls st' = calls st ++ tr /\
             (entered tr = [] \/
              exists l, entered tr = (url, d) :: l /\ forest (S d) l).

(** The name of the text file of a page fetched at [depth]. *)
Definition page_name (depth : nat) : string :=
  "page_" +:+ Str.of_nat depth +:+ ".txt".

(** The image fetches of a record, in order. *)
Definition streams (tr : list event) : list string :=
  omap (fun e => match e with GetStream u => Some u | _ => None end) tr.

(** A disk on which nothing but calls working in [base] have written:
    its directories lie at most one level below [base], its files two
    levels below. *)
Definition Tidy (base : string) (d : FS) : Prop :=
  (forall cs, cs ∈ dirs d -> length cs <= S (length (Path.components base))) /\
  (forall cs, is_Some (files d !! cs) ->
              length cs = S (S (length (Path.components base)))).

(** No name along [base] is too long. *)
Definition Fits (base : string) : Prop :=
  existsb name_too_long (Path.components base) = false.

(** A call on a tidy disk whose folders can be made. *)
Definition Ready (url : string) (b : option string) (d : FS) : Prop :=
  Tidy (resolve_base url b) d /\ Fits (resolve_base url b) /\
  (b = None -> urlparse_raises url = false).

(** What ends the program before its first fetch: [urlparse] raises for
    the seed, or a name of the folder of the seed is too long. *)
Definition seed_error (url : string) : option exn :=
  if urlparse_raises url then Some (ValueError url)
  else if existsb name_too_long (Path.components (site_root url))
       then Some (OSError (site_root url))
       else None.

(** The state the program is then left in. *)
Definition seed_failed (url : string) : State :=
  if urlparse_raises url
  then mkState {[url]} (mkFS ∅ ∅) [Print (Scraping url 0)]
  else mkState {[url]}
               (mkFS (list_to_set (Path.prefixes
                                     (fitting (Path.components (site_root url)))))
                     ∅)
               [Print (Scraping url 0); Makedirs (site_root url)].

(** The exceptions the page fetched from [page] can end a call with: a
    [ValueError] for the first [src] or [href] that [urljoin] raises
    for, and, when every [src] is resolved, an [OSError] for an image
    whose GET was answered and whose URL gives no name a file can be
    opened under. *)
Inductive page_error (base page : string) (soup : list Tag) : exn -> Prop :=
  | bad_src ref :
      bad_ref page "src" (find_all_with "img" "src" soup) = Some ref ->
      page_error base page soup (ValueError ref)
  | bad_href ref :
      bad_ref page "href" (find_all_with "a" "href" soup) = Some ref ->
      page_error base page soup (ValueError ref)
  | bad_image_name u chunks complete :
      bad_ref page "src" (find_all_with "img" "src" soup) = None ->
      u ∈ img_urls page soup ->
      requests_get_stream u = ImageBody chunks complete ->
      names_no_file (image_name u) = true ->
      page_error base page soup
        (OSError (Path.join (img_folder base) (image_name u))).

(** From [st] to [st'] a page was fetched that ends the call with [e]. *)
Definition Crashed (base : string) (e : exn) (st st' : State) : Prop :=
  exists tr page text,
    calls st' = calls st ++ tr /\ Get page ∈ tr /\
    requests_get page = Some text /\
    page_error base page (BeautifulSoup text) e.

(** Every page fetch of a record comes after the announcement of its
    page. *)
Definition announced_first (tr : list event) : Prop :=
  forall tr1 u tr2,
    tr = tr1 ++ Get u :: tr2 -> exists d, Print (Scraping u d) ∈ tr1.

Definition Announces (st st' : State) : Prop :=
  exists tr, calls st' = calls st ++ tr /\ announced_first tr.

(** From [st] to [st'], the pages announced are the pages fetched. *)
Definition Fetches (st st' : State) : Prop :=
  exists tr, calls st' = calls st ++ tr /\ (entered tr).*1 = gets tr.

(** What the text file of depth [d] holds after the pages of a record
    were announced, when it held [old] before: the text of the last of
    these pages that was announced at depth [d] and could be fetched. *)
Definition saved_text (d : nat) (pages : list (string * nat))
    (old : option string) : option string :=
  foldl (fun acc p =>
           if (p.2 =? d)%nat then
             match requests_get p.1 with
             | Some text => Some (page_text (BeautifulSoup text))
             | None => acc
             end
           else acc) old pages.

(** From [st] to [st'], the text files of [base] hold what the pages
    announced on the way have left in them. *)
Definition Texts (base : string) (st st' : State) : Prop :=
  exists tr, calls st' = calls st ++ tr /\
    forall d, files (disk st') !! Path.components (page_filename base d)
              = saved_text d (entered tr)
                  (files (disk st) !! Path.components (page_filename base d)).

(** What the image file [n] holds after the images of a record were
    fetched, when it held [old] before: the body of the last of these
    images that is stored under the name [n] and whose GET was answered. *)
Definition saved_image (n : string) (imgs : list string)
    (old : option string) : option string :=
  foldl (fun acc u =>
           match requests_get_stream u with
           | ImageBody chunks _ =>
               if String.eqb (image_name u) n && negb (names_no_file n)
               then Some (Str.join "" chunks) else acc
           | ImageError => acc
           end) old imgs.

(** From [st] to [st'], the image files of [base] hold what the images
    fetched on the way have left in them. *)
Definition Images (base : string) (st st' : State) : Prop :=
  exists tr, calls st' = calls st ++ tr /\
    forall n, Str.contains "/" n = false -> Str.nonempty n = true ->
      files (disk st') !! (Path.components (img_folder base) ++ [n])
      = saved_image n (streams tr)
          (files (disk st) !! (Path.components (img_folder base) ++ [n])).

(** What calls of [scrape] working in [base] keep and leave, from a
    tidy disk. *)
Definition Kept (base : string) (st st' : State) : Prop :=
  Tidy base (disk st') /\
  dirs (disk st) ⊆ dirs (disk st') /\
  dirs (disk st') ⊆ dirs (disk st) ∪ made base ∪ made (img_folder base)
                                   ∪ made (text_folder base) /\
  Fetches st st' /\ Texts base st st' /\ Images base st st'.

(** Two runs, from [st1] and from [st2], that end alike: both return or
    both raise the same exception, with the same visited set, having
    made the same calls. *)
Definition Same (st1 st2 s1 s2 : State) : Prop :=
  visitedUrls s1 = visitedUrls s2 /\
  exists tr, calls s1 = calls st1 ++ tr /\ calls s2 = calls st2 ++ tr.

Definition Alike (st1 st2 : State) (r1 r2 : result unit) : Prop :=
  match r1, r2 with
  | Ok _ s1, Ok _ s2 => Same st1 st2 s1 s2
  | Raise e1 s1, Raise e2 s2 => e1 = e2 /\ Same st1 st2 s1 s2
  | OutOfFuel, OutOfFuel => True
  | _, _ => False
  end.

(** The files a call at [depth] or below writes: the text of a page at
    [depth] or below, and the images. *)
Definition deep_artifact (base : string) (depth : nat) (cs : list string) : Prop :=
  (exists d, depth <= d /\ cs = Path.components (page_filename base d)) \/
  (exists u, cs = Path.components (Path.join (img_folder base) (image_name u))).

(** Every other file is as it was. *)
Definition Writes (base : string) (depth : nat) (st st' : State) : Prop :=
  forall cs, files (disk st') !! cs = files (disk st) !! cs \/
             deep_artifact base depth cs.

Definition writes {A} (base : string) (depth : nat) (m : M A) : Prop :=
  forall st, wp_any m (Writes base depth st) st.

(** The links of every page announced in [tr] above the last level,
    and fetched, are in [V]. *)
Definition Closed (tr : list event) (V : gset string) : Prop :=
  forall page d text link,
    Print (Scraping page d) ∈ tr -> S d < maxRekrusion ->
    requests_get page = Some text ->
    link ∈ new_urls page (BeautifulSoup text) ->
    link ∈ V.

(** From [st] to [st'] the visited set grows, and holds the links of
    the pages announced on the way. *)
Definition Covers (st st' : State) : Prop :=
  exists tr, calls st' = calls st ++ tr /\
             visitedUrls st ⊆ visitedUrls st' /\
             Closed tr (visitedUrls st').

End Specification.

(** * Proofs *)

Lemma maxRekrusion_eq : maxRekrusion = 100.
Proof. vm_compute. reflexivity. Qed.

(** ** Strings and paths *)

Lemma app_string_cons (x : ascii) (a b : string) :
  String x a +:+ b = String x (a +:+ b).
Proof. reflexivity. Qed.

Lemma app_string_assoc (a b c : string) : (a +:+ b) +:+ c = a +:+ (b +:+ c).
Proof.
  induction a as [|x a IH]; [reflexivity|].
  rewrite !app_string_cons. f_equal. exact IH.
Qed.

Lemma chr_eqb_eq (a b : ascii) : Str.chr_eqb a b = true <-> a = b.
Proof. apply Ascii.eqb_eq. Qed.

Lemma split_nonempty sep s : Str.split sep s <> [].
Proof.
  destruct s as [|c s]; simpl; [discriminate|].
  destruct (Str.chr_eqb c sep); [discriminate|].
  destruct (Str.split sep s); discriminate.
Qed.

(** Splitting at a separator splits the list of fields. *)
Lemma split_app_sep sep a b :
  Str.split sep (a +:+ String sep b) = Str.split sep a ++ Str.split sep b.
Proof.
  induction a as [|c a IH]; simpl.
  - assert (H : Str.chr_eqb sep sep = true) by now apply chr_eqb_eq.
    rewrite H. reflexivity.
  - destruct (Str.chr_eqb c sep); [now rewrite IH|].
    rewrite IH. pose proof (split_nonempty sep a) as Hne.
    destruct (Str.split sep a); [contradiction|reflexivity].
Qed.

Lemma components_app_sep a b :
  Path.components (a +:+ String "/" b) = Path.components a ++ Path.components b.
Proof. unfold Path.components. rewrite split_app_sep. apply List.filter_app. Qed.

Lemma ends_with_inv x s :
  Str.ends_with x s = true -> exists s0, s = s0 +:+ String x "".
Proof.
  induction s as [|c s IH]; simpl; [discriminate|].
  destruct s as [|c' s'].
  - intros H. apply chr_eqb_eq in H as ->. exists "". reflexivity.
  - intros H. destruct (IH H) as [s0 Hs0]. exists (String c s0).
    rewrite app_string_cons, <- Hs0. reflexivity.
Qed.

(** The names along [os.path.join(a, b)] are those of [a], then those of
    [b], when [b] is a relative path. *)
Lemma components_join a b :
  Str.starts_with "/" b = false ->
  Path.components (Path.join a b) = Path.components a ++ Path.components b.
Proof.
  intros Hb. unfold Path.join. rewrite Hb.
  destruct a as [|c a]; [reflexivity|].
  change (negb (Str.nonempty (String c a)) || Str.ends_with "/" (String c a))
    with (Str.ends_with "/" (String c a)).
  destruct (Str.ends_with "/" (String c a)) eqn:He.
  - apply ends_with_inv in He as [a0 ->].
    rewrite app_string_assoc.
    change (String "/" "" +:+ b) with (String "/" b).
    rewrite !components_app_sep. simpl (Path.components "").
    rewrite app_nil_r. reflexivity.
  - change (String c a +:+ "/" +:+ b) with (String c a +:+ String "/" b).
    apply components_app_sep.
Qed.

Lemma elem_of_prefixes (l cs : list string) :
  l ∈ Path.prefixes cs <-> l <> [] /\ l `prefix_of` cs.
Proof.
  revert l. induction cs as [|c cs IH]; intros l; simpl.
  - split; [intros H; inversion H|].
    intros [Hne [k Hk]]. destruct l; [contradiction|discriminate].
  - rewrite elem_of_cons, list_elem_of_fmap. split.
    + intros [->|(l' & -> & Hl')].
      * split; [discriminate|]. exists cs. reflexivity.
      * apply IH in Hl' as [_ Hp]. split; [discriminate|].
        now apply prefix_cons.
    + intros [Hne [k Hk]]. destruct l as [|x l]; [contradiction|].
      injection Hk as <- ->. destruct l as [|y l]; [left; reflexivity|].
      right. exists (y :: l). split; [reflexivity|]. apply IH.
      split; [discriminate|]. exists k. reflexivity.
Qed.

Lemma contains_starts_with x s :
  Str.contains x s = false -> Str.starts_with x s = false.
Proof.
  destruct s as [|c s]; simpl; [reflexivity|].
  intros H. apply orb_false_iff in H as [H _]. exact H.
Qed.

Lemma contains_ends_with x s :
  Str.contains x s = false -> Str.ends_with x s = false.
Proof.
  induction s as [|c s IH]; [reflexivity|]. simpl Str.contains.
  intros H. apply orb_false_iff in H as [Hc Hs].
  destruct s as [|c' s']; [exact Hc|]. apply (IH Hs).
Qed.

Lemma ends_with_app x a c b :
  Str.ends_with x (a +:+ String c b) = Str.ends_with x (String c b).
Proof.
  induction a as [|y a IH]; [reflexivity|].
  rewrite app_string_cons. rewrite <- IH.
  destruct a; reflexivity.
Qed.

Lemma replace_dot_contains_dot s :
  Str.contains "." (Str.replace "." "_" s) = false.
Proof.
  unfold Str.replace. induction s as [|c s IH]; [reflexivity|]. simpl.
  rewrite IH, orb_false_r.
  destruct (Str.chr_eqb c ".") eqn:Hc; [reflexivity|exact Hc].
Qed.

Lemma replace_dot_contains_slash s :
  Str.contains "/" (Str.replace "." "_" s) = Str.contains "/" s.
Proof.
  unfold Str.replace. induction s as [|c s IH]; [reflexivity|]. simpl.
  rewrite IH. f_equal.
  destruct (Str.chr_eqb c ".") eqn:Hc; [|reflexivity].
  apply chr_eqb_eq in Hc as ->. reflexivity.
Qed.

Lemma replace_length old new s :
  String.length (Str.replace old new s) = String.length s.
Proof.
  unfold Str.replace. induction s as [|c s IH]; [reflexivity|].
  simpl. now rewrite IH.
Qed.

(** [os.path.join] of a folder that does not end in a separator and a
    relative name puts one separator between them. *)
Lemma join_plain a b :
  Str.nonempty a = true -> Str.ends_with "/" a = false ->
  Str.starts_with "/" b = false ->
  Path.join a b = a +:+ "/" +:+ b.
Proof. intros Ha He Hb. unfold Path.join. rewrite Hb, Ha, He. reflexivity. Qed.

Lemma split_no_sep sep s : Str.contains sep s = false -> Str.split sep s = [s].
Proof.
  induction s as [|c s IH]; [reflexivity|]. simpl.
  intros H. apply orb_false_iff in H as [Hc Hs].
  rewrite Hc, (IH Hs). reflexivity.
Qed.

(** Splitting what [join] made gives the parts back, when no part holds
    the separator. *)
Lemma split_join sep parts :
  parts <> [] -> Forall (fun t => Str.contains sep t = false) parts ->
  Str.split sep (Str.join (String sep "") parts) = parts.
Proof.
  induction parts as [|t parts IH]; [contradiction|]. intros _ Hall.
  apply Forall_cons in Hall as [Ht Hall].
  destruct parts as [|t' parts]; [apply split_no_sep, Ht|].
  change (Str.join (String sep "") (t :: t' :: parts))
    with (t +:+ String sep (Str.join (String sep "") (t' :: parts))).
  rewrite split_app_sep, split_no_sep by exact Ht.
  rewrite IH by (auto; discriminate). reflexivity.
Qed.

Lemma split_head_no_sep sep s : Str.contains sep (Str.split_head sep s) = false.
Proof.
  induction s as [|c s IH]; [reflexivity|]. simpl.
  destruct (Str.chr_eqb c sep) eqn:Hc; [reflexivity|]. simpl.
  rewrite Hc. exact IH.
Qed.

Lemma split_head_app sep a b :
  Str.contains sep a = false -> Str.split_head sep (a +:+ String sep b) = a.
Proof.
  induction a as [|c a IH]; simpl.
  - intros _. assert (H : Str.chr_eqb sep sep = true) by now apply chr_eqb_eq.
    rewrite H. reflexivity.
  - intros H. apply orb_false_iff in H as [Hc Ha]. rewrite Hc, (IH Ha).
    reflexivity.
Qed.

Lemma split_head_id sep s : Str.contains sep s = false -> Str.split_head sep s = s.
Proof.
  induction s as [|c s IH]; [reflexivity|]. simpl.
  intros H. apply orb_false_iff in H as [Hc Hs]. rewrite Hc, (IH Hs).
  reflexivity.
Qed.

Lemma basename_no_slash p : Str.contains "/" (Path.basename p) = false.
Proof.
  induction p as [|c p IH]; [reflexivity|]. simpl.
  destruct (Str.contains "/" p) eqn:Hp; [exact IH|].
  destruct (Str.chr_eqb c "/") eqn:Hc; [exact Hp|].
  simpl. rewrite Hc, Hp. reflexivity.
Qed.

(** [basename] is what follows the last separator. *)
Lemma basename_suffix p :
  exists dir, p = dir +:+ Path.basename p /\
              (dir = "" \/ Str.ends_with "/" dir = true).
Proof.
  induction p as [|c p IH]; [exists ""; auto|]. simpl.
  destruct (Str.contains "/" p) eqn:Hp.
  - destruct IH as (dir & Hdir & He). exists (String c dir).
    rewrite app_string_cons, <- Hdir. split; [reflexivity|]. right.
    destruct He as [->|He].
    + assert (Hno : Str.contains "/" p = false)
        by (rewrite Hdir; apply basename_no_slash).
      rewrite Hno in Hp. discriminate.
    + destruct dir; [discriminate|exact He].
  - destruct (Str.chr_eqb c "/") eqn:Hc.
    + apply chr_eqb_eq in Hc as ->. exists "/". auto.
    + exists "". auto.
Qed.

Lemma map_length f s : String.length (Str.map f s) = String.length s.
Proof. induction s as [|c s IH]; [reflexivity|]. simpl. now rewrite IH. Qed.

Lemma map_get f s i : String.get i (Str.map f s) = f <$> String.get i s.
Proof.
  revert i. induction s as [|c s IH]; intros i; [reflexivity|].
  destruct i as [|i]; [reflexivity|]. simpl. apply IH.
Qed.

Lemma sub_nonword_kept s : Str.forallb Re.kept (Re.sub_nonword "_" s) = true.
Proof.
  unfold Re.sub_nonword. induction s as [|c s IH]; [reflexivity|].
  cbn [Str.map Str.forallb].
  rewrite IH, andb_true_r. destruct (Re.kept c) eqn:Hc; [exact Hc|reflexivity].
Qed.

Lemma sub_nonword_id s :
  Str.forallb Re.kept s = true -> Re.sub_nonword "_" s = s.
Proof.
  unfold Re.sub_nonword. induction s as [|c s IH]; [reflexivity|].
  cbn [Str.map Str.forallb].
  intros H. apply andb_true_iff in H as [Hc Hs]. rewrite Hc, (IH Hs).
  reflexivity.
Qed.

(** ** More on strings and paths *)

Lemma contains_app x a b :
  Str.contains x (a +:+ b) = Str.contains x a || Str.contains x b.
Proof.
  induction a as [|c a IH]; [reflexivity|].
  rewrite app_string_cons. simpl. rewrite IH. apply orb_assoc.
Qed.

Lemma length_app_string a b :
  String.length (a +:+ b) = String.length a + String.length b.
Proof. induction a as [|c a IH]; [reflexivity|]. simpl. now rewrite IH. Qed.

Lemma app_string_inv_tail a b c : a +:+ c = b +:+ c -> a = b.
Proof.
  revert b. induction a as [|x a IH]; intros [|y b] H.
  - reflexivity.
  - apply (f_equal String.length) in H.
    rewrite !length_app_string in H. simpl in H. lia.
  - apply (f_equal String.length) in H.
    rewrite !length_app_string in H. simpl in H. lia.
  - rewrite !app_string_cons in H. injection H as -> H. f_equal. now apply IH.
Qed.

Lemma string_of_uint_no_slash u :
  Str.contains "/" (NilEmpty.string_of_uint u) = false.
Proof. induction u; simpl; auto. Qed.

Lemma of_nat_no_slash n : Str.contains "/" (Str.of_nat n) = false.
Proof.
  unfold Str.of_nat, NilZero.string_of_uint.
  destruct (Nat.to_uint n); try reflexivity; apply (string_of_uint_no_slash (_ _)).
Qed.

(** [str(n)] reads back as [n]. *)
Lemma of_nat_inj n m : Str.of_nat n = Str.of_nat m -> n = m.
Proof.
  assert (Hread : forall k,
    NilZero.uint_of_string (Str.of_nat k) = Some (Nat.to_uint k)).
  { intros k. unfold Str.of_nat. apply NilZero.usu.
    intros Hnil. pose proof (Unsigned.of_to k) as Hk. rewrite Hnil in Hk.
    destruct k; [discriminate Hnil|discriminate Hk]. }
  intros H. apply (f_equal NilZero.uint_of_string) in H.
  rewrite !Hread in H. injection H as H. apply Unsigned.to_uint_inj, H.
Qed.

Lemma basename_id n : Str.contains "/" n = false -> Path.basename n = n.
Proof.
  destruct n as [|c n]; [reflexivity|]. simpl.
  intros H. apply orb_false_iff in H as [Hc Hn]. rewrite Hn, Hc. reflexivity.
Qed.

(** [basename] of a path that ends in a separator and a name. *)
Lemma basename_app_sep a n :
  Str.contains "/" n = false -> Path.basename (a +:+ String "/" n) = n.
Proof.
  intros Hn. induction a as [|c a IH].
  - simpl. rewrite Hn. reflexivity.
  - rewrite app_string_cons. cbn [Path.basename].
    rewrite contains_app. cbn [Str.contains].
    replace (Str.chr_eqb "/" "/") with true by reflexivity.
    rewrite orb_true_r. exact IH.
Qed.

(** [os.path.join] of a folder and a name with no separator ends in
    this name. *)
Lemma basename_join folder n :
  Str.contains "/" n = false -> Path.basename (Path.join folder n) = n.
Proof.
  intros Hn. unfold Path.join. rewrite (contains_starts_with _ _ Hn).
  destruct folder as [|c a]; [apply basename_id, Hn|].
  change (negb (Str.nonempty (String c a)) || Str.ends_with "/" (String c a))
    with (Str.ends_with "/" (String c a)).
  destruct (Str.ends_with "/" (String c a)) eqn:He.
  - apply ends_with_inv in He as [a0 ->]. rewrite app_string_assoc.
    apply basename_app_sep, Hn.
  - apply (basename_app_sep (String c a)), Hn.
Qed.

Lemma components_name n :
  Str.contains "/" n = false -> Str.nonempty n = true -> Path.components n = [n].
Proof.
  intros Hn Hne. unfold Path.components. rewrite split_no_sep by exact Hn.
  simpl. rewrite Hne. reflexivity.
Qed.

Lemma components_join_name folder n :
  Str.contains "/" n = false -> Str.nonempty n = true ->
  Path.components (Path.join folder n) = Path.components folder ++ [n].
Proof.
  intros Hn Hne. rewrite components_join by apply contains_starts_with, Hn.
  rewrite (components_name n) by assumption. reflexivity.
Qed.

Lemma sub_nonword_no_slash s : Str.contains "/" (Re.sub_nonword "_" s) = false.
Proof.
  unfold Re.sub_nonword. induction s as [|c s IH]; [reflexivity|].
  cbn [Str.map Str.contains]. rewrite IH, orb_false_r.
  destruct (Re.kept c) eqn:Hk; [|reflexivity].
  destruct (Str.chr_eqb c "/") eqn:Hc; [|reflexivity].
  apply chr_eqb_eq in Hc as ->. discriminate Hk.
Qed.

Lemma names_no_file_nonempty n : names_no_file n = false -> Str.nonempty n = true.
Proof. destruct n; [discriminate|reflexivity]. Qed.

(** A path that ends in a separator has no last name. *)
Lemma basename_ends_with_sep p :
  Str.ends_with "/" p = true -> Path.basename p = "".
Proof.
  intros H. apply ends_with_inv in H as [a ->]. now apply basename_app_sep.
Qed.

(** ** The monad *)

Lemma wp_bind {A B} (m : M A) (k : A -> M B) Q E st :
  wp m (fun a st' => wp (k a) Q E st') E st -> wp (bind m k) Q E st.
Proof. unfold wp, bind. destruct (m st); auto. Qed.

Lemma wp_mono {A} (m : M A) (Q Q' : A -> State -> Prop) (E E' : exn -> State -> Prop) st :
  wp m Q E st ->
  (forall a st', Q a st' -> Q' a st') ->
  (forall e st', E e st' -> E' e st') ->
  wp m Q' E' st.
Proof. unfold wp. destruct (m st); auto. Qed.

Lemma wp_any_bind {A B} (m : M A) (k : A -> M B) R st :
  wp m (fun a st' => wp_any (k a) R st') (fun _ => R) st -> wp_any (bind m k) R st.
Proof. apply wp_bind. Qed.

Lemma wp_any_mono {A} (m : M A) (R R' : State -> Prop) st :
  wp_any m R st -> (forall st', R st' -> R' st') -> wp_any m R' st.
Proof. intros H HR. eapply wp_mono; [exact H | |]; simpl; auto. Qed.

(** A loop keeps an invariant that each of its rounds keeps. *)
Lemma wp_for_each {A} (I : State -> Prop) (xs : list A) (body : A -> M unit) E st :
  I st ->
  (forall x st', x ∈ xs -> I st' -> wp (body x) (fun _ => I) E st') ->
  wp (for_each xs body) (fun _ => I) E st.
Proof.
  revert st. induction xs as [|x xs IH]; intros st HI Hbody; simpl.
  - exact HI.
  - apply wp_bind. eapply wp_mono.
    + apply Hbody; [left | exact HI].
    + intros a st' HI'. apply IH; [exact HI'|].
      intros y st'' Hy. apply Hbody. now right.
    + auto.
Qed.

Lemma bind_ext {A B} (m : M A) (k1 k2 : A -> M B) st :
  (forall a st', k1 a st' = k2 a st') -> bind m k1 st = bind m k2 st.
Proof. intros Hk. unfold bind. destruct (m st); auto. Qed.

Lemma bind_cong {A B} (m1 m2 : M A) (k : A -> M B) st :
  m1 st = m2 st -> bind m1 k st = bind m2 k st.
Proof. unfold bind. now intros ->. Qed.

Lemma bind_assoc {A B C} (m : M A) (k : A -> M B) (h : B -> M C) st :
  bind (bind m k) h st = bind m (fun a => bind (k a) h) st.
Proof. unfold bind. destruct (m st); reflexivity. Qed.

Lemma bind_get_visited {B} (k : gset string -> M B) st :
  bind get_visited k st = k (visitedUrls st) st.
Proof. reflexivity. Qed.

Lemma bind_call {B} (e : event) (k : unit -> M B) st :
  bind (call e) k st = k tt (add_call e st).
Proof. reflexivity. Qed.

Lemma bind_ret {A B} (a : A) (k : A -> M B) st : bind (ret a) k st = k a st.
Proof. reflexivity. Qed.

Lemma for_each_ext {A} (xs : list A) (f g : A -> M unit) :
  (forall x st, f x st = g x st) ->
  forall st, for_each xs f st = for_each xs g st.
Proof.
  intros Hfg. induction xs as [|x xs IH]; intros st; simpl; [reflexivity|].
  unfold bind. rewrite Hfg. destruct (g x st); auto.
Qed.

(** ** Computations that do not run out of fuel *)

Create HintDb returns.

Lemma returns_ret {A} (a : A) : returns (ret a).
Proof. intros st. discriminate. Qed.

Lemma returns_raise {A} e : returns (@raise A e).
Proof. intros st. discriminate. Qed.

Lemma returns_bind {A B} (m : M A) (k : A -> M B) :
  returns m -> (forall a, returns (k a)) -> returns (bind m k).
Proof.
  intros Hm Hk st. unfold bind. specialize (Hm st).
  destruct (m st); [apply Hk | discriminate | contradiction].
Qed.

Lemma returns_call e : returns (call e).
Proof. intros st. discriminate. Qed.

Lemma returns_print m : returns (print m).
Proof. intros st. discriminate. Qed.

Lemma returns_get_visited : returns get_visited.
Proof. intros st. discriminate. Qed.

Lemma returns_visited_add url : returns (visited_add url).
Proof. intros st. discriminate. Qed.

Lemma returns_get_disk : returns get_disk.
Proof. intros st. discriminate. Qed.

Lemma returns_set_disk d : returns (set_disk d).
Proof. intros st. discriminate. Qed.

Lemma returns_if {A} (b : bool) (m1 m2 : M A) :
  returns m1 -> returns m2 -> returns (if b then m1 else m2).
Proof. destruct b; auto. Qed.

Lemma returns_for_each {A} (xs : list A) (body : A -> M unit) :
  (forall x, returns (body x)) -> returns (for_each xs body).
Proof.
  intros Hbody. induction xs as [|x xs IH]; simpl.
  - apply returns_ret.
  - apply returns_bind; auto.
Qed.

Lemma returns_map_M {A B} (f : A -> M B) (xs : list A) :
  (forall x, returns (f x)) -> returns (map_M f xs).
Proof.
  intros Hf. induction xs as [|x xs IH]; simpl.
  - apply returns_ret.
  - apply returns_bind; [apply Hf|intros y].
    apply returns_bind; [exact IH|intros ys]. apply returns_ret.
Qed.

#[export] Hint Resolve returns_ret returns_raise returns_call returns_print
  returns_get_visited returns_visited_add returns_get_disk returns_set_disk
  : returns.
#[export] Hint Extern 2 (returns (bind _ _)) =>
  apply returns_bind; [|intros ?] : returns.
#[export] Hint Extern 2 (returns (if _ then _ else _)) =>
  apply returns_if : returns.
#[export] Hint Extern 2 (returns (for_each _ _)) =>
  apply returns_for_each; intros ? : returns.
#[export] Hint Extern 2 (returns (map_M _ _)) =>
  apply returns_map_M; intros ? : returns.

Lemma returns_os_makedirs path : returns (os_makedirs path).
Proof. unfold os_makedirs. auto 10 with returns. Qed.

Lemma returns_write_file path content : returns (write_file path content).
Proof. unfold write_file. auto 10 with returns. Qed.

#[export] Hint Resolve returns_os_makedirs returns_write_file : returns.

Section Proofs.

Context {W : World}.

(** ** The recursion of [scrape] *)

Lemma scrape_body_gated self url depth base_folder st :
  gated url depth st = true ->
  scrape_body self url depth base_folder st = Ok tt st.
Proof.
  unfold gated, scrape_body, bind, get_visited. intros ->. reflexivity.
Qed.

Lemma scrape_body_ext self1 self2 url depth base_folder st :
  (forall link b st', self1 link (S depth) b st' = self2 link (S depth) b st') ->
  scrape_body self1 url depth base_folder st
  = scrape_body self2 url depth base_folder st.
Proof.
  intros Hself. unfold scrape_body.
  apply bind_ext. intros visited st1.
  destruct (_ || _); [reflexivity|].
  do 6 (apply bind_ext; intros ? ?).
  destruct (requests_get url); [|reflexivity].
  do 4 (apply bind_ext; intros ? ?).
  apply for_each_ext. intros link s1.
  apply bind_ext. intros visited' s2.
  destruct (bool_decide _); [reflexivity|]. apply Hself.
Qed.

Lemma returns_get_domain_folder url : returns (get_domain_folder url).
Proof. unfold get_domain_folder. auto 10 with returns. Qed.

Lemma returns_urljoin_M base ref : returns (urljoin_M base ref).
Proof. unfold urljoin_M. auto with returns. Qed.

Lemma returns_save_text content filename : returns (save_text content filename).
Proof. unfold save_text. auto 10 with returns. Qed.

Lemma returns_download_image img_url folder_path :
  returns (download_image img_url folder_path).
Proof.
  unfold download_image. apply returns_bind; [auto with returns|intros _].
  destruct (requests_get_stream img_url); auto 10 with returns.
Qed.

Hint Resolve returns_get_domain_folder returns_save_text
  returns_download_image returns_urljoin_M : returns.

Lemma gated_false url depth st :
  gated url depth st = false ->
  (url ∉ visitedUrls st) /\ depth < maxRekrusion.
Proof.
  unfold gated. intros H. apply orb_false_iff in H as [H1 H2].
  apply bool_decide_eq_false in H1. apply Nat.leb_gt in H2. auto.
Qed.

Lemma gated_true url depth st :
  gated url depth st = true <->
  url ∈ visitedUrls st \/ maxRekrusion <= depth.
Proof.
  unfold gated. rewrite orb_true_iff, bool_decide_eq_true, Nat.leb_le.
  reflexivity.
Qed.

(** The body returns when the calls it makes one level down return. *)
Lemma scrape_body_returns self url depth base_folder :
  (depth < maxRekrusion -> forall link b, returns (self link (S depth) b)) ->
  returns (scrape_body self url depth base_folder).
Proof.
  intros Hself st. destruct (gated url depth st) eqn:G.
  - rewrite scrape_body_gated by exact G. discriminate.
  - apply gated_false in G as [_ Hd]. specialize (Hself Hd).
    revert st. unfold scrape_body.
    apply returns_bind; [auto with returns|intros visited].
    apply returns_if; [auto with returns|].
    do 6 (apply returns_bind; [try destruct base_folder; auto with returns|intros ?]).
    destruct (requests_get url); auto 10 with returns.
Qed.

(** The fixpoint equation of [scrape]: the fuel of its definition is
    enough for every call it makes. *)
Lemma scrape_unfold url depth base_folder st :
  scrape url depth base_folder st
  = scrape_body scrape url depth base_folder st.
Proof.
  unfold scrape at 1. simpl scrape_fuel.
  destruct (gated url depth st) eqn:G.
  - rewrite !scrape_body_gated by exact G. reflexivity.
  - apply gated_false in G as [_ Hd].
    apply scrape_body_ext. intros link b st'. unfold scrape.
    replace (S (maxRekrusion - S depth)) with (maxRekrusion - depth) by lia.
    reflexivity.
Qed.

Lemma scrape_returns url depth base_folder :
  returns (scrape url depth base_folder).
Proof.
  remember (maxRekrusion - depth) as k eqn:Hk.
  revert url depth base_folder Hk.
  induction k as [k IH] using lt_wf_ind. intros url depth b Hk st.
  rewrite scrape_unfold. apply scrape_body_returns.
  intros Hd link b'. eapply IH; [|reflexivity]. lia.
Qed.

(** A property of every call of [scrape] follows from its being kept by
    the body. *)
Lemma scrape_ind (P : string -> nat -> option string -> State -> result unit -> Prop) :
  (forall self,
      (forall link depth b st, P link depth b st (self link depth b st)) ->
      forall url depth b st, P url depth b st (scrape_body self url depth b st)) ->
  (forall url depth b st, P url depth b st OutOfFuel) ->
  forall url depth b st, P url depth b st (scrape url depth b st).
Proof.
  intros Hbody Hfuel url depth b st. unfold scrape.
  generalize (S (maxRekrusion - depth)). intros fuel.
  revert url depth b st. induction fuel as [|fuel IH]; intros; simpl.
  - apply Hfuel.
  - apply Hbody. exact IH.
Qed.

(** ** The phases of a call *)

Lemma fitting_all cs : existsb name_too_long cs = false -> fitting cs = cs.
Proof.
  induction cs as [|c cs IH]; [reflexivity|]. simpl.
  destruct (name_too_long c); [discriminate|]. simpl. intros H. now rewrite IH.
Qed.

Lemma os_makedirs_eq path st :
  os_makedirs path st =
  if blocked (disk st) path
  then Raise (OSError path)
             (mkState (visitedUrls st)
                      (mkFS (dirs (disk st) ∪ half_made (disk st) path)
                            (files (disk st)))
                      (calls st ++ [Makedirs path]))
  else Ok tt (mkState (visitedUrls st)
                      (mkFS (dirs (disk st) ∪ made path) (files (disk st)))
                      (calls st ++ [Makedirs path])).
Proof.
  unfold os_makedirs, blocked, half_made, made, bind, call, get_disk, set_disk,
    raise, ret, add_call.
  simpl.
  destruct (existsb (is_file _) _).
  - rewrite orb_true_r. do 2 f_equal.
    destruct (disk st) as [ds fs]. simpl. f_equal. set_solver.
  - rewrite orb_false_r.
    destruct (existsb name_too_long _) eqn:Hl; [reflexivity|].
    rewrite fitting_all by exact Hl. reflexivity.
Qed.

(** Past the gate, the body of [scrape] is its phases in sequence. *)
Lemma scrape_body_phases self url depth base_folder st :
  gated url depth st = false ->
  scrape_body self url depth base_folder st
  = (base <- enter url depth base_folder ;;
     call (Get url) ;;
     fetched self url depth base) st.
Proof.
  intros G. unfold scrape_body, enter, make_folders, fetched, persist, follow.
  rewrite bind_get_visited. fold (gated url depth st). rewrite G.
  repeat (rewrite bind_assoc; apply bind_ext; intros ? ?).
  rewrite bind_ret. apply bind_ext; intros ? ?.
  destruct (requests_get url); [|reflexivity].
  rewrite bind_assoc. apply bind_ext; intros ? ?.
  rewrite bind_assoc. reflexivity.
Qed.

(** ** The list comprehensions *)

(** The references are resolved from left to right: the comprehension
    raises for the first one [urljoin] raises for, and returns the list
    of the resolved references when there is none; the state is as it
    was. *)
Lemma map_M_urljoin url attr tags st :
  map_M (fun t => urljoin_M url (getitem t attr)) tags st
  = match bad_ref url attr tags with
    | Some ref => Raise (ValueError ref) st
    | None => Ok (List.map (fun t => urljoin url (getitem t attr)) tags) st
    end.
Proof.
  unfold bad_ref. induction tags as [|t tags IH]; [reflexivity|].
  cbn [map_M List.find List.map]. unfold bind at 1, urljoin_M at 1.
  destruct (urljoin_raises url (getitem t attr)); [reflexivity|].
  unfold ret at 1. unfold bind. rewrite IH.
  destruct (List.find _ tags); reflexivity.
Qed.

Lemma resolve_imgs_eq url soup st :
  resolve_imgs url soup st
  = match bad_ref url "src" (find_all_with "img" "src" soup) with
    | Some ref => Raise (ValueError ref) st
    | None => Ok (img_urls url soup) st
    end.
Proof. apply map_M_urljoin. Qed.

Lemma resolve_links_eq url soup st :
  resolve_links url soup st
  = match bad_ref url "href" (find_all_with "a" "href" soup) with
    | Some ref => Raise (ValueError ref) st
    | None => Ok (new_urls url soup) st
    end.
Proof. apply map_M_urljoin. Qed.

(** ** Records of calls, steps and runs *)

Lemma gets_app tr1 tr2 : gets (tr1 ++ tr2) = gets tr1 ++ gets tr2.
Proof. apply omap_app. Qed.

Lemma entered_app tr1 tr2 : entered (tr1 ++ tr2) = entered tr1 ++ entered tr2.
Proof. apply omap_app. Qed.

Lemma gets_cons e tr : gets (e :: tr) = gets [e] ++ gets tr.
Proof. apply (gets_app [e]). Qed.

Lemma entered_cons e tr : entered (e :: tr) = entered [e] ++ entered tr.
Proof. apply (entered_app [e]). Qed.

Lemma event_ok_le base d d' e : d' <= d -> event_ok base d e -> event_ok base d' e.
Proof.
  intros Hle. destruct e as [[]| | | | |]; simpl; auto; try lia.
  intros (k & Hk & ->). exists k. split; [lia|reflexivity].
Qed.

Lemma disk_ok_refl base d : disk_ok base d d.
Proof. split; [reflexivity|]. intros cs. left. reflexivity. Qed.

Lemma disk_ok_trans base d1 d2 d3 :
  disk_ok base d1 d2 -> disk_ok base d2 d3 -> disk_ok base d1 d3.
Proof.
  intros [Hd1 Hf1] [Hd2 Hf2]. split; [etrans; eassumption|].
  intros cs. destruct (Hf2 cs) as [H2|H2]; [|right; exact H2].
  destruct (Hf1 cs) as [H1|H1]; [|right; exact H1].
  left. rewrite H2. exact H1.
Qed.

Lemma Frame_refl base depth st : Frame base depth st st.
Proof.
  split; [reflexivity|]. split; [apply disk_ok_refl|].
  exists []. rewrite app_nil_r. auto.
Qed.

Lemma Frame_trans base depth st1 st2 st3 :
  Frame base depth st1 st2 -> Frame base depth st2 st3 ->
  Frame base depth st1 st3.
Proof.
  intros (Hv1 & Hd1 & tr1 & Hc1 & Hok1 & Hg1 & He1)
         (Hv2 & Hd2 & tr2 & Hc2 & Hok2 & Hg2 & He2).
  split; [rewrite Hv2; exact Hv1|].
  split; [eapply disk_ok_trans; eassumption|].
  exists (tr1 ++ tr2). rewrite Hc2, Hc1, <- app_assoc.
  split; [reflexivity|]. split; [apply Forall_app; auto|].
  rewrite gets_app, entered_app.
  split; [rewrite Hg1, Hg2|rewrite He1, He2]; reflexivity.
Qed.

Lemma frames_ret {A} base depth (a : A) : frames base depth (ret a).
Proof. intros st. apply Frame_refl. Qed.

Lemma frames_bind {A B} base depth (m : M A) (k : A -> M B) :
  frames base depth m -> (forall a, frames base depth (k a)) ->
  frames base depth (bind m k).
Proof.
  intros Hm Hk st. apply wp_any_bind.
  eapply wp_mono; [apply Hm| |intros e st' F; exact F].
  intros a st' F. eapply wp_any_mono; [apply Hk|].
  intros st'' F'. eapply Frame_trans; [exact F|exact F'].
Qed.

Lemma frames_for_each {A} base depth (xs : list A) (body : A -> M unit) :
  (forall x, frames base depth (body x)) ->
  frames base depth (for_each xs body).
Proof.
  intros Hbody. induction xs as [|x xs IH]; simpl.
  - apply frames_ret.
  - apply frames_bind; auto.
Qed.

Lemma frames_call base depth e :
  quiet e -> event_ok base depth e -> frames base depth (call e).
Proof.
  intros Hq Hok st. unfold wp_any, wp, call, Frame. simpl.
  split; [reflexivity|]. split; [apply disk_ok_refl|].
  exists [e]. split; [reflexivity|]. split; [auto|].
  destruct e as [[]| | | | |]; simpl in *; auto; contradiction.
Qed.

Lemma frames_os_makedirs base depth path :
  event_ok base depth (Makedirs path) -> frames base depth (os_makedirs path).
Proof.
  intros Hok st. unfold wp_any, wp. rewrite os_makedirs_eq.
  destruct (blocked (disk st) path);
    (split; [reflexivity|]; split;
     [split; [simpl; apply union_subseteq_l|intros cs; left; reflexivity]|];
     exists [Makedirs path]; simpl; auto).
Qed.

Lemma frames_write_file base depth path content :
  artifact base (Path.components path) ->
  frames base depth (write_file path content).
Proof.
  intros Hart st.
  unfold wp_any, wp, write_file, bind, get_disk, set_disk, raise.
  repeat (match goal with |- context [if ?b then _ else _] => destruct b end;
          simpl; try apply Frame_refl).
  split; [reflexivity|]. split.
  { split; [reflexivity|]. intros cs. simpl.
    destruct (decide (cs = Path.components path)) as [->|Hne];
      [right; exact Hart|left; apply lookup_insert_ne; congruence]. }
  exists []. rewrite app_nil_r. auto.
Qed.

Lemma frames_save_text base depth content filename :
  event_ok base depth (OpenText filename) ->
  frames base depth (save_text content filename).
Proof.
  intros Hok. unfold save_text.
  apply frames_bind; [apply frames_call; simpl; auto|intros _].
  apply frames_write_file. destruct Hok as (d & _ & ->). left. eauto.
Qed.

Lemma frames_download_image base depth img_url :
  frames base depth (download_image img_url (img_folder base)).
Proof.
  unfold download_image.
  apply frames_bind; [apply frames_call; simpl; auto|intros _].
  destruct (requests_get_stream img_url) as [|chunks complete].
  - apply frames_call; simpl; auto.
  - apply frames_bind; [apply frames_call; simpl; eauto|intros _].
    apply frames_bind; [apply frames_write_file; right; eauto|intros _].
    destruct complete; apply frames_call; simpl; auto.
Qed.

Lemma frames_resolve_imgs base depth url soup :
  frames base depth (resolve_imgs url soup).
Proof.
  intros st. unfold wp_any, wp. rewrite resolve_imgs_eq.
  destruct (bad_ref _ _ _); apply Frame_refl.
Qed.

Lemma frames_resolve_links base depth url soup :
  frames base depth (resolve_links url soup).
Proof.
  intros st. unfold wp_any, wp. rewrite resolve_links_eq.
  destruct (bad_ref _ _ _); apply Frame_refl.
Qed.

Lemma frames_persist url depth base text :
  depth < maxRekrusion -> frames base depth (persist url depth base text).
Proof.
  intros Hd. unfold persist.
  apply frames_bind; [|intros _].
  - apply frames_save_text. exists depth. split; [lia|reflexivity].
  - apply frames_bind; [apply frames_resolve_imgs|intros imgs].
    apply frames_for_each. intros img_url. apply frames_download_image.
Qed.

Lemma Run_refl base depth st : Run base depth st st.
Proof.
  exists []. rewrite app_nil_r. simpl.
  split; [reflexivity|]. split; [set_solver|].
  split; [apply disk_ok_refl|].
  repeat split; auto using NoDup_nil_2; set_solver.
Qed.

Lemma Run_trans base depth st1 st2 st3 :
  Run base depth st1 st2 -> Run base depth st2 st3 -> Run base depth st1 st3.
Proof.
  intros (tr1 & Hc1 & Hv1 & Hd1 & Hok1 & He1 & Hn1 & Hg1 & Hs1)
         (tr2 & Hc2 & Hv2 & Hd2 & Hok2 & He2 & Hn2 & Hg2 & Hs2).
  exists (tr1 ++ tr2).
  rewrite gets_app, entered_app, fmap_app, list_to_set_app_L.
  split; [rewrite Hc2, Hc1, <- app_assoc; reflexivity|].
  split; [rewrite Hv2, Hv1; set_solver|].
  split; [eapply disk_ok_trans; eassumption|].
  split; [apply Forall_app; auto|].
  split.
  { apply NoDup_app. split; [exact He1|]. split; [|exact He2].
    intros u Hu1 Hu2. apply (Hn2 u Hu2). rewrite Hv1. set_solver. }
  split.
  { intros u Hu. apply elem_of_app in Hu as [Hu|Hu]; [auto|].
    intros Hin. apply (Hn2 u Hu). rewrite Hv1. set_solver. }
  split.
  { apply NoDup_app. split; [exact Hg1|]. split; [|exact Hg2].
    intros u Hu1 Hu2. apply Hs1 in Hu1. apply Hs2 in Hu2.
    apply (Hn2 u Hu2). rewrite Hv1. set_solver. }
  intros u Hu. apply elem_of_app in Hu as [Hu|Hu]; set_solver.
Qed.

Lemma Run_le base d d' st st' :
  d' <= d -> Run base d st st' -> Run base d' st st'.
Proof.
  intros Hle (tr & Hc & Hv & Hd & Hok & H). exists tr.
  repeat (split; [assumption|]). split; [|exact H].
  eapply Forall_impl; [exact Hok|]. intros e. apply event_ok_le, Hle.
Qed.

Lemma Frame_Run base depth st st' : Frame base depth st st' -> Run base depth st st'.
Proof.
  intros (Hv & Hd & tr & Hc & Hok & Hg & He). exists tr.
  rewrite Hg, He. simpl.
  split; [exact Hc|]. split; [set_solver|]. split; [exact Hd|].
  repeat split; auto using NoDup_nil_2; set_solver.
Qed.

(** A call that passed the gate, was left after its page fetch, and
    whose links led from [st4] to [st5]. *)
Lemma Run_fetched base url depth st st2 st4 st5 :
  url ∉ visitedUrls st -> depth < maxRekrusion ->
  Frame base depth (entered_state url depth st) st2 ->
  Frame base depth (add_call (Get url) st2) st4 ->
  Run base depth st4 st5 ->
  Run base depth st st5.
Proof.
  intros Hv Hd (Hv2 & Hd2 & tr2 & Hc2 & Hok2 & Hg2 & He2)
         (Hv4 & Hd4 & tr4 & Hc4 & Hok4 & Hg4 & He4)
         (tr5 & Hc5 & Hv5 & Hd5 & Hok5 & He5 & Hn5 & Hg5 & Hs5).
  simpl in *.
  exists (Print (Scraping url depth) :: tr2 ++ Get url :: tr4 ++ tr5).
  assert (Hent : entered (Print (Scraping url depth) :: tr2 ++ Get url :: tr4 ++ tr5)
                 = (url, depth) :: entered tr5).
  { rewrite entered_cons, entered_app, (entered_cons (Get url)), entered_app.
    rewrite He2, He4. reflexivity. }
  assert (Hget : gets (Print (Scraping url depth) :: tr2 ++ Get url :: tr4 ++ tr5)
                 = url :: gets tr5).
  { rewrite gets_cons, gets_app, (gets_cons (Get url)), gets_app.
    rewrite Hg2, Hg4. reflexivity. }
  rewrite Hent, Hget. simpl.
  assert (Hin4 : url ∈ visitedUrls st4) by (rewrite Hv4, Hv2; set_solver).
  split.
  { rewrite Hc5, Hc4, Hc2. rewrite <- !app_assoc. reflexivity. }
  split; [rewrite Hv5, Hv4, Hv2; set_solver|].
  split; [eapply disk_ok_trans; [exact Hd2|];
          eapply disk_ok_trans; [exact Hd4|exact Hd5]|].
  split.
  { constructor; [simpl; lia|]. apply Forall_app. split; [exact Hok2|].
    constructor; [exact I|]. apply Forall_app. auto. }
  split.
  { constructor; [|exact He5]. intros Hu. exact (Hn5 url Hu Hin4). }
  split.
  { intros u Hu. apply elem_of_cons in Hu as [->|Hu]; [exact Hv|].
    intros Hin. apply (Hn5 u Hu). rewrite Hv4, Hv2. set_solver. }
  split.
  { constructor; [|exact Hg5]. intros Hu. apply Hs5 in Hu.
    exact (Hn5 url Hu Hin4). }
  intros u Hu. apply elem_of_cons in Hu as [->|Hu]; [left|right; auto].
Qed.

(** A call that passed the gate and was left before its page fetch. *)
Lemma Run_entered base url depth st st2 :
  url ∉ visitedUrls st -> depth < maxRekrusion ->
  Frame base depth (entered_state url depth st) st2 ->
  Run base depth st st2.
Proof.
  intros Hv Hd (Hv2 & Hd2 & tr2 & Hc2 & Hok2 & Hg2 & He2). simpl in *.
  exists (Print (Scraping url depth) :: tr2).
  assert (Hent : entered (Print (Scraping url depth) :: tr2) = [(url, depth)]).
  { rewrite entered_cons, He2. reflexivity. }
  assert (Hget : gets (Print (Scraping url depth) :: tr2) = []).
  { rewrite gets_cons, Hg2. reflexivity. }
  rewrite Hent, Hget. simpl.
  split; [rewrite Hc2, <- app_assoc; reflexivity|].
  split; [rewrite Hv2; set_solver|].
  split; [exact Hd2|].
  split; [constructor; [simpl; lia|exact Hok2]|].
  split; [apply NoDup_singleton|].
  split; [intros u Hu; apply list_elem_of_singleton in Hu as ->; exact Hv|].
  split; [apply NoDup_nil_2|].
  intros u Hu. inversion Hu.
Qed.

(** ** The folders of a call *)

Lemma get_domain_folder_eq url st :
  get_domain_folder url st
  = if urlparse_raises url then Raise (ValueError url) st
    else (os_makedirs (site_root url) ;; ret (site_root url)) st.
Proof. unfold get_domain_folder. destruct (urlparse_raises url); reflexivity. Qed.

Lemma wp_get_domain_folder url depth st :
  wp (get_domain_folder url)
     (fun base st' => base = site_root url /\ Frame base depth st st')
     (fun _ st' => Frame (site_root url) depth st st') st.
Proof.
  unfold wp. rewrite get_domain_folder_eq.
  destruct (urlparse_raises url); [apply Frame_refl|].
  pose proof (frames_os_makedirs (site_root url) depth (site_root url)
                (or_introl eq_refl) st) as H.
  unfold wp_any, wp in H. unfold bind.
  destruct (os_makedirs (site_root url) st); simpl; auto.
Qed.

(** [get_domain_folder] makes the folder of the site, or is left by the
    [ValueError] of [urlparse] or the [OSError] of [os.makedirs]. *)
Lemma get_domain_folder_spec url st :
  wp (get_domain_folder url)
     (fun base st' =>
        base = site_root url /\
        visitedUrls st' = visitedUrls st /\
        files (disk st') = files (disk st) /\
        dirs (disk st') = dirs (disk st) ∪ made (site_root url) /\
        calls st' = calls st ++ [Makedirs (site_root url)])
     (fun e st' =>
        visitedUrls st' = visitedUrls st /\
        files (disk st') = files (disk st) /\
        ((e = ValueError url /\ urlparse_raises url = true /\
          dirs (disk st') = dirs (disk st) /\ calls st' = calls st) \/
         (e = OSError (site_root url) /\ urlparse_raises url = false /\
          blocked (disk st) (site_root url) = true /\
          dirs (disk st') = dirs (disk st) ∪ half_made (disk st) (site_root url) /\
          calls st' = calls st ++ [Makedirs (site_root url)])))
     st.
Proof.
  unfold wp. rewrite get_domain_folder_eq.
  destruct (urlparse_raises url); [auto 10|].
  unfold bind. rewrite os_makedirs_eq.
  destruct (blocked (disk st) (site_root url)); simpl; auto 10.
Qed.

Lemma wp_make_folders url depth base_folder st :
  wp (make_folders url base_folder)
     (fun base st' => base = resolve_base url base_folder /\
                      Frame base depth st st')
     (fun _ st' => Frame (resolve_base url base_folder) depth st st') st.
Proof.
  assert (Hfold : forall base st0,
    wp (os_makedirs (img_folder base) ;; os_makedirs (text_folder base) ;; ret base)
       (fun b st' => b = base /\ Frame b depth st0 st')
       (fun _ st' => Frame base depth st0 st') st0).
  { intros base st0. apply wp_bind.
    eapply wp_mono;
      [apply (frames_os_makedirs base depth); simpl; auto| |intros e s F; exact F].
    intros ? st1 F1. apply wp_bind.
    eapply wp_mono;
      [apply (frames_os_makedirs base depth); simpl; auto| |].
    - intros ? st2 F2. split; [reflexivity|].
      eapply Frame_trans; [exact F1|exact F2].
    - intros e st2 F2. eapply Frame_trans; [exact F1|exact F2]. }
  unfold make_folders. destruct base_folder as [b|]; simpl resolve_base.
  - unfold wp. rewrite bind_ret. apply Hfold.
  - apply wp_bind.
    eapply wp_mono; [apply (wp_get_domain_folder url depth)| |intros e s F; exact F].
    intros base st1 [-> F1].
    eapply wp_mono; [apply Hfold| |].
    + intros b st2 [-> F2]. split; [reflexivity|].
      eapply Frame_trans; [exact F1|exact F2].
    + intros e st2 F2. eapply Frame_trans; [exact F1|exact F2].
Qed.

Lemma wp_enter url depth base_folder st :
  wp (enter url depth base_folder)
     (fun base st' => base = resolve_base url base_folder /\
                      Frame base depth (entered_state url depth st) st')
     (fun _ st' => Frame (resolve_base url base_folder) depth
                         (entered_state url depth st) st') st.
Proof. apply (wp_make_folders url depth base_folder (entered_state url depth st)). Qed.

(** [make_folders] either makes every folder, or is left by the
    [ValueError] of [urlparse] or the [OSError] of one [os.makedirs];
    it touches no file. *)
Lemma make_folders_spec url base_folder st :
  wp (make_folders url base_folder)
     (fun base st' =>
        base = resolve_base url base_folder /\
        visitedUrls st' = visitedUrls st /\
        files (disk st') = files (disk st) /\
        dirs (disk st') = dirs (disk st) ∪ folders_made url base_folder /\
        calls st' = calls st ++ folder_calls url base_folder)
     (fun e st' =>
        visitedUrls st' = visitedUrls st /\
        files (disk st') = files (disk st) /\
        dirs (disk st) ⊆ dirs (disk st') /\
        exists mk, calls st' = calls st ++ mk /\ Forall is_makedirs mk)
     st.
Proof.
  assert (Hfold : forall base st0,
    wp (os_makedirs (img_folder base) ;; os_makedirs (text_folder base) ;; ret base)
       (fun b st' =>
          b = base /\ visitedUrls st' = visitedUrls st0 /\
          files (disk st') = files (disk st0) /\
          dirs (disk st') = dirs (disk st0) ∪ made (img_folder base)
                                            ∪ made (text_folder base) /\
          calls st' = calls st0 ++ [Makedirs (img_folder base);
                                    Makedirs (text_folder base)])
       (fun e st' =>
          visitedUrls st' = visitedUrls st0 /\
          files (disk st') = files (disk st0) /\
          dirs (disk st0) ⊆ dirs (disk st') /\
          exists mk, calls st' = calls st0 ++ mk /\ Forall is_makedirs mk) st0).
  { intros base st0. unfold wp, bind. rewrite os_makedirs_eq.
    destruct (blocked (disk st0) (img_folder base)); simpl.
    { split; [reflexivity|]. split; [reflexivity|].
      split; [apply union_subseteq_l|].
      eexists. split; [reflexivity|]. repeat constructor. }
    rewrite os_makedirs_eq. simpl.
    destruct (blocked _ (text_folder base)); simpl.
    { split; [reflexivity|]. split; [reflexivity|].
      split; [etrans; apply union_subseteq_l|].
      exists [Makedirs (img_folder base); Makedirs (text_folder base)].
      rewrite <- app_assoc. split; [reflexivity|]. repeat constructor. }
    rewrite <- app_assoc. repeat split; reflexivity. }
  unfold make_folders, folders_made, folder_calls.
  destruct base_folder as [b|]; simpl resolve_base.
  - unfold wp. rewrite bind_ret. specialize (Hfold b st). unfold wp in Hfold.
    destruct (bind _ _ st) as [base st'|e st'|]; [|exact Hfold|exact I].
    destruct Hfold as (-> & Hv & Hf & Hd & Hc).
    repeat split; auto. rewrite Hd. set_solver.
  - unfold wp. destruct (urlparse_raises url) eqn:Hp.
    { unfold bind at 1. rewrite get_domain_folder_eq, Hp.
      repeat split; auto. exists []. rewrite app_nil_r.
      split; [reflexivity|constructor]. }
    rewrite (bind_cong _ (os_makedirs (site_root url) ;; ret (site_root url)))
      by (rewrite get_domain_folder_eq, Hp; reflexivity).
    rewrite bind_assoc. unfold bind at 1. rewrite os_makedirs_eq.
    destruct (blocked (disk st) (site_root url)); simpl.
    { split; [reflexivity|]. split; [reflexivity|].
      split; [apply union_subseteq_l|].
      eexists. split; [reflexivity|]. repeat constructor. }
    rewrite bind_ret.
    match goal with |- context [bind _ _ ?s] => specialize (Hfold (site_root url) s) end.
    unfold wp in Hfold.
    destruct (bind _ _ _) as [base st'|e st'|]; [| |exact I]; simpl in Hfold.
    + destruct Hfold as (-> & Hv & Hf & Hd & Hc).
      repeat split; auto; [rewrite Hd; set_solver|].
      rewrite Hc, <- app_assoc. reflexivity.
    + destruct Hfold as (Hv & Hf & Hd & mk & Hc & Hmk).
      repeat split; auto; [set_solver|].
      exists (Makedirs (site_root url) :: mk).
      rewrite Hc, <- app_assoc. split; [reflexivity|]. constructor; [exact I|exact Hmk].
Qed.

(** ** Every call is a run *)

(** The links of a page lead from state to state by runs one level down. *)
Lemma wp_recurse self depth base links st :
  (forall link st', wp_any (self link (S depth) (Some base))
                           (Run base (S depth) st') st') ->
  wp_any (recurse self depth base links) (Run base depth st) st.
Proof.
  intros Hself. unfold wp_any, recurse.
  eapply wp_mono;
    [apply (wp_for_each (Run base depth st)) with (E := fun _ => Run base depth st)
    |intros a s R; exact R|intros e s R; exact R].
  - apply Run_refl.
  - intros link st' _ R. apply wp_bind. unfold wp at 1. simpl.
    destruct (bool_decide _); [exact R|].
    eapply wp_any_mono; [apply Hself|]. intros st'' R'.
    eapply Run_trans; [exact R|]. eapply Run_le; [|exact R']. lia.
Qed.

Lemma wp_follow self url depth base soup st :
  (forall link st', wp_any (self link (S depth) (Some base))
                           (Run base (S depth) st') st') ->
  wp_any (follow self url depth base soup) (Run base depth st) st.
Proof.
  intros Hself. unfold follow. apply wp_any_bind. unfold wp at 1.
  rewrite resolve_links_eq.
  destruct (bad_ref _ _ _); [apply Run_refl|apply wp_recurse, Hself].
Qed.

(** Every call of [scrape] is a run. *)
Lemma scrape_Run url depth base_folder st :
  wp_any (scrape url depth base_folder)
         (Run (resolve_base url base_folder) depth st) st.
Proof.
  revert url depth base_folder st.
  apply (scrape_ind (fun url depth b st r =>
    match r with
    | Ok _ st' | Raise _ st' => Run (resolve_base url b) depth st st'
    | OutOfFuel => True
    end)); [|exact (fun _ _ _ _ => I)].
  intros self IH url depth b st.
  destruct (gated url depth st) eqn:G.
  { rewrite scrape_body_gated by exact G. apply Run_refl. }
  rewrite scrape_body_phases by exact G.
  apply gated_false in G as [Hv Hd].
  set (B := resolve_base url b).
  change (wp_any (base <- enter url depth b ;; call (Get url) ;;
                  fetched self url depth base) (Run B depth st) st).
  apply wp_any_bind.
  eapply wp_mono; [apply wp_enter| |].
  2:{ intros e st2 F2. eapply Run_entered; eauto. }
  intros base st2 [-> F2]. fold B.
  apply wp_any_bind. unfold wp at 1. simpl.
  fold (add_call (Get url) st2).
  assert (Hdone : forall st4 st5,
             Frame B depth (add_call (Get url) st2) st4 ->
             Run B depth st4 st5 -> Run B depth st st5).
  { intros st4 st5 F4 R5. eapply Run_fetched; eauto. }
  unfold fetched. destruct (requests_get url) as [text|].
  - apply wp_any_bind.
    eapply wp_mono; [apply (frames_persist url depth B text Hd)| |].
    2:{ intros e st4 F4. eapply Hdone; [exact F4|apply Run_refl]. }
    intros ? st4 F4.
    eapply wp_any_mono.
    + apply wp_follow. intros link st'. apply (IH link (S depth) (Some B) st').
    + intros st5 R5. eapply Hdone; [exact F4|exact R5].
  - eapply Hdone; [|apply Run_refl].
    apply (frames_call B depth (Print (FailedRetrieve url))); simpl; auto.
Qed.

Lemma entered_elem u d tr : (u, d) ∈ entered tr <-> Print (Scraping u d) ∈ tr.
Proof.
  unfold entered. rewrite list_elem_of_omap. split.
  - intros (e & He & Hm). destruct e as [[]| | | | |]; try discriminate.
    injection Hm as -> ->. exact He.
  - intros He. exists (Print (Scraping u d)). split; [exact He|reflexivity].
Qed.

Lemma gets_elem u tr : u ∈ gets tr <-> Get u ∈ tr.
Proof.
  unfold gets. rewrite list_elem_of_omap. split.
  - intros (e & He & Hm). destruct e as [[]| | | | |]; try discriminate.
    injection Hm as ->. exact He.
  - intros He. exists (Get u). split; [exact He|reflexivity].
Qed.

(** Every call of [scrape] ends, in a state its start leads to by a run. *)
Lemma scrape_final url depth base_folder st :
  exists st', final (scrape url depth base_folder st) = Some st' /\
              Run (resolve_base url base_folder) depth st st'.
Proof.
  pose proof (scrape_Run url depth base_folder st) as HR.
  pose proof (scrape_returns url depth base_folder st) as Hret.
  unfold wp_any, wp in HR.
  destruct (scrape url depth base_folder st) as [a st'|e st'|];
    [exists st'|exists st'|contradiction]; split; auto.
Qed.

Lemma scrape_gated url depth base_folder st :
  gated url depth st = true -> scrape url depth base_folder st = Ok tt st.
Proof. intros G. rewrite scrape_unfold. apply scrape_body_gated, G. Qed.

Lemma scrape_phases url depth base_folder st :
  gated url depth st = false ->
  scrape url depth base_folder st
  = (base <- enter url depth base_folder ;;
     call (Get url) ;;
     fetched scrape url depth base) st.
Proof. intros G. rewrite scrape_unfold. apply scrape_body_phases, G. Qed.

(** ** A call whose fetch fails *)

Lemma enter_eq url depth base_folder st :
  enter url depth base_folder st
  = make_folders url base_folder (entered_state url depth st).
Proof. reflexivity. Qed.

Lemma returns_make_folders url base_folder : returns (make_folders url base_folder).
Proof.
  unfold make_folders.
  apply returns_bind; [destruct base_folder; auto with returns|intros base].
  auto 10 with returns.
Qed.

(** What follows the page fetch is a run. *)
Lemma fetched_Run url depth base st :
  depth < maxRekrusion ->
  wp_any (fetched scrape url depth base) (Run base depth st) st.
Proof.
  intros Hd. unfold fetched. destruct (requests_get url) as [text|].
  - apply wp_any_bind.
    eapply wp_mono; [apply (frames_persist url depth base text Hd)| |].
    + intros a st1 F1. eapply wp_any_mono.
      * apply wp_follow. intros link st'.
        apply (scrape_Run link (S depth) (Some base) st').
      * intros st2 R2. eapply Run_trans; [apply Frame_Run; exact F1|exact R2].
    + intros e st1 F1. apply Frame_Run. exact F1.
  - eapply wp_any_mono;
      [apply (frames_call base depth (Print (FailedRetrieve url))); simpl; auto|].
    intros st1. apply Frame_Run.
Qed.

Lemma is_dir_mono d d' cs :
  dirs d ⊆ dirs d' -> is_dir d cs = true -> is_dir d' cs = true.
Proof.
  unfold is_dir. rewrite !orb_true_iff, !bool_decide_eq_true.
  intros Hsub [H|H]; [left; exact H|right; apply Hsub, H].
Qed.

Lemma components_in_made path :
  Path.components path <> [] -> Path.components path ∈ made path.
Proof.
  intros Hne. unfold made. apply elem_of_list_to_set, elem_of_prefixes.
  split; [exact Hne|reflexivity].
Qed.

(** Once [os.makedirs] has made a sub-folder of [base], [base] and the
    sub-folder are directories. *)
Lemma is_dir_made d base sub :
  Str.starts_with "/" sub = false -> Path.components sub <> [] ->
  made (Path.join base sub) ⊆ dirs d ->
  is_dir d (Path.components base) = true /\
  is_dir d (Path.components (Path.join base sub)) = true.
Proof.
  intros Hrel Hsub Hmade. unfold is_dir.
  rewrite !orb_true_iff, !bool_decide_eq_true. split.
  - destruct (Path.components base) as [|c cs] eqn:Hb; [left; reflexivity|].
    right. apply Hmade. unfold made.
    apply elem_of_list_to_set, elem_of_prefixes. split; [discriminate|].
    rewrite components_join, Hb by exact Hrel. now apply prefix_app_r.
  - right. apply Hmade, components_in_made.
    rewrite components_join by exact Hrel. intros H.
    apply app_eq_nil in H as [_ H]. contradiction.
Qed.

Lemma folders_are_dirs url base_folder d :
  folders_made url base_folder ⊆ dirs d ->
  let base := resolve_base url base_folder in
  is_dir d (Path.components base) = true /\
  is_dir d (Path.components (img_folder base)) = true /\
  is_dir d (Path.components (text_folder base)) = true.
Proof.
  intros Hsub base. unfold folders_made in Hsub. fold base in Hsub.
  destruct (is_dir_made d base "img") as [Hb Hi];
    [reflexivity|discriminate|set_solver|].
  destruct (is_dir_made d base "text") as [_ Ht];
    [reflexivity|discriminate|set_solver|].
  auto.
Qed.

Lemma recurse_cons self depth base link rest st :
  link ∉ visitedUrls st ->
  recurse self depth base (link :: rest) st
  = (self link (S depth) (Some base) ;; recurse self depth base rest) st.
Proof.
  intros Hnv. unfold recurse. cbn [for_each].
  rewrite bind_assoc, bind_get_visited.
  rewrite bool_decide_eq_false_2 by exact Hnv. reflexivity.
Qed.

Lemma recurse_skip self depth base link rest st :
  link ∈ visitedUrls st ->
  recurse self depth base (link :: rest) st = recurse self depth base rest st.
Proof.
  intros Hv. unfold recurse. cbn [for_each].
  rewrite bind_assoc, bind_get_visited.
  rewrite bool_decide_eq_true_2 by exact Hv. reflexivity.
Qed.

(** A call whose page fetch fails does what [make_folders] does, then
    fetches and prints. *)
Lemma failed_fetch_result url depth base_folder st :
  gated url depth st = false ->
  requests_get url = None ->
  (exists st2,
     make_folders url base_folder (entered_state url depth st)
     = Ok (resolve_base url base_folder) st2 /\
     scrape url depth base_folder st
     = Ok tt (add_call (Print (FailedRetrieve url)) (add_call (Get url) st2))) \/
  (exists e st2,
     make_folders url base_folder (entered_state url depth st) = Raise e st2 /\
     scrape url depth base_folder st = Raise e st2).
Proof.
  intros G Hfail.
  pose proof (make_folders_spec url base_folder (entered_state url depth st)) as Hmk.
  pose proof (returns_make_folders url base_folder (entered_state url depth st)) as Hret.
  unfold wp in Hmk.
  destruct (make_folders url base_folder (entered_state url depth st))
    as [base st2|e st2|] eqn:Hmf; [| |contradiction].
  - destruct Hmk as [-> _]. left. exists st2. split; [reflexivity|].
    rewrite scrape_phases by exact G. unfold bind at 1. rewrite enter_eq, Hmf.
    unfold bind, fetched. rewrite Hfail. reflexivity.
  - right. exists e, st2. split; [reflexivity|].
    rewrite scrape_phases by exact G. unfold bind at 1. rewrite enter_eq, Hmf.
    reflexivity.
Qed.

(** ** The layout on disk *)

Lemma site_root_eq url :
  Str.contains "/" (netloc url) = false ->
  site_root url = "data/" +:+ Str.replace "." "_" (netloc url).
Proof.
  intros Hs. unfold site_root, Path.join.
  rewrite contains_starts_with; [reflexivity|].
  rewrite replace_dot_contains_slash. exact Hs.
Qed.

Lemma nonempty_app a b : Str.nonempty a = true -> Str.nonempty (a +:+ b) = true.
Proof. destruct a; [discriminate|reflexivity]. Qed.

Lemma site_root_plain url :
  Str.contains "/" (netloc url) = false ->
  netloc url <> "" ->
  Str.nonempty (site_root url) = true /\ Str.ends_with "/" (site_root url) = false.
Proof.
  intros Hno Hne. rewrite site_root_eq by exact Hno. split; [reflexivity|].
  pose proof (replace_dot_contains_slash (netloc url)) as Hs.
  rewrite Hno in Hs.
  destruct (netloc url) as [|c n] eqn:Hn; [contradiction|].
  unfold Str.replace in *. simpl Str.map in *.
  rewrite ends_with_app. apply contains_ends_with, Hs.
Qed.

Lemma subfolder_plain base sub c :
  Str.nonempty base = true -> Str.ends_with "/" base = false ->
  Str.starts_with "/" (String c sub) = false ->
  Path.join base (String c sub) = base +:+ "/" +:+ String c sub /\
  Str.nonempty (Path.join base (String c sub)) = true /\
  Str.ends_with "/" (Path.join base (String c sub))
  = Str.ends_with "/" (String c sub).
Proof.
  intros Hn He Hs. rewrite join_plain by assumption.
  split; [reflexivity|]. split; [apply nonempty_app, Hn|].
  change (base +:+ "/" +:+ String c sub) with (base +:+ String "/" (String c sub)).
  rewrite ends_with_app. destruct sub; reflexivity.
Qed.

Lemma page_filename_plain base depth :
  Str.nonempty base = true -> Str.ends_with "/" base = false ->
  page_filename base depth = base +:+ "/text/page_" +:+ Str.of_nat depth +:+ ".txt" /\
  img_folder base = base +:+ "/img" /\
  text_folder base = base +:+ "/text".
Proof.
  intros Hn He. unfold page_filename, text_folder, img_folder.
  destruct (subfolder_plain base "ext" "t" Hn He eq_refl) as (Ht & Htn & Hte).
  destruct (subfolder_plain base "mg" "i" Hn He eq_refl) as (Hi & _ & _).
  split; [|split; [exact Hi|exact Ht]].
  rewrite join_plain; [|exact Htn|rewrite Hte; reflexivity|reflexivity].
  rewrite Ht, app_string_assoc. reflexivity.
Qed.

Lemma write_file_ok path content st st' :
  write_file path content st = Ok tt st' ->
  files (disk st') = <[Path.components path := content]> (files (disk st)) /\
  dirs (disk st') = dirs (disk st) /\
  visitedUrls st' = visitedUrls st /\ calls st' = calls st.
Proof.
  unfold write_file, bind, get_disk, set_disk, raise.
  repeat (match goal with |- context [if ?b then _ else _] => destruct b end;
          try discriminate).
  intros H. injection H as <-. simpl. auto.
Qed.

Lemma save_text_ok content filename st st' :
  save_text content filename st = Ok tt st' ->
  files (disk st') !! Path.components filename = Some content /\
  (forall cs, cs <> Path.components filename ->
              files (disk st') !! cs = files (disk st) !! cs) /\
  calls st' = calls st ++ [OpenText filename].
Proof.
  unfold save_text, bind. simpl call. intros H.
  apply write_file_ok in H as (Hf & _ & _ & Hc). rewrite Hf, Hc.
  split; [apply lookup_insert_eq|]. split; [|reflexivity].
  intros cs Hne. apply lookup_insert_ne. congruence.
Qed.

(** ** Where the artifacts go *)

Lemma sub_nonword_relative s : Str.starts_with "/" (Re.sub_nonword "_" s) = false.
Proof.
  destruct s as [|c s]; [reflexivity|]. unfold Re.sub_nonword.
  cbn [Str.map Str.starts_with].
  destruct (Re.kept c) eqn:Hk; [|reflexivity].
  destruct (Str.chr_eqb c "/") eqn:Hc; [|reflexivity].
  apply chr_eqb_eq in Hc as ->. discriminate Hk.
Qed.

Lemma image_name_relative u : Str.starts_with "/" (image_name u) = false.
Proof. apply sub_nonword_relative. Qed.

(** The artifacts of a call lie in the folder it works with. *)
Lemma artifact_under base cs :
  artifact base cs -> Path.components base `prefix_of` cs.
Proof.
  intros [[d ->]|[u ->]].
  - unfold page_filename, text_folder.
    rewrite !components_join by reflexivity. rewrite <- app_assoc.
    now apply prefix_app_r.
  - unfold img_folder.
    rewrite components_join by apply image_name_relative.
    rewrite components_join by reflexivity. rewrite <- app_assoc.
    now apply prefix_app_r.
Qed.

(** ** The text of a page and the images *)

Lemma find_all_sublist names soup : find_all names soup `sublist_of` soup.
Proof.
  unfold find_all. induction soup as [|t soup IH]; simpl; [constructor|].
  destruct (bool_decide _); constructor; exact IH.
Qed.

Lemma elem_of_find_all names soup t :
  t ∈ find_all names soup <-> t ∈ soup /\ name t ∈ names.
Proof.
  unfold find_all. rewrite !list_elem_of_In, List.filter_In.
  rewrite bool_decide_eq_true, list_elem_of_In. reflexivity.
Qed.

Lemma download_image_error img_url folder_path st :
  requests_get_stream img_url = ImageError ->
  download_image img_url folder_path st
  = Ok tt (add_call (Print (FailedImage img_url))
                    (add_call (GetStream img_url) st)).
Proof. intros H. unfold download_image. rewrite H. reflexivity. Qed.

(** ** The order of the recursion *)

Lemma forest_app d l1 l2 : forest d l1 -> forest d l2 -> forest d (l1 ++ l2).
Proof.
  induction 1 as [|d t l Ht Hl IH]; intros H2; [exact H2|].
  rewrite <- app_assoc. constructor; auto.
Qed.

Lemma Forest_refl d st : Forest d st st.
Proof. exists []. rewrite app_nil_r. split; [reflexivity|constructor]. Qed.

Lemma Forest_trans d st1 st2 st3 :
  Forest d st1 st2 -> Forest d st2 st3 -> Forest d st1 st3.
Proof.
  intros (tr1 & Hc1 & H1) (tr2 & Hc2 & H2). exists (tr1 ++ tr2).
  rewrite Hc2, Hc1, <- app_assoc, entered_app.
  split; [reflexivity|apply forest_app; assumption].
Qed.

Lemma Frame_Forest base depth d st st' : Frame base depth st st' -> Forest d st st'.
Proof.
  intros (_ & _ & tr & Hc & _ & _ & He). exists tr.
  rewrite He. split; [exact Hc|constructor].
Qed.

Lemma forests_bind {A B} d (m : M A) (k : A -> M B) :
  forests d m -> (forall a, forests d (k a)) -> forests d (bind m k).
Proof.
  intros Hm Hk st. apply wp_any_bind.
  eapply wp_mono; [apply Hm| |intros e st' F; exact F].
  intros a st' F. eapply wp_any_mono; [apply Hk|].
  intros st'' F'. eapply Forest_trans; [exact F|exact F'].
Qed.

Lemma forests_for_each {A} d (xs : list A) (body : A -> M unit) :
  (forall x, forests d (body x)) -> forests d (for_each xs body).
Proof.
  intros Hbody. induction xs as [|x xs IH]; cbn [for_each].
  - intros st. apply Forest_refl.
  - apply forests_bind; auto.
Qed.

Lemma forests_call d e : entered [e] = [] -> forests d (call e).
Proof.
  intros He st. exists [e]. rewrite He. split; [reflexivity|constructor].
Qed.

Lemma frames_forests {A} base depth d (m : M A) :
  frames base depth m -> forests d m.
Proof.
  intros Hm st. eapply wp_any_mono; [apply Hm|].
  intros st'. apply Frame_Forest.
Qed.

Lemma Walk_Forest url d st st' : Walk url d st st' -> Forest d st st'.
Proof.
  intros (tr & Hc & [He|(l & He & Hl)]); exists tr; rewrite He;
    (split; [exact Hc|]); [constructor|].
  rewrite <- (app_nil_r (_ :: l)). constructor; constructor. exact Hl.
Qed.

Lemma scrape_Walk url depth base_folder st :
  wp_any (scrape url depth base_folder) (Walk url depth st) st.
Proof.
  revert url depth base_folder st.
  apply (scrape_ind (fun url depth b st r =>
    match r with
    | Ok _ st' | Raise _ st' => Walk url depth st st'
    | OutOfFuel => True
    end)); [|exact (fun _ _ _ _ => I)].
  intros self IH url depth b st.
  destruct (gated url depth st) eqn:G.
  { rewrite scrape_body_gated by exact G.
    exists []. rewrite app_nil_r. auto. }
  rewrite scrape_body_phases by exact G.
  apply gated_false in G as [_ Hd].
  assert (Hrest : forests (S depth)
            (base <- make_folders url b ;; call (Get url) ;;
             fetched self url depth base)).
  { assert (Hk : forests (S depth)
              (call (Get url) ;; fetched self url depth (resolve_base url b))).
    { apply forests_bind; [apply forests_call; reflexivity|intros _].
      unfold fetched. destruct (requests_get url) as [text|].
      - apply forests_bind;
          [apply (frames_forests (resolve_base url b) depth),
             frames_persist, Hd|intros _].
        unfold follow.
        apply forests_bind;
          [apply (frames_forests (resolve_base url b) depth),
             frames_resolve_links|intros links].
        apply forests_for_each. intros link s2.
        apply wp_any_bind. unfold wp at 1. simpl.
        destruct (bool_decide _); [apply Forest_refl|].
        specialize (IH link (S depth) (Some (resolve_base url b)) s2).
        unfold wp_any, wp.
        destruct (self link (S depth) (Some (resolve_base url b)) s2);
          try exact I; eapply Walk_Forest, IH.
      - apply (frames_forests (resolve_base url b) depth), frames_call;
          simpl; auto. }
    intros s0. apply wp_any_bind.
    eapply wp_mono; [apply (wp_make_folders url depth b s0)| |].
    2:{ intros e s1 F. eapply Frame_Forest, F. }
    intros base s1 [-> F1].
    eapply wp_any_mono; [apply Hk|].
    intros s2 F2. eapply Forest_trans; [eapply Frame_Forest, F1|exact F2]. }
  specialize (Hrest (entered_state url depth st)). unfold wp_any, wp in Hrest.
  change ((base <- enter url depth b ;; call (Get url) ;;
           fetched self url depth base) st)
    with ((base <- make_folders url b ;; call (Get url) ;;
           fetched self url depth base) (entered_state url depth st)).
  assert (Hnode : forall st', Forest (S depth) (entered_state url depth st) st' ->
                              Walk url depth st st').
  { intros st' (tr & Hc & Hf). exists (Print (Scraping url depth) :: tr).
    split; [rewrite Hc; simpl; rewrite <- app_assoc; reflexivity|].
    right. exists (entered tr). split; [|exact Hf].
    rewrite entered_cons. reflexivity. }
  destruct (bind _ _ _); auto.
Qed.

Lemma recurse_visit_links depth base links st :
  recurse scrape depth base links st = visit_links links (S depth) base st.
Proof.
  revert st. induction links as [|link rest IH]; intros st; [reflexivity|].
  cbn [visit_links]. destruct (bool_decide (link ∈ visitedUrls st)) eqn:Hv.
  - apply bool_decide_eq_true in Hv. rewrite recurse_skip by exact Hv. apply IH.
  - apply bool_decide_eq_false in Hv. rewrite recurse_cons by exact Hv.
    apply bind_ext. intros _ st'. apply IH.
Qed.

(** ** Opening a file *)

Lemma write_file_succeeds folder n content st :
  Str.contains "/" n = false -> names_no_file n = false ->
  is_dir (disk st) (Path.components folder) = true ->
  Path.components folder ++ [n] ∉ dirs (disk st) ->
  write_file (Path.join folder n) content st
  = Ok tt (mkState (visitedUrls st)
             (mkFS (dirs (disk st))
                   (<[Path.components folder ++ [n] := content]> (files (disk st))))
             (calls st)).
Proof.
  intros Hn Hok Hdir Hnd. unfold write_file, bind, get_disk, set_disk.
  rewrite basename_join by exact Hn. rewrite Hok.
  rewrite components_join_name by (auto using names_no_file_nonempty).
  assert (Hfree : is_dir (disk st) (Path.components folder ++ [n]) = false).
  { unfold is_dir. apply orb_false_iff.
    split; apply bool_decide_eq_false; [|exact Hnd].
    intros H. apply app_eq_nil in H as [_ H]. discriminate. }
  rewrite Hfree, removelast_last, Hdir. reflexivity.
Qed.

Lemma write_file_no_name folder n content st :
  Str.contains "/" n = false -> names_no_file n = true ->
  write_file (Path.join folder n) content st
  = Raise (OSError (Path.join folder n)) st.
Proof.
  intros Hn Hbad. unfold write_file, bind, get_disk, raise.
  rewrite basename_join by exact Hn. rewrite Hbad. reflexivity.
Qed.

Lemma image_name_no_slash u : Str.contains "/" (image_name u) = false.
Proof. apply sub_nonword_no_slash. Qed.

Lemma page_name_no_slash depth : Str.contains "/" (page_name depth) = false.
Proof.
  unfold page_name. rewrite !contains_app, of_nat_no_slash. reflexivity.
Qed.

(** Above the last level the name of a text file is never too long. *)
Lemma page_name_usable depth :
  depth < maxRekrusion -> names_no_file (page_name depth) = false.
Proof.
  rewrite maxRekrusion_eq. intros H.
  do 100 (destruct depth as [|depth]; [vm_compute; reflexivity|]). lia.
Qed.

Lemma page_name_inj d d' : page_name d = page_name d' -> d = d'.
Proof.
  unfold page_name. intros H.
  apply String.app_inj in H.
  apply app_string_inv_tail in H.
  apply of_nat_inj. exact H.
Qed.

(** ** The paths of a call *)

Lemma streams_app tr1 tr2 : streams (tr1 ++ tr2) = streams tr1 ++ streams tr2.
Proof. apply omap_app. Qed.

Lemma components_img_folder base :
  Path.components (img_folder base) = Path.components base ++ ["img"].
Proof. unfold img_folder. now rewrite components_join. Qed.

Lemma components_text_folder base :
  Path.components (text_folder base) = Path.components base ++ ["text"].
Proof. unfold text_folder. now rewrite components_join. Qed.

Lemma components_page_filename base depth :
  Path.components (page_filename base depth)
  = Path.components base ++ ["text"; page_name depth].
Proof.
  unfold page_filename. fold (page_name depth).
  rewrite components_join_name;
    [|apply page_name_no_slash|reflexivity].
  rewrite components_text_folder, <- app_assoc. reflexivity.
Qed.

(** ** The files a call writes *)

Lemma wp_any_Ok {A} (m : M A) (R : State -> Prop) st a st' :
  wp_any m R st -> m st = Ok a st' -> R st'.
Proof. unfold wp_any, wp. intros H E. rewrite E in H. exact H. Qed.

Lemma deep_artifact_le base d d' cs :
  d' <= d -> deep_artifact base d cs -> deep_artifact base d' cs.
Proof.
  intros Hle [(k & Hk & ->)|H]; [left; exists k; split; [lia|reflexivity]|].
  right. exact H.
Qed.

Lemma Writes_files base depth st st' :
  files (disk st') = files (disk st) -> Writes base depth st st'.
Proof. intros H cs. left. now rewrite H. Qed.

Lemma Writes_trans base depth st1 st2 st3 :
  Writes base depth st1 st2 -> Writes base depth st2 st3 ->
  Writes base depth st1 st3.
Proof.
  intros H1 H2 cs. destruct (H2 cs) as [E2|A2]; [|right; exact A2].
  destruct (H1 cs) as [E1|A1]; [|right; exact A1].
  left. rewrite E2. exact E1.
Qed.

Lemma Writes_le base d d' st st' :
  d' <= d -> Writes base d st st' -> Writes base d' st st'.
Proof.
  intros Hle H cs. destruct (H cs) as [E|A]; [left; exact E|].
  right. eapply deep_artifact_le; eassumption.
Qed.

Lemma writes_bind {A B} base depth (m : M A) (k : A -> M B) :
  writes base depth m -> (forall a, writes base depth (k a)) ->
  writes base depth (bind m k).
Proof.
  intros Hm Hk st. apply wp_any_bind.
  eapply wp_mono; [apply Hm| |intros e st' F; exact F].
  intros a st' F. eapply wp_any_mono; [apply Hk|].
  intros st'' F'. eapply Writes_trans; [exact F|exact F'].
Qed.

Lemma writes_for_each {A} base depth (xs : list A) (body : A -> M unit) :
  (forall x, writes base depth (body x)) ->
  writes base depth (for_each xs body).
Proof.
  intros Hbody. induction xs as [|x xs IH]; cbn [for_each].
  - intros st. apply Writes_files. reflexivity.
  - apply writes_bind; auto.
Qed.

Lemma writes_call base depth e : writes base depth (call e).
Proof. intros st. apply Writes_files. reflexivity. Qed.

Lemma writes_write_file base depth path content :
  deep_artifact base depth (Path.components path) ->
  writes base depth (write_file path content).
Proof.
  intros Hart st.
  unfold wp_any, wp, write_file, bind, get_disk, set_disk, raise.
  repeat (match goal with |- context [if ?b then _ else _] => destruct b end;
          simpl; try (apply Writes_files; reflexivity)).
  intros cs. simpl.
  destruct (decide (cs = Path.components path)) as [->|Hne];
    [right; exact Hart|left; apply lookup_insert_ne; congruence].
Qed.

Lemma writes_download_image base depth u :
  writes base depth (download_image u (img_folder base)).
Proof.
  unfold download_image. apply writes_bind; [apply writes_call|intros _].
  destruct (requests_get_stream u) as [|chunks complete]; [apply writes_call|].
  apply writes_bind; [apply writes_call|intros _].
  apply writes_bind; [apply writes_write_file; right; eauto|intros _].
  destruct complete; apply writes_call.
Qed.

Lemma writes_resolve_imgs base depth url soup :
  writes base depth (resolve_imgs url soup).
Proof.
  intros st. unfold wp_any, wp. rewrite resolve_imgs_eq.
  destruct (bad_ref _ _ _); apply Writes_files; reflexivity.
Qed.

Lemma writes_resolve_links base depth url soup :
  writes base depth (resolve_links url soup).
Proof.
  intros st. unfold wp_any, wp. rewrite resolve_links_eq.
  destruct (bad_ref _ _ _); apply Writes_files; reflexivity.
Qed.

Lemma writes_images base depth imgs :
  writes base depth (for_each imgs (fun u => download_image u (img_folder base))).
Proof. apply writes_for_each. intros u. apply writes_download_image. Qed.

Lemma writes_persist url depth base text :
  writes base depth (persist url depth base text).
Proof.
  unfold persist, save_text.
  apply writes_bind; [|intros _].
  - apply writes_bind; [apply writes_call|intros _].
    apply writes_write_file. left. exists depth. auto.
  - apply writes_bind; [apply writes_resolve_imgs|intros imgs].
    apply writes_images.
Qed.

Lemma writes_recurse self depth base links :
  (forall link, writes base (S depth) (self link (S depth) (Some base))) ->
  writes base (S depth) (recurse self depth base links).
Proof.
  intros Hself. unfold recurse. apply writes_for_each. intros link st.
  apply wp_any_bind. unfold wp at 1. simpl.
  destruct (bool_decide _); [apply Writes_files; reflexivity|apply Hself].
Qed.

Lemma writes_follow self url depth base soup :
  (forall link, writes base (S depth) (self link (S depth) (Some base))) ->
  writes base (S depth) (follow self url depth base soup).
Proof.
  intros Hself. unfold follow.
  apply writes_bind; [apply writes_resolve_links|intros links].
  apply writes_recurse, Hself.
Qed.

Lemma enter_files url depth b st :
  wp (enter url depth b)
     (fun base st' => base = resolve_base url b /\
                      files (disk st') = files (disk st))
     (fun _ st' => files (disk st') = files (disk st)) st.
Proof.
  eapply wp_mono;
    [exact (make_folders_spec url b (entered_state url depth st))| |].
  - intros base st' (-> & _ & Hf & _). auto.
  - intros e st' (_ & Hf & _). exact Hf.
Qed.

(** A call at [depth] leaves every file as it was but the text files of
    its own depth and below, and the images. *)
Lemma scrape_Writes url depth b st :
  wp_any (scrape url depth b) (Writes (resolve_base url b) depth st) st.
Proof.
  revert url depth b st.
  apply (scrape_ind (fun url depth b st r =>
    match r with
    | Ok _ st' | Raise _ st' => Writes (resolve_base url b) depth st st'
    | OutOfFuel => True
    end)); [|exact (fun _ _ _ _ => I)].
  intros self IH url depth b st.
  destruct (gated url depth st) eqn:G.
  { rewrite scrape_body_gated by exact G. apply Writes_files. reflexivity. }
  rewrite scrape_body_phases by exact G.
  set (B := resolve_base url b).
  change (wp_any (base <- enter url depth b ;; call (Get url) ;;
                  fetched self url depth base) (Writes B depth st) st).
  apply wp_any_bind.
  eapply wp_mono; [apply enter_files| |].
  2:{ intros e st2 Hf. apply Writes_files, Hf. }
  intros base st2 [-> Hf2]. fold B.
  eapply wp_any_mono.
  2:{ intros st5 H5. eapply Writes_trans; [apply Writes_files, Hf2|exact H5]. }
  apply writes_bind; [apply writes_call|intros _].
  unfold fetched. destruct (requests_get url) as [text|]; [|apply writes_call].
  apply writes_bind; [apply writes_persist|intros _].
  intros st4. eapply wp_any_mono.
  - apply writes_follow. intros link s. apply (IH link (S depth) (Some B) s).
  - intros st5. apply Writes_le. lia.
Qed.

(** The text file of a page is none of the files written below it. *)
Lemma page_file_not_deeper base depth :
  ~ deep_artifact base (S depth) (Path.components (page_filename base depth)).
Proof.
  rewrite components_page_filename. intros [(d & Hd & H)|(u & H)].
  - rewrite components_page_filename in H. apply app_inv_head in H.
    assert (Hn : page_name depth = page_name d) by congruence.
    apply page_name_inj in Hn. lia.
  - rewrite components_join in H by apply image_name_relative.
    rewrite components_img_folder, <- app_assoc in H.
    apply app_inv_head in H. discriminate H.
Qed.

(** ** The links of the pages fetched *)

Lemma Closed_mono tr (V V' : gset string) : V ⊆ V' -> Closed tr V -> Closed tr V'.
Proof. intros Hsub H page d text link H1 H2 H3 H4. apply Hsub. eauto. Qed.

Lemma Closed_app tr1 tr2 V : Closed tr1 V -> Closed tr2 V -> Closed (tr1 ++ tr2) V.
Proof.
  intros H1 H2 page d text link Hin. apply elem_of_app in Hin as [Hin|Hin]; eauto.
Qed.

Lemma Closed_quiet tr V : entered tr = [] -> Closed tr V.
Proof.
  intros He page d text link Hin. apply entered_elem in Hin.
  rewrite He in Hin. inversion Hin.
Qed.

Lemma Covers_refl st : Covers st st.
Proof.
  exists []. rewrite app_nil_r. split; [reflexivity|]. split; [reflexivity|].
  now apply Closed_quiet.
Qed.

Lemma Covers_trans st1 st2 st3 : Covers st1 st2 -> Covers st2 st3 -> Covers st1 st3.
Proof.
  intros (tr1 & Hc1 & Hv1 & H1) (tr2 & Hc2 & Hv2 & H2). exists (tr1 ++ tr2).
  rewrite Hc2, Hc1, <- app_assoc. split; [reflexivity|].
  split; [etrans; eassumption|].
  apply Closed_app; [eapply Closed_mono; eassumption|exact H2].
Qed.

(** The loop over the links: when it returns, above the last level,
    every link is visited. *)
Lemma recurse_Covers self depth base links :
  (forall link st,
     wp (self link (S depth) (Some base))
        (fun _ st' => Covers st st' /\
                      (S depth < maxRekrusion -> link ∈ visitedUrls st'))
        (fun _ _ => True) st) ->
  forall st,
    wp (recurse self depth base links)
       (fun _ st' => Covers st st' /\
                     (S depth < maxRekrusion ->
                      forall link, link ∈ links -> link ∈ visitedUrls st'))
       (fun _ _ => True) st.
Proof.
  intros Hself. induction links as [|link rest IH]; intros st.
  { split; [apply Covers_refl|]. intros _ link Hin. inversion Hin. }
  unfold wp. destruct (decide (link ∈ visitedUrls st)) as [Hv|Hnv].
  - rewrite recurse_skip by exact Hv. specialize (IH st). unfold wp in IH.
    destruct (recurse self depth base rest st) as [x st'|e st'|]; auto.
    destruct IH as [C Hall]. split; [exact C|].
    intros Hd l Hin. apply elem_of_cons in Hin as [->|Hin]; [|auto].
    destruct C as (tr & _ & Hsub & _). apply Hsub, Hv.
  - rewrite recurse_cons by exact Hnv. unfold bind.
    specialize (Hself link st). unfold wp in Hself.
    destruct (self link (S depth) (Some base) st) as [x st1|e st1|]; auto.
    destruct Hself as [C1 Hl]. specialize (IH st1). unfold wp in IH.
    destruct (recurse self depth base rest st1) as [y st'|e st'|]; auto.
    destruct IH as [C2 Hall]. split; [eapply Covers_trans; eassumption|].
    intros Hd l Hin. apply elem_of_cons in Hin as [->|Hin]; [|auto].
    destruct C2 as (tr & _ & Hsub & _). apply Hsub, Hl, Hd.
Qed.

(** A call that returns has visited its URL, unless the depth stopped
    it, and the links of every page it announced above the last level. *)
Lemma scrape_Covers url depth b st :
  wp (scrape url depth b)
     (fun _ st' => Covers st st' /\
                   (depth < maxRekrusion -> url ∈ visitedUrls st'))
     (fun _ _ => True) st.
Proof.
  revert url depth b st.
  apply (scrape_ind (fun url depth b st r =>
    match r with
    | Ok _ st' => Covers st st' /\ (depth < maxRekrusion -> url ∈ visitedUrls st')
    | _ => True
    end)); [|exact (fun _ _ _ _ => I)].
  intros self IH url depth b st.
  destruct (gated url depth st) eqn:G.
  { rewrite scrape_body_gated by exact G. split; [apply Covers_refl|].
    intros Hd. apply gated_true in G as [G|G]; [exact G|lia]. }
  rewrite scrape_body_phases by exact G.
  apply gated_false in G as [Hnv Hd].
  set (B := resolve_base url b).
  pose proof (wp_enter url depth b st) as He. unfold wp in He.
  unfold bind at 1.
  destruct (enter url depth b st) as [base st2|e st2|]; [|exact I|exact I].
  destruct He as [-> F2]. fold B in F2 |- *. rewrite bind_call.
  set (st3 := add_call (Get url) st2).
  assert (Hdone : forall st4 st5 tr5,
    Frame B depth st3 st4 ->
    calls st5 = calls st4 ++ tr5 -> visitedUrls st4 ⊆ visitedUrls st5 ->
    Closed tr5 (visitedUrls st5) ->
    (forall text link, S depth < maxRekrusion -> requests_get url = Some text ->
                       link ∈ new_urls url (BeautifulSoup text) ->
                       link ∈ visitedUrls st5) ->
    Covers st st5 /\ (depth < maxRekrusion -> url ∈ visitedUrls st5)).
  { intros st4 st5 tr5 F4 Hc5 Hv5 Hcl5 Hlinks.
    destruct F2 as (Hv2 & _ & tr2 & Hc2 & _ & _ & He2).
    destruct F4 as (Hv4 & _ & tr4 & Hc4 & _ & _ & He4).
    simpl in Hv2, Hc2, Hv4, Hc4.
    assert (Hin : url ∈ visitedUrls st5).
    { apply Hv5. rewrite Hv4, Hv2. set_solver. }
    split; [|intros _; exact Hin].
    exists (Print (Scraping url depth) :: tr2 ++ Get url :: tr4 ++ tr5).
    split; [rewrite Hc5, Hc4, Hc2, <- !app_assoc; reflexivity|].
    split; [etrans; [|exact Hv5]; rewrite Hv4, Hv2; set_solver|].
    intros page d text link Hp Hdp Hget Hl.
    apply elem_of_cons in Hp as [Hp|Hp].
    { injection Hp as -> ->. eapply Hlinks; eassumption. }
    apply elem_of_app in Hp as [Hp|Hp].
    { apply entered_elem in Hp. rewrite He2 in Hp. inversion Hp. }
    apply elem_of_cons in Hp as [Hp|Hp]; [discriminate Hp|].
    apply elem_of_app in Hp as [Hp|Hp].
    { apply entered_elem in Hp. rewrite He4 in Hp. inversion Hp. }
    eapply Hcl5; eassumption. }
  unfold fetched. destruct (requests_get url) as [text|] eqn:Hget.
  - unfold bind.
    pose proof (frames_persist url depth B text Hd st3) as F4.
    unfold wp_any, wp in F4.
    destruct (persist url depth B text st3) as [x st4|e st4|]; [|exact I|exact I].
    unfold follow, bind. rewrite resolve_links_eq.
    destruct (bad_ref _ _ _); [exact I|].
    pose proof (recurse_Covers self depth B (new_urls url (BeautifulSoup text))
                  (fun link s => IH link (S depth) (Some B) s) st4) as H5.
    unfold wp in H5.
    destruct (recurse self depth B _ st4) as [y st5|e st5|]; [|exact I|exact I].
    destruct H5 as [(tr5 & Hc5 & Hv5 & Hcl5) Hall].
    apply (Hdone st4 st5 tr5 F4 Hc5 Hv5 Hcl5).
    intros text' link Hdp Hget' Hl. injection Hget' as <-. apply Hall; assumption.
  - simpl.
    apply (Hdone (add_call (Print (FailedRetrieve url)) st3)
                 (add_call (Print (FailedRetrieve url)) st3) []).
    + apply (frames_call B depth (Print (FailedRetrieve url))); simpl; auto.
    + rewrite app_nil_r. reflexivity.
    + reflexivity.
    + now apply Closed_quiet.
    + intros text link _ Hget'. discriminate Hget'.
Qed.

(** When a call that fetched its page returns, the text file of its
    depth holds the text of the page: what is written afterwards is
    written under other names. *)
Lemma scrape_saves_text url depth base_folder text st st' :
  gated url depth st = false ->
  requests_get url = Some text ->
  scrape url depth base_folder st = Ok tt st' ->
  files (disk st')
    !! Path.components (page_filename (resolve_base url base_folder) depth)
  = Some (page_text (BeautifulSoup text)).
Proof.
  intros G Hget Hok. rewrite scrape_phases in Hok by exact G.
  pose proof (enter_files url depth base_folder st) as He. unfold wp in He.
  unfold bind at 1 in Hok.
  destruct (enter url depth base_folder st) as [base st2|e st2|];
    try discriminate Hok.
  destruct He as [-> _]. set (B := resolve_base url base_folder) in *.
  rewrite bind_call in Hok. unfold fetched in Hok. rewrite Hget in Hok.
  unfold persist in Hok. rewrite bind_assoc in Hok. unfold bind at 1 in Hok.
  destruct (save_text _ _ _) as [[] st3|e st3|] eqn:Hs; try discriminate Hok.
  apply save_text_ok in Hs as [Hfile _].
  assert (W35 : Writes B (S depth) st3 st').
  { eapply wp_any_Ok; [|exact Hok]. apply writes_bind.
    - apply writes_bind; [apply writes_resolve_imgs|intros imgs].
      apply writes_images.
    - intros _. apply writes_follow.
      intros link s. apply (scrape_Writes link (S depth) (Some B) s). }
  destruct (W35 (Path.components (page_filename B depth))) as [E|A].
  - rewrite E. exact Hfile.
  - exfalso. exact (page_file_not_deeper B depth A).
Qed.

(** When a call that fetched its page returns, above the last level,
    every link of the page is visited. *)
Lemma scrape_follows_links url depth base_folder text st st' :
  gated url depth st = false ->
  requests_get url = Some text ->
  scrape url depth base_folder st = Ok tt st' ->
  S depth < maxRekrusion ->
  forall link, link ∈ new_urls url (BeautifulSoup text) ->
               link ∈ visitedUrls st'.
Proof.
  intros G Hget Hok Hd. rewrite scrape_phases in Hok by exact G.
  unfold bind at 1 in Hok.
  destruct (enter url depth base_folder st) as [base st2|e st2|];
    try discriminate Hok.
  rewrite bind_call in Hok. unfold fetched in Hok. rewrite Hget in Hok.
  unfold bind at 1 in Hok.
  destruct (persist _ _ _ _ _) as [[] st4|e st4|]; try discriminate Hok.
  unfold follow, bind in Hok. rewrite resolve_links_eq in Hok.
  destruct (bad_ref _ _ _); [discriminate Hok|].
  pose proof (recurse_Covers scrape depth base (new_urls url (BeautifulSoup text))
                (fun link s => scrape_Covers link (S depth) (Some base) s) st4) as H.
  unfold wp in H. rewrite Hok in H. destruct H as [_ H]. exact (H Hd).
Qed.

(** The fetch of a page fails on an error of the transport and on the
    statuses 400 to 599. *)
Lemma raise_for_status_true status_code :
  raise_for_status status_code = true <-> 400 <= status_code < 600.
Proof.
  unfold raise_for_status.
  rewrite andb_true_iff, Nat.leb_le, Nat.ltb_lt. reflexivity.
Qed.

Lemma raise_for_status_false status_code :
  raise_for_status status_code = false <->
  status_code < 400 \/ 600 <= status_code.
Proof.
  rewrite <- not_true_iff_false, raise_for_status_true. lia.
Qed.

Lemma requests_get_None url :
  requests_get url = None <->
  http_get url = TransportError \/
  exists status_code text,
    http_get url = Response status_code text /\
    400 <= status_code < 600.
Proof.
  unfold requests_get.
  destruct (http_get url) as [|status_code text].
  - split; [auto|reflexivity].
  - destruct (raise_for_status status_code) eqn:Hs.
    + split; [|reflexivity]. intros _. right. exists status_code, text.
      split; [reflexivity|]. apply raise_for_status_true, Hs.
    + split; [discriminate|].
      intros [H|(s & t & H & Hr)]; [discriminate H|]. injection H as <- <-.
      apply raise_for_status_true in Hr. congruence.
Qed.

Lemma requests_get_Some url text :
  requests_get url = Some text <->
  exists status_code,
    http_get url = Response status_code text /\
    (status_code < 400 \/ 600 <= status_code).
Proof.
  unfold requests_get.
  destruct (http_get url) as [|status_code text0].
  - split; [discriminate|]. intros (s & H & _). discriminate H.
  - destruct (raise_for_status status_code) eqn:Hs.
    + split; [discriminate|]. intros (s & H & Hr). injection H as <- <-.
      apply raise_for_status_false in Hr. congruence.
    + split.
      * intros H. injection H as <-. exists status_code.
        split; [reflexivity|]. apply raise_for_status_false, Hs.
      * intros (s & H & _). injection H as <- <-. reflexivity.
Qed.

(** ** The claims *)

(** C1. No URL is fetched twice within a run. A call on a visited URL
    returns at the gate and leaves the state as it is. A call that passes
    the gate has marked its URL visited when it issues the page fetch,
    and has fetched nothing before. Whatever the site, a call ends; the
    page fetches it and the calls below it made are pairwise distinct,
    none is of a URL that was visited at the start, and every URL entered
    or fetched is in the visited set at the end, so that every later
    call on it is stopped at the gate. In a run of the program no URL
    occurs twice among the page fetches. *)
Theorem no_url_fetched_twice url depth base_folder st :
  (url ∈ visitedUrls st -> scrape url depth base_folder st = Ok tt st) /\
  (gated url depth st = false ->
     scrape url depth base_folder st
     = (base <- enter url depth base_folder ;;
        call (Get url) ;;
        fetched scrape url depth base) st /\
     wp_any (enter url depth base_folder)
            (fun st2 => url ∈ visitedUrls st2 /\
                        exists tr, calls st2 = calls st ++ tr /\ gets tr = [])
            st) /\
  (exists st' tr,
     final (scrape url depth base_folder st) = Some st' /\
     calls st' = calls st ++ tr /\
     visitedUrls st ⊆ visitedUrls st' /\
     NoDup (gets tr) /\
     (forall u, Get u ∈ tr -> (u ∉ visitedUrls st) /\ u ∈ visitedUrls st') /\
     (forall u d, Print (Scraping u d) ∈ tr -> u ∈ visitedUrls st') /\
     (forall u d b, u ∈ visitedUrls st' -> scrape u d b st' = Ok tt st')) /\
  (exists st', final (main url) = Some st' /\ NoDup (gets (calls st'))).
Proof.
  assert (Hgate : forall u d b s, u ∈ visitedUrls s -> scrape u d b s = Ok tt s).
  { intros u d b s Hu. apply scrape_gated, gated_true. left. exact Hu. }
  split; [apply Hgate|]. split; [|split].
  - intros G. split; [apply scrape_phases, G|].
    eapply wp_mono; [apply wp_enter| |].
    + intros base st2 [_ (Hv & _ & tr & Hc & _ & Hg & _)]. simpl in *.
      split; [rewrite Hv; set_solver|].
      exists (Print (Scraping url depth) :: tr).
      split; [rewrite Hc, <- app_assoc; reflexivity|].
      rewrite gets_cons, Hg. reflexivity.
    + intros e st2 (Hv & _ & tr & Hc & _ & Hg & _). simpl in *.
      split; [rewrite Hv; set_solver|].
      exists (Print (Scraping url depth) :: tr).
      split; [rewrite Hc, <- app_assoc; reflexivity|].
      rewrite gets_cons, Hg. reflexivity.
  - destruct (scrape_final url depth base_folder st)
      as (st' & Hfin & tr & Hc & Hv & _ & _ & He & Hn & Hg & Hs).
    exists st', tr. split; [exact Hfin|]. split; [exact Hc|].
    split; [rewrite Hv; set_solver|]. split; [exact Hg|].
    split.
    { intros u Hu. apply gets_elem, Hs in Hu.
      split; [apply Hn, Hu|]. rewrite Hv. set_solver. }
    split.
    { intros u d Hu. apply entered_elem in Hu. rewrite Hv.
      apply elem_of_union_r, elem_of_list_to_set, list_elem_of_fmap.
      exists (u, d). split; [reflexivity|exact Hu]. }
    intros u d b. apply Hgate.
  - destruct (scrape_final url 0 None initial)
      as (st' & Hfin & tr & Hc & _ & _ & _ & _ & _ & Hg & _).
    exists st'. split; [exact Hfin|]. simpl in Hc. rewrite Hc. exact Hg.
Qed.

(** C2. A call on a visited URL, or at a depth that has reached
    [maxRekrusion] (100), returns at once and leaves the state as it is:
    visited set, disk and record of calls. Whatever the site, no call is
    entered at a depth of [maxRekrusion] or more, nor above the depth of
    the call it descends from. *)
Theorem gate_skips url depth base_folder st :
  (url ∈ visitedUrls st \/ maxRekrusion <= depth ->
     scrape url depth base_folder st = Ok tt st) /\
  (exists st' tr,
     final (scrape url depth base_folder st) = Some st' /\
     calls st' = calls st ++ tr /\
     forall u d, Print (Scraping u d) ∈ tr -> depth <= d < maxRekrusion) /\
  maxRekrusion = 100.
Proof.
  split; [intros H; apply scrape_gated, gated_true, H|].
  split; [|exact maxRekrusion_eq].
  destruct (scrape_final url depth base_folder st)
    as (st' & Hfin & tr & Hc & _ & _ & Hok & _).
  exists st', tr. split; [exact Hfin|]. split; [exact Hc|].
  intros u d Hu. rewrite Forall_forall in Hok. exact (Hok _ Hu).
Qed.

(** C3, as amended. The page fetch of a call fails when [requests.get]
    raises an error of the transport or when the final response has a
    status from 400 to 599, and in no other case: a response of any
    other status, inside 200 to 299 or not, is saved and followed like
    any page. A call whose page fetch fails ends there: it returns
    normally, having announced the page, made its folders, issued the
    one fetch and printed the failure. It has written no file, fetched
    no image and made no recursive call; its URL stays in the visited
    set, so it is never tried again; and the loop of the calling page
    goes on with the next link. (When a folder cannot be made the call
    is left by an exception before any fetch.) *)
Theorem failed_fetch_ends_node url depth base_folder st :
  gated url depth st = false ->
  (requests_get url = None <->
   http_get url = TransportError \/
   exists status_code text,
     http_get url = Response status_code text /\
     400 <= status_code < 600) /\
  (forall status_code text,
     http_get url = Response status_code text ->
     status_code < 400 \/ 600 <= status_code ->
     scrape url depth base_folder st
     = (base <- enter url depth base_folder ;;
        call (Get url) ;;
        persist url depth base text ;;
        follow scrape url depth base (BeautifulSoup text)) st) /\
  (requests_get url = None ->
   scrape url depth base_folder st
   = (base <- enter url depth base_folder ;;
      call (Get url) ;;
      print (FailedRetrieve url)) st /\
   exists st',
     final (scrape url depth base_folder st) = Some st' /\
     visitedUrls st' = {[url]} ∪ visitedUrls st /\
     files (disk st') = files (disk st) /\
     (forall d b, scrape url d b st' = Ok tt st') /\
     ((scrape url depth base_folder st = Ok tt st' /\
       calls st' = calls st ++ Print (Scraping url depth)
                               :: folder_calls url base_folder
                               ++ [Get url; Print (FailedRetrieve url)] /\
       forall d0 base rest,
         depth = S d0 -> base_folder = Some base ->
         recurse scrape d0 base (url :: rest) st = recurse scrape d0 base rest st')
      \/
      (exists e mk,
         scrape url depth base_folder st = Raise e st' /\
         calls st' = calls st ++ Print (Scraping url depth) :: mk /\
         Forall is_makedirs mk))).
Proof.
  intros G.
  split; [apply requests_get_None|].
  split.
  { intros status_code text Hresp Hs.
    assert (Hget : requests_get url = Some text)
      by (apply requests_get_Some; eauto).
    rewrite scrape_phases by exact G. apply bind_ext. intros base st2.
    apply bind_ext. intros _ st3. unfold fetched. rewrite Hget. reflexivity. }
  intros Hfail.
  assert (Heq : scrape url depth base_folder st
                = (base <- enter url depth base_folder ;;
                   call (Get url) ;; print (FailedRetrieve url)) st).
  { rewrite scrape_phases by exact G. apply bind_ext. intros base st2.
    apply bind_ext. intros _ st3. unfold fetched. rewrite Hfail. reflexivity. }
  split; [exact Heq|].
  assert (Hgate : forall s, url ∈ visitedUrls s ->
                            forall d b, scrape url d b s = Ok tt s).
  { intros s Hs d b. apply scrape_gated, gated_true. left. exact Hs. }
  assert (Hcases :
    exists st',
      visitedUrls st' = {[url]} ∪ visitedUrls st /\
      files (disk st') = files (disk st) /\
      ((scrape url depth base_folder st = Ok tt st' /\
        calls st' = calls st ++ Print (Scraping url depth)
                                :: folder_calls url base_folder
                                ++ [Get url; Print (FailedRetrieve url)]) \/
       (exists e mk,
          scrape url depth base_folder st = Raise e st' /\
          calls st' = calls st ++ Print (Scraping url depth) :: mk /\
          Forall is_makedirs mk))).
  { pose proof (make_folders_spec url base_folder (entered_state url depth st)) as Hmk.
    unfold wp in Hmk.
    destruct (failed_fetch_result url depth base_folder st G Hfail)
      as [(st2 & Hmf & Hres)|(e & st2 & Hmf & Hres)];
      rewrite Hmf in Hmk; lazy beta iota in Hmk.
    - destruct Hmk as (_ & Hv & Hf & Hd & Hc).
      exists (add_call (Print (FailedRetrieve url)) (add_call (Get url) st2)).
      split; [exact Hv|]. split; [exact Hf|]. left. split; [exact Hres|].
      simpl calls. rewrite Hc. simpl calls. rewrite <- !app_assoc. reflexivity.
    - destruct Hmk as (Hv & Hf & Hd & mk & Hc & Hmk).
      exists st2. split; [exact Hv|]. split; [exact Hf|].
      right. exists e, mk. split; [exact Hres|]. split; [|exact Hmk].
      rewrite Hc. simpl calls. rewrite <- app_assoc. reflexivity. }
  destruct Hcases as (st' & Hv & Hf & Hres). exists st'.
  split; [destruct Hres as [[-> _]|(e & mk & -> & _)]; reflexivity|].
  split; [exact Hv|]. split; [exact Hf|].
  split; [apply Hgate; rewrite Hv; set_solver|].
  destruct Hres as [[Hok Hc]|Hraise]; [left|right; exact Hraise].
  split; [exact Hok|]. split; [exact Hc|].
  intros d0 base rest -> ->.
  apply gated_false in G as [Hnv _].
  rewrite recurse_cons by exact Hnv. unfold bind. rewrite Hok. reflexivity.
Qed.

(** C4, as amended. The artifacts of every page of a crawl are stored in
    the folder the first call derives from the URL it is given: a call
    with no folder works in [site_root url], a call with a folder works
    in that folder, and every call below it is passed the same folder.
    Every folder made, every text file and every image file opened by
    the call or below it is the folder itself, its [img] or [text]
    sub-folder, a [page_<d>.txt] of [text] or a file of [img]; a file
    outside the folder is left as it was. At the end of the program
    every file on disk lies in the site folder of the seed. Two URLs
    with the same network location have the same site folder. *)
Theorem stored_under_seed_root url depth base_folder st :
  let base := resolve_base url base_folder in
  (base_folder = None -> base = site_root url) /\
  (forall b, base_folder = Some b -> base = b) /\
  (exists st' tr,
     final (scrape url depth base_folder st) = Some st' /\
     calls st' = calls st ++ tr /\
     (forall p, Makedirs p ∈ tr ->
                p = base \/ p = img_folder base \/ p = text_folder base) /\
     (forall p, OpenText p ∈ tr ->
                exists d, depth <= d /\ p = page_filename base d) /\
     (forall p, OpenBinary p ∈ tr ->
                exists u, p = Path.join (img_folder base) (image_name u)) /\
     (forall cs, files (disk st') !! cs = files (disk st) !! cs \/
                 Path.components base `prefix_of` cs)) /\
  (exists st', final (main url) = Some st' /\
     forall cs, is_Some (files (disk st') !! cs) ->
                Path.components (site_root url) `prefix_of` cs) /\
  (forall url', netloc url' = netloc url -> site_root url' = site_root url).
Proof.
  intros base. split; [intros ->; reflexivity|].
  split; [intros b ->; reflexivity|]. split; [|split].
  - destruct (scrape_final url depth base_folder st)
      as (st' & Hfin & tr & Hc & _ & [_ Hfiles] & Hok & _).
    fold base in Hfiles, Hok. rewrite Forall_forall in Hok.
    exists st', tr. split; [exact Hfin|]. split; [exact Hc|].
    split; [intros p Hp; exact (Hok _ Hp)|].
    split.
    { intros p Hp. destruct (Hok _ Hp) as (d & [Hd _] & ->). eauto. }
    split; [intros p Hp; exact (Hok _ Hp)|].
    intros cs. destruct (Hfiles cs) as [H|H]; [left; exact H|].
    right. apply artifact_under, H.
  - destruct (scrape_final url 0 None initial)
      as (st' & Hfin & tr & _ & _ & [_ Hfiles] & _).
    exists st'. split; [exact Hfin|]. intros cs [c Hcs].
    destruct (Hfiles cs) as [H|H]; [|apply artifact_under, H].
    rewrite Hcs in H. simpl in H. rewrite lookup_empty in H. discriminate.
  - intros url' Heq. unfold site_root. now rewrite Heq.
Qed.

(** C5, as amended. The text of a page is what [get_text(strip=True)]
    gives for each [p], [h1]..[h6] and [li] element, in document order,
    joined by single newlines; the other elements contribute nothing. An
    element with no text contributes an empty string between the
    separators: when no text holds a newline, the lines of the page text
    are exactly the texts of the elements, empty ones included, one line
    for each element. *)
Theorem page_text_lines (soup : list Tag) :
  let found := find_all text_tags soup in
  page_text soup = Str.join LF (List.map get_text_strip found) /\
  found `sublist_of` soup /\
  (forall t, t ∈ found <-> t ∈ soup /\ name t ∈ text_tags) /\
  (forall soup', find_all text_tags (soup ++ soup')
                 = found ++ find_all text_tags soup') /\
  (found <> [] ->
   Forall (fun t => Str.contains "010" (get_text_strip t) = false) found ->
   Str.split "010" (page_text soup) = List.map get_text_strip found).
Proof.
  intros found. split; [reflexivity|].
  split; [apply find_all_sublist|].
  split; [intros t; apply elem_of_find_all|].
  split; [intros soup'; apply List.filter_app|].
  intros Hne Hall. unfold page_text. fold found. apply split_join.
  - destruct found; [contradiction|discriminate].
  - apply Forall_fmap. exact Hall.
Qed.

(** C6, as amended. The name [download_image] stores an image under is
    derived from its URL: what precedes the first ['?'] (the whole URL
    when there is none), of this what follows the last ['/'], and in
    this every character that is neither alphanumeric, an underscore nor
    a period replaced by ['_'], the others kept (periods too). This is
    the name of the file it opens in the folder. The URL
    [photo name.jpg?v=2] gives [photo_name.jpg]; [photo name?v=2.jpg]
    gives [photo_name], the extension being part of the query. *)
Theorem image_name_sanitized (img_url : string) :
  let stripped := Str.split_head "?" img_url in
  let raw := Path.basename stripped in
  Str.contains "?" stripped = false /\
  (Str.contains "?" img_url = false -> stripped = img_url) /\
  (forall a b, Str.contains "?" a = false ->
               Str.split_head "?" (a +:+ String "?" b) = a) /\
  Str.contains "/" raw = false /\
  (exists dir, stripped = dir +:+ raw /\
               (dir = "" \/ Str.ends_with "/" dir = true)) /\
  String.length (image_name img_url) = String.length raw /\
  (forall i, String.get i (image_name img_url)
             = (fun c => if Re.kept c then c else "_"%char) <$> String.get i raw) /\
  Str.forallb Re.kept (image_name img_url) = true /\
  (Str.forallb Re.kept raw = true -> image_name img_url = raw) /\
  (Re.kept "." = true /\ Re.kept "_" = true /\ Re.kept " " = false /\
   Re.kept "?" = false /\ Re.kept "/" = false) /\
  (forall folder_path chunks complete st,
     requests_get_stream img_url = ImageBody chunks complete ->
     download_image img_url folder_path st
     = (call (GetStream img_url) ;;
        call (OpenBinary (Path.join folder_path (image_name img_url))) ;;
        write_file (Path.join folder_path (image_name img_url))
                   (Str.join "" chunks) ;;
        if complete then print (DownloadedImage (image_name img_url))
        else print (FailedImage img_url)) st) /\
  image_name "photo name.jpg?v=2" = "photo_name.jpg" /\
  image_name "photo name?v=2.jpg" = "photo_name".
Proof.
  intros stripped raw.
  split; [apply split_head_no_sep|].
  split; [apply split_head_id|].
  split; [intros a b; apply split_head_app|].
  split; [apply basename_no_slash|].
  split; [apply basename_suffix|].
  split; [apply map_length|].
  split; [intros i; apply map_get|].
  split; [apply sub_nonword_kept|].
  split; [apply sub_nonword_id|].
  split; [repeat split; reflexivity|].
  split; [|split; reflexivity].
  intros folder_path chunks complete st Hget.
  unfold download_image. rewrite Hget. reflexivity.
Qed.

(** C7, as amended. The layout on disk of a call
    [scrape(url, depth, base_folder)], whose folder [root] is
    [base_folder] or, when there is none, the folder of the site of
    [url]. The folder of a site is [data/<netloc>] with every ['.'] of
    the network location replaced by ['_'] (no ['.'] is left, the length
    is kept): the network location as [urlparse] gives it, with the
    port and the user information when the URL has them, not the host
    alone; [get_domain_folder] makes this folder and returns it, unless
    [urlparse] raises. The text file of depth [depth] is
    [<root>/text/page_<depth>.txt], the folder of the images
    [<root>/img], the other folder [<root>/text]. The call, with all
    the calls below it, makes no directory but these three and opens no
    file but the text files of [root] for its depth and the depths
    below and files in the folder of the images named by [image_name].
    When the call has fetched its page and returns, the text file of
    its depth holds the text of the page; the name of this file depends
    on the folder and the depth only, so that a later call on any other
    page at the same depth and with the same folder, once it has
    fetched its page and returned, leaves the text of that page in the
    same file. *)
Theorem on_disk_layout url depth base_folder st :
  (Str.contains "/" (netloc url) = false ->
   site_root url = "data/" +:+ Str.replace "." "_" (netloc url) /\
   Str.contains "." (Str.replace "." "_" (netloc url)) = false /\
   String.length (Str.replace "." "_" (netloc url)) = String.length (netloc url) /\
   (netloc url <> "" ->
    Str.nonempty (site_root url) = true /\
    Str.ends_with "/" (site_root url) = false)) /\
  (forall st0,
     get_domain_folder url st0
     = if urlparse_raises url then Raise (ValueError url) st0
       else (os_makedirs (site_root url) ;; ret (site_root url)) st0) /\
  (forall root,
     Str.nonempty root = true -> Str.ends_with "/" root = false ->
     page_filename root depth
     = root +:+ "/text/page_" +:+ Str.of_nat depth +:+ ".txt" /\
     img_folder root = root +:+ "/img" /\
     text_folder root = root +:+ "/text") /\
  (exists st' tr,
     final (scrape url depth base_folder st) = Some st' /\
     calls st' = calls st ++ tr /\
     forall e, e ∈ tr ->
       match e with
       | Makedirs p =>
           p = resolve_base url base_folder \/
           p = img_folder (resolve_base url base_folder) \/
           p = text_folder (resolve_base url base_folder)
       | OpenText p =>
           exists d, depth <= d < maxRekrusion /\
                     p = page_filename (resolve_base url base_folder) d
       | OpenBinary p =>
           exists u, p = Path.join (img_folder (resolve_base url base_folder))
                                   (image_name u)
       | _ => True
       end) /\
  (forall text st',
     gated url depth st = false ->
     requests_get url = Some text ->
     scrape url depth base_folder st = Ok tt st' ->
     files (disk st')
       !! Path.components (page_filename (resolve_base url base_folder) depth)
     = Some (page_text (BeautifulSoup text)) /\
     forall page text' st'',
       gated page depth st' = false ->
       requests_get page = Some text' ->
       scrape page depth (Some (resolve_base url base_folder)) st' = Ok tt st'' ->
       files (disk st'')
         !! Path.components (page_filename (resolve_base url base_folder) depth)
       = Some (page_text (BeautifulSoup text'))).
Proof.
  split.
  { intros Hno.
    split; [apply site_root_eq, Hno|].
    split; [apply replace_dot_contains_dot|].
    split; [apply replace_length|].
    intros Hne. apply site_root_plain; assumption. }
  split; [intros st0; apply get_domain_folder_eq|].
  split; [intros root Hn He; apply page_filename_plain; assumption|].
  split.
  { destruct (scrape_final url depth base_folder st) as (st' & Hfin & R).
    destruct R as (tr & Hc & _ & _ & Hev & _).
    exists st', tr. split; [exact Hfin|]. split; [exact Hc|].
    intros e He. rewrite Forall_forall in Hev. specialize (Hev e He).
    destruct e as [m|p|u|u|p|p]; try exact I; exact Hev. }
  intros text st' G Hget Hok.
  split; [eapply scrape_saves_text; eassumption|].
  intros page text' st'' G' Hget' Hok'.
  exact (scrape_saves_text page depth (Some (resolve_base url base_folder))
           text' st' st'' G' Hget' Hok').
Qed.

(** C8, as amended. [download_image] never passes a failure of the
    transport or of the HTTP status to its caller. When the GET or its
    status check fails it prints the failure and returns, and the loop
    over the images of the page goes on with the next image. When the
    body breaks off in the middle of the stream, the file being open, it
    prints the failure and returns as well. It always ends; the only
    exception that leaves it is the [OSError] of opening the file, which
    is raised only after the GET and its status check have succeeded. *)
Theorem image_fetch_failures_are_caught img_url folder_path st :
  (requests_get_stream img_url = ImageError ->
     download_image img_url folder_path st
     = Ok tt (add_call (Print (FailedImage img_url))
                       (add_call (GetStream img_url) st)) /\
     forall rest,
       for_each (img_url :: rest) (fun u => download_image u folder_path) st
       = for_each rest (fun u => download_image u folder_path)
                  (add_call (Print (FailedImage img_url))
                            (add_call (GetStream img_url) st))) /\
  (forall chunks st1,
     requests_get_stream img_url = ImageBody chunks false ->
     write_file (Path.join folder_path (image_name img_url)) (Str.join "" chunks)
                (add_call (OpenBinary (Path.join folder_path (image_name img_url)))
                          (add_call (GetStream img_url) st))
     = Ok tt st1 ->
     download_image img_url folder_path st
     = Ok tt (add_call (Print (FailedImage img_url)) st1)) /\
  download_image img_url folder_path st <> OutOfFuel /\
  (forall e st',
     download_image img_url folder_path st = Raise e st' ->
     e = OSError (Path.join folder_path (image_name img_url)) /\
     exists chunks complete,
       requests_get_stream img_url = ImageBody chunks complete).
Proof.
  split; [|split; [|split]].
  - intros Herr. split; [apply download_image_error, Herr|].
    intros rest. cbn [for_each]. unfold bind at 1.
    rewrite download_image_error by exact Herr. reflexivity.
  - intros chunks st1 Hget Hw. unfold download_image. rewrite Hget.
    rewrite !bind_call. unfold bind. rewrite Hw. reflexivity.
  - apply returns_download_image.
  - intros e st'. unfold download_image.
    destruct (requests_get_stream img_url) as [|chunks complete].
    + discriminate.
    + intros H. split; [|eauto].
      rewrite !bind_call in H.
      unfold write_file, bind, get_disk, set_disk, raise in H.
      repeat (match type of H with context [if ?b then _ else _] =>
                destruct b end;
              try (injection H as <- _; reflexivity); try discriminate).
Qed.

(** C9, as amended. A call that has fetched its page goes on, after
    saving the text and the images, with the links of the page: it
    first resolves every link of the page, in document order, which
    gives [new_urls] unless [urljoin] raises a [ValueError] for one of
    them; then, for each link in this order that is not visited when its
    turn comes, the whole call of [scrape] on it with the depth plus one
    and the folder unchanged, and only then the next link. An exception
    raised on the way (for an image of the page, for a link that cannot
    be resolved, or in a call below) ends the loop, and the links that
    are left are not entered. Whatever the site, the calls entered by a
    call at [depth] are, in the order they are entered, the call itself
    followed by one walk after the other of depth [depth + 1], each walk
    of the same form; for the program as a whole this starts with the
    seed at depth 0. When the call returns normally, above the last
    level, every link of its page was visited before the call or has
    been entered by it. *)
Theorem recursion_is_preorder url depth base_folder st :
  (forall text,
     gated url depth st = false -> requests_get url = Some text ->
     scrape url depth base_folder st
     = (base <- enter url depth base_folder ;;
        call (Get url) ;;
        persist url depth base text ;;
        links <- resolve_links url (BeautifulSoup text) ;;
        visit_links links (S depth) base) st) /\
  (forall soup,
     (forall st0,
        resolve_links url soup st0
        = match bad_ref url "href" (find_all_with "a" "href" soup) with
          | Some ref => Raise (ValueError ref) st0
          | None => Ok (new_urls url soup) st0
          end) /\
     new_urls url soup
     = List.map (fun a => urljoin url (getitem a "href"))
                (find_all_with "a" "href" soup) /\
     find_all_with "a" "href" soup `sublist_of` soup) /\
  (exists st' tr,
     final (scrape url depth base_folder st) = Some st' /\
     calls st' = calls st ++ tr /\
     (entered tr = [] \/
      exists l, entered tr = (url, depth) :: l /\ forest (S depth) l)) /\
  (exists st',
     final (main url) = Some st' /\
     (entered (calls st') = [] \/
      exists l, entered (calls st') = (url, 0) :: l /\ forest 1 l)) /\
  (forall text st' tr link,
     gated url depth st = false -> requests_get url = Some text ->
     scrape url depth base_folder st = Ok tt st' ->
     calls st' = calls st ++ tr ->
     S depth < maxRekrusion ->
     link ∈ new_urls url (BeautifulSoup text) ->
     link ∈ visitedUrls st \/ link ∈ (entered tr).*1).
Proof.
  assert (Hwalk : forall u d b s,
    exists s', final (scrape u d b s) = Some s' /\ Walk u d s s').
  { intros u d b s. pose proof (scrape_Walk u d b s) as HW.
    pose proof (scrape_returns u d b s) as Hret. unfold wp_any, wp in HW.
    destruct (scrape u d b s) as [a s'|e s'|]; [| |contradiction];
      exists s'; split; auto. }
  split; [|split; [|split; [|split]]].
  - intros text G Hget. rewrite scrape_phases by exact G.
    apply bind_ext. intros base st2. apply bind_ext. intros _ st3.
    unfold fetched. rewrite Hget. apply bind_ext. intros _ st4.
    unfold follow. apply bind_ext. intros links st5.
    apply recurse_visit_links.
  - intros soup. split; [intros st0; apply resolve_links_eq|].
    split; [reflexivity|].
    unfold find_all_with. induction soup as [|t soup IH]; simpl; [constructor|].
    destruct (_ && _); constructor; exact IH.
  - destruct (Hwalk url depth base_folder st) as (st' & Hfin & tr & Hc & Htr).
    exists st', tr. auto.
  - destruct (Hwalk url 0 None initial) as (st' & Hfin & tr & Hc & Htr).
    exists st'. split; [exact Hfin|]. simpl in Hc. rewrite Hc. exact Htr.
  - intros text st' tr link G Hget Hok Hc Hd Hl.
    pose proof (scrape_follows_links url depth base_folder text st st'
                  G Hget Hok Hd link Hl) as Hin.
    pose proof (scrape_Run url depth base_folder st) as R.
    unfold wp_any, wp in R. rewrite Hok in R.
    destruct R as (tr0 & Hc0 & Hv & _).
    rewrite Hc in Hc0. apply app_inv_head in Hc0 as <-.
    rewrite Hv in Hin. apply elem_of_union in Hin as [Hin|Hin]; [left; exact Hin|].
    right. apply elem_of_list_to_set in Hin. exact Hin.
Qed.

(** C10. A call that passes the gate makes its folders before it
    fetches its page: when [enter] returns, the folder of the site and
    its [img] and [text] folders are directories, no file was touched,
    and the fetch comes next; when it is left by an exception, no fetch
    was issued. The folders are still there when the call ends. A call
    whose fetch fails leaves, on disk, exactly these directories (and
    those above them) added and every file as it was, and the disk as
    it was when they were there already; a call stopped at the gate
    leaves the state as it was. *)
Theorem folders_before_fetch url depth base_folder st :
  (gated url depth st = true -> scrape url depth base_folder st = Ok tt st) /\
  (gated url depth st = false ->
     scrape url depth base_folder st
     = (base <- enter url depth base_folder ;;
        call (Get url) ;;
        fetched scrape url depth base) st /\
     wp (enter url depth base_folder)
        (fun base st2 =>
           base = resolve_base url base_folder /\
           files (disk st2) = files (disk st) /\
           dirs (disk st2) = dirs (disk st) ∪ folders_made url base_folder /\
           calls st2 = calls st ++ Print (Scraping url depth)
                                   :: folder_calls url base_folder /\
           is_dir (disk st2) (Path.components base) = true /\
           is_dir (disk st2) (Path.components (img_folder base)) = true /\
           is_dir (disk st2) (Path.components (text_folder base)) = true)
        (fun e st2 =>
           exists mk, calls st2 = calls st ++ Print (Scraping url depth) :: mk /\
                      Forall is_makedirs mk)
        st /\
     (forall st' tr,
        final (scrape url depth base_folder st) = Some st' ->
        calls st' = calls st ++ tr -> Get url ∈ tr ->
        let base := resolve_base url base_folder in
        is_dir (disk st') (Path.components base) = true /\
        is_dir (disk st') (Path.components (img_folder base)) = true /\
        is_dir (disk st') (Path.components (text_folder base)) = true) /\
     (requests_get url = None ->
      forall st', scrape url depth base_folder st = Ok tt st' ->
        disk st' = mkFS (dirs (disk st) ∪ folders_made url base_folder)
                        (files (disk st)) /\
        (folders_made url base_folder ⊆ dirs (disk st) -> disk st' = disk st))).
Proof.
  split; [apply scrape_gated|]. intros G.
  split; [apply scrape_phases, G|].
  pose proof (make_folders_spec url base_folder (entered_state url depth st)) as Hmk.
  assert (Henter :
    wp (enter url depth base_folder)
       (fun base st2 =>
          base = resolve_base url base_folder /\
          files (disk st2) = files (disk st) /\
          dirs (disk st2) = dirs (disk st) ∪ folders_made url base_folder /\
          calls st2 = calls st ++ Print (Scraping url depth)
                                  :: folder_calls url base_folder /\
          is_dir (disk st2) (Path.components base) = true /\
          is_dir (disk st2) (Path.components (img_folder base)) = true /\
          is_dir (disk st2) (Path.components (text_folder base)) = true)
       (fun e st2 =>
          exists mk, calls st2 = calls st ++ Print (Scraping url depth) :: mk /\
                     Forall is_makedirs mk)
       st).
  { unfold wp in *. rewrite enter_eq.
    destruct (make_folders url base_folder (entered_state url depth st))
      as [base st2|e st2|]; [| |exact I].
    - destruct Hmk as (-> & Hv & Hf & Hd & Hc). simpl in Hf, Hd, Hc.
      split; [reflexivity|]. split; [exact Hf|]. split; [exact Hd|].
      split; [rewrite Hc, <- app_assoc; reflexivity|].
      apply folders_are_dirs. rewrite Hd. apply union_subseteq_r.
    - destruct Hmk as (_ & _ & _ & mk & Hc & Hmk). simpl in Hc.
      exists mk. split; [rewrite Hc, <- app_assoc; reflexivity|exact Hmk]. }
  split; [exact Henter|]. split.
  - intros st' tr Hfin Hc Hget base.
    rewrite scrape_phases in Hfin by exact G.
    unfold bind at 1 in Hfin. unfold wp in Henter.
    destruct (enter url depth base_folder st) as [b2 st2|e st2|];
      [|simpl in Hfin|discriminate].
    + destruct Henter as (-> & _ & Hd & _ & Hdirs). fold base in Hdirs.
      apply gated_false in G as [_ Hlt].
      pose proof (fetched_Run url depth base (add_call (Get url) st2) Hlt) as HR.
      unfold wp_any, wp in HR. unfold bind at 1 in Hfin.
      change (call (Get url) st2) with (Ok tt (add_call (Get url) st2)) in Hfin.
      lazy beta iota in Hfin. fold base in Hfin.
      assert (Hsub : dirs (disk st2) ⊆ dirs (disk st')).
      { destruct (fetched scrape url depth base (add_call (Get url) st2))
          as [a s|e s|]; try discriminate;
          injection Hfin as ->;
          destruct HR as (_ & _ & _ & [Hs _] & _); exact Hs. }
      destruct Hdirs as (H1 & H2 & H3).
      repeat split; eapply is_dir_mono; eauto.
    + injection Hfin as ->. destruct Henter as (mk & Hc' & Hall).
      rewrite Hc in Hc'. apply app_inv_head in Hc'. subst tr.
      apply elem_of_cons in Hget as [Hget|Hget]; [discriminate|].
      rewrite Forall_forall in Hall. destruct (Hall _ Hget).
  - intros Hfail st' Hok.
    destruct (failed_fetch_result url depth base_folder st G Hfail)
      as [(st2 & Hmf & Hres)|(e & st2 & Hmf & Hres)];
      [|rewrite Hres in Hok; discriminate].
    rewrite Hres in Hok. injection Hok as <-.
    unfold wp in Hmk. rewrite Hmf in Hmk.
    destruct Hmk as (_ & _ & Hf & Hd & _). simpl in *.
    destruct (disk st2) as [ds fs]. simpl in *. subst.
    split; [reflexivity|]. intros Hsub. destruct (disk st) as [ds fs]. simpl in *.
    f_equal. set_solver.
Qed.

End Proofs.

(** * Beyond the claims *)

Section Beyond.

Context {W : World}.

(** ** A tidy disk *)

Lemma wp_conj {A} (m : M A) Q1 Q2 E1 E2 st :
  wp m Q1 E1 st -> wp m Q2 E2 st ->
  wp m (fun a s => Q1 a s /\ Q2 a s) (fun e s => E1 e s /\ E2 e s) st.
Proof. unfold wp. destruct (m st); auto. Qed.

Lemma Tidy_initial base : Tidy base (disk initial).
Proof.
  split; simpl; intros cs H; [set_solver|].
  rewrite lookup_empty in H. destruct H; discriminate.
Qed.

(** On a tidy disk no file is in the way of a folder of [base]. *)
Lemma blocked_Tidy base d path :
  Tidy base d -> Fits path ->
  length (Path.components path) <= S (length (Path.components base)) ->
  blocked d path = false.
Proof.
  intros [_ Hf] Hfit Hlen. unfold blocked. rewrite Hfit. simpl.
  destruct (existsb _ _) eqn:He; [|reflexivity].
  apply existsb_exists in He as (p & Hp & Hfile).
  apply list_elem_of_In, elem_of_prefixes in Hp as [_ Hpre].
  apply prefix_length in Hpre.
  unfold is_file in Hfile. apply bool_decide_eq_true in Hfile.
  apply Hf in Hfile. lia.
Qed.

Lemma Tidy_makedirs base d path :
  Tidy base d ->
  length (Path.components path) <= S (length (Path.components base)) ->
  Tidy base (mkFS (dirs d ∪ made path) (files d)).
Proof.
  intros [Hd Hf] Hlen. split; [|exact Hf]. simpl. intros cs Hcs.
  apply elem_of_union in Hcs as [H|H]; [auto|].
  unfold made in H. apply elem_of_list_to_set, elem_of_prefixes in H as [_ Hp].
  apply prefix_length in Hp. lia.
Qed.

Lemma os_makedirs_Tidy base path st :
  Tidy base (disk st) -> Fits path ->
  length (Path.components path) <= S (length (Path.components base)) ->
  os_makedirs path st
  = Ok tt (mkState (visitedUrls st)
                   (mkFS (dirs (disk st) ∪ made path) (files (disk st)))
                   (calls st ++ [Makedirs path])).
Proof.
  intros T Hfit Hlen. rewrite os_makedirs_eq, (blocked_Tidy base) by assumption.
  reflexivity.
Qed.

Lemma Fits_img_folder base : Fits base -> Fits (img_folder base).
Proof.
  unfold Fits. rewrite components_img_folder, existsb_app. intros ->. reflexivity.
Qed.

Lemma Fits_text_folder base : Fits base -> Fits (text_folder base).
Proof.
  unfold Fits. rewrite components_text_folder, existsb_app. intros ->. reflexivity.
Qed.

Lemma length_img_folder base :
  length (Path.components (img_folder base)) = S (length (Path.components base)).
Proof. rewrite components_img_folder, length_app. simpl. lia. Qed.

Lemma length_text_folder base :
  length (Path.components (text_folder base)) = S (length (Path.components base)).
Proof. rewrite components_text_folder, length_app. simpl. lia. Qed.

(** On a tidy disk the folders of a call are always made. *)
Lemma make_folders_Tidy url b st :
  Ready url b (disk st) ->
  exists st2,
    make_folders url b st = Ok (resolve_base url b) st2 /\
    visitedUrls st2 = visitedUrls st /\
    files (disk st2) = files (disk st) /\
    dirs (disk st2) = dirs (disk st) ∪ folders_made url b /\
    calls st2 = calls st ++ folder_calls url b /\
    Tidy (resolve_base url b) (disk st2).
Proof.
  set (base := resolve_base url b). intros (T & Hfit & Hparse).
  pose proof (Fits_img_folder base Hfit) as Hfi.
  pose proof (Fits_text_folder base Hfit) as Hft.
  assert (Hfold : forall st0, Tidy base (disk st0) ->
    (os_makedirs (img_folder base) ;; os_makedirs (text_folder base) ;; ret base) st0
    = Ok base (mkState (visitedUrls st0)
                 (mkFS (dirs (disk st0) ∪ made (img_folder base)
                                         ∪ made (text_folder base))
                       (files (disk st0)))
                 (calls st0 ++ [Makedirs (img_folder base);
                                Makedirs (text_folder base)]))).
  { intros st0 T0. unfold bind.
    rewrite (os_makedirs_Tidy base) by (auto; rewrite length_img_folder; lia).
    rewrite (os_makedirs_Tidy base); simpl;
      [|apply Tidy_makedirs; [exact T0|rewrite length_img_folder; lia]
       |exact Hft
       |rewrite length_text_folder; lia].
    rewrite <- app_assoc. reflexivity. }
  assert (Hfinal : forall d, Tidy base d ->
    Tidy base (mkFS (dirs d ∪ made (img_folder base) ∪ made (text_folder base))
                    (files d))).
  { intros d Td.
    refine (Tidy_makedirs base (mkFS (dirs d ∪ made (img_folder base)) (files d))
              (text_folder base) _ _);
      [|rewrite length_text_folder; lia].
    apply Tidy_makedirs; [exact Td|rewrite length_img_folder; lia]. }
  unfold make_folders, folders_made, folder_calls. fold base.
  destruct b as [b|].
  - rewrite bind_ret, Hfold by exact T. eexists. split; [reflexivity|]. simpl.
    split; [reflexivity|]. split; [reflexivity|].
    split; [set_solver|]. split; [reflexivity|]. apply Hfinal, T.
  - rewrite (bind_cong _ (os_makedirs base ;; ret base))
      by (rewrite get_domain_folder_eq, Hparse; reflexivity).
    rewrite bind_assoc. unfold bind at 1.
    rewrite (os_makedirs_Tidy base) by (auto; lia).
    rewrite bind_ret, Hfold by (apply Tidy_makedirs; [exact T|lia]).
    eexists. split; [reflexivity|]. simpl.
    split; [reflexivity|]. split; [reflexivity|].
    split; [set_solver|]. split; [rewrite <- app_assoc; reflexivity|].
    refine (Hfinal (mkFS (dirs (disk st) ∪ made base) (files (disk st))) _).
    apply Tidy_makedirs; [exact T|lia].
Qed.

Lemma Tidy_insert base d cs content :
  Tidy base d -> length cs = S (S (length (Path.components base))) ->
  Tidy base (mkFS (dirs d) (<[cs := content]> (files d))).
Proof.
  intros [Hd Hf] Hlen. split; [exact Hd|]. simpl. intros cs' H.
  apply lookup_insert_is_Some in H as [<-|[_ H]]; auto.
Qed.

Lemma Tidy_free base d cs :
  Tidy base d -> length cs = S (S (length (Path.components base))) ->
  cs ∉ dirs d.
Proof. intros [Hd _] Hlen H. apply Hd in H. lia. Qed.

Lemma is_dir_elem d cs : cs ∈ dirs d -> is_dir d cs = true.
Proof.
  intros H. unfold is_dir. rewrite (bool_decide_eq_true_2 _ H). apply orb_true_r.
Qed.

Lemma length_in_folder base folder (n : string) :
  length (Path.components folder) = S (length (Path.components base)) ->
  length (Path.components folder ++ [n]) = S (S (length (Path.components base))).
Proof. intros H. rewrite length_app, H. simpl. lia. Qed.

(** On a tidy disk the text of a page is always saved. *)
Lemma save_text_Tidy base depth content st :
  depth < maxRekrusion ->
  Tidy base (disk st) -> Path.components (text_folder base) ∈ dirs (disk st) ->
  save_text content (page_filename base depth) st
  = Ok tt (mkState (visitedUrls st)
             (mkFS (dirs (disk st))
                   (<[Path.components (text_folder base) ++ [page_name depth]
                      := content]> (files (disk st))))
             (calls st ++ [OpenText (page_filename base depth)])).
Proof.
  intros Hd T Hin. unfold save_text. rewrite bind_call.
  change (page_filename base depth)
    with (Path.join (text_folder base) (page_name depth)).
  rewrite write_file_succeeds;
    [reflexivity|apply page_name_no_slash|apply page_name_usable, Hd| |].
  - apply is_dir_elem, Hin.
  - apply (Tidy_free base); [exact T|].
    apply length_in_folder, length_text_folder.
Qed.

(** On a tidy disk [download_image] is left by an [OSError] exactly
    when the GET is answered and the URL gives no usable name. *)
Lemma download_image_Tidy_eq base u st :
  Tidy base (disk st) -> Path.components (img_folder base) ∈ dirs (disk st) ->
  download_image u (img_folder base) st
  = match requests_get_stream u with
    | ImageError =>
        Ok tt (add_call (Print (FailedImage u)) (add_call (GetStream u) st))
    | ImageBody chunks complete =>
        let img_path := Path.join (img_folder base) (image_name u) in
        if names_no_file (image_name u) then
          Raise (OSError img_path)
                (add_call (OpenBinary img_path) (add_call (GetStream u) st))
        else
          Ok tt (mkState (visitedUrls st)
                   (mkFS (dirs (disk st))
                         (<[Path.components (img_folder base) ++ [image_name u]
                            := Str.join "" chunks]> (files (disk st))))
                   (calls st ++ [GetStream u; OpenBinary img_path;
                                 Print (if complete
                                        then DownloadedImage (image_name u)
                                        else FailedImage u)]))
    end.
Proof.
  intros T Hin. unfold download_image. rewrite bind_call.
  destruct (requests_get_stream u) as [|chunks complete]; [reflexivity|].
  rewrite bind_call. cbv zeta. unfold bind.
  destruct (names_no_file (image_name u)) eqn:Hname.
  - rewrite write_file_no_name; [reflexivity|apply image_name_no_slash|exact Hname].
  - rewrite write_file_succeeds;
      [|apply image_name_no_slash|exact Hname|apply is_dir_elem, Hin
       |apply (Tidy_free base); [exact T|apply length_in_folder, length_img_folder]].
    destruct complete; unfold print, call, add_call; simpl;
      rewrite <- !app_assoc; reflexivity.
Qed.

Lemma Images_refl base st : Images base st st.
Proof. exists []. rewrite app_nil_r. auto. Qed.

Lemma Images_trans base st1 st2 st3 :
  Images base st1 st2 -> Images base st2 st3 -> Images base st1 st3.
Proof.
  intros (tr1 & Hc1 & H1) (tr2 & Hc2 & H2). exists (tr1 ++ tr2).
  rewrite Hc2, Hc1, <- app_assoc. split; [reflexivity|].
  intros n Hn Hne. rewrite H2, H1, streams_app by assumption.
  unfold saved_image. now rewrite foldl_app.
Qed.

(** A step that fetches no image and leaves the image files alone. *)
Lemma Images_same base st st' tr :
  calls st' = calls st ++ tr -> streams tr = [] ->
  (forall n, files (disk st') !! (Path.components (img_folder base) ++ [n])
             = files (disk st) !! (Path.components (img_folder base) ++ [n])) ->
  Images base st st'.
Proof.
  intros Hc Hs Hf. exists tr. split; [exact Hc|]. intros n _ _.
  rewrite Hs, Hf. reflexivity.
Qed.

Lemma name_in_folder_inj (cs : list string) (n m : string) :
  cs ++ [n] = cs ++ [m] -> n = m.
Proof. intros H. apply app_inv_head in H. congruence. Qed.

(** One image, on a tidy disk with its [img] folder. *)
Lemma download_image_step base page soup u st :
  bad_ref page "src" (find_all_with "img" "src" soup) = None ->
  u ∈ img_urls page soup ->
  Tidy base (disk st) -> Path.components (img_folder base) ∈ dirs (disk st) ->
  wp (download_image u (img_folder base))
     (fun _ st' => Tidy base (disk st') /\ dirs (disk st') = dirs (disk st) /\
                   Images base st st')
     (fun e st' => page_error base page soup e /\
                   Tidy base (disk st') /\ dirs (disk st') = dirs (disk st) /\
                   Images base st st') st.
Proof.
  intros Hsrc Hu T Hin. unfold wp.
  rewrite (download_image_Tidy_eq base u st T Hin).
  destruct (requests_get_stream u) as [|chunks complete] eqn:Hs.
  { split; [exact T|]. split; [reflexivity|].
    exists [GetStream u; Print (FailedImage u)].
    split; [simpl; rewrite <- app_assoc; reflexivity|].
    intros n _ _. unfold saved_image. simpl. rewrite Hs. reflexivity. }
  cbv zeta. destruct (names_no_file (image_name u)) eqn:Hname.
  - split; [eapply bad_image_name; eassumption|].
    split; [exact T|]. split; [reflexivity|].
    exists [GetStream u; OpenBinary (Path.join (img_folder base) (image_name u))].
    split; [simpl; rewrite <- app_assoc; reflexivity|].
    intros n _ _. unfold saved_image. simpl. rewrite Hs.
    destruct (String.eqb_spec (image_name u) n) as [<-|_]; [|reflexivity].
    rewrite Hname. reflexivity.
  - split; [apply Tidy_insert;
            [exact T|apply length_in_folder, length_img_folder]|].
    split; [reflexivity|].
    eexists. split; [reflexivity|].
    intros n _ _. unfold saved_image. simpl. destruct complete; simpl;
      rewrite Hs; (destruct (String.eqb_spec (image_name u) n) as [<-|Hne];
        [rewrite Hname; apply lookup_insert_eq
        |apply lookup_insert_ne; intros H; apply Hne;
         exact (name_in_folder_inj _ _ _ H)]).
Qed.

(** The images of a page. *)
Lemma images_Tidy base page soup imgs st :
  bad_ref page "src" (find_all_with "img" "src" soup) = None ->
  (forall u, u ∈ imgs -> u ∈ img_urls page soup) ->
  Tidy base (disk st) -> Path.components (img_folder base) ∈ dirs (disk st) ->
  wp (for_each imgs (fun u => download_image u (img_folder base)))
     (fun _ st' => Tidy base (disk st') /\ dirs (disk st') = dirs (disk st) /\
                   Images base st st')
     (fun e st' => page_error base page soup e /\
                   Tidy base (disk st') /\ dirs (disk st') = dirs (disk st) /\
                   Images base st st') st.
Proof.
  intros Hget Himgs T Hin.
  apply (wp_for_each
           (fun s => Tidy base (disk s) /\ dirs (disk s) = dirs (disk st) /\
                     Images base st s)).
  { split; [exact T|]. split; [reflexivity|apply Images_refl]. }
  intros u s Hu (Ts & Hds & Is).
  eapply wp_mono;
    [apply (download_image_step base page soup u s Hget (Himgs u Hu) Ts);
     rewrite Hds; exact Hin| |].
  - intros a s' (T' & Hd' & I'). split; [exact T'|].
    split; [rewrite Hd'; exact Hds|eapply Images_trans; eassumption].
  - intros e s' (U & T' & Hd' & I'). split; [exact U|]. split; [exact T'|].
    split; [rewrite Hd'; exact Hds|eapply Images_trans; eassumption].
Qed.

(** The text and the images of a page, on a tidy disk with its folders. *)
Lemma persist_Tidy url depth base text st :
  depth < maxRekrusion ->
  Tidy base (disk st) ->
  Path.components (img_folder base) ∈ dirs (disk st) ->
  Path.components (text_folder base) ∈ dirs (disk st) ->
  wp (persist url depth base text)
     (fun _ st' => Tidy base (disk st') /\ dirs (disk st') = dirs (disk st) /\
                   Images base st st')
     (fun e st' => page_error base url (BeautifulSoup text) e /\
                   Tidy base (disk st') /\ dirs (disk st') = dirs (disk st) /\
                   Images base st st') st.
Proof.
  intros Hd T Hi Ht. unfold persist. apply wp_bind. unfold wp at 1.
  rewrite (save_text_Tidy base depth _ st Hd T Ht).
  match goal with |- wp _ _ _ ?s => set (st1 := s) end.
  assert (T1 : Tidy base (disk st1)).
  { apply Tidy_insert; [exact T|apply length_in_folder, length_text_folder]. }
  assert (I1 : Images base st st1).
  { apply (Images_same base st st1 [OpenText (page_filename base depth)]);
      [reflexivity|reflexivity|].
    intros n. simpl. apply lookup_insert_ne.
    rewrite components_img_folder, components_text_folder, <- !app_assoc.
    intros H. apply app_inv_head in H. discriminate H. }
  apply wp_bind. unfold wp at 1. rewrite resolve_imgs_eq.
  destruct (bad_ref url "src" _) as [ref|] eqn:Hsrc.
  { split; [apply bad_src, Hsrc|]. split; [exact T1|]. split; [reflexivity|exact I1]. }
  eapply wp_mono;
    [apply (images_Tidy base url _ _ st1 Hsrc (fun u H => H) T1 Hi)| |].
  - intros a s' (T' & Hd' & I'). split; [exact T'|].
    split; [exact Hd'|eapply Images_trans; eassumption].
  - intros e s' (U & T' & Hd' & I'). split; [exact U|]. split; [exact T'|].
    split; [exact Hd'|eapply Images_trans; eassumption].
Qed.

Lemma wp_any_forall {A B} (m : M A) (R : B -> State -> Prop) st :
  (forall b, wp_any m (R b) st) -> wp_any m (fun st' => forall b, R b st') st.
Proof. unfold wp_any, wp. intros H. revert H. destruct (m st); auto. Qed.

(** The images of a page leave the text files as they are. *)
Lemma images_keep_texts base imgs st :
  wp_any (for_each imgs (fun u => download_image u (img_folder base)))
    (fun st' => forall d,
       files (disk st') !! Path.components (page_filename base d)
       = files (disk st) !! Path.components (page_filename base d)) st.
Proof.
  apply wp_any_forall. intros d.
  eapply wp_any_mono;
    [apply (writes_for_each base (S d)); intros u; apply writes_download_image|].
  intros st' Wr.
  destruct (Wr (Path.components (page_filename base d))) as [E|A]; [exact E|].
  destruct (page_file_not_deeper base d A).
Qed.

(** On a tidy disk, however [persist] ends, the text of the page is in
    the text file of its depth, and the other text files are as they
    were. *)
Lemma persist_texts url depth base text st :
  depth < maxRekrusion ->
  Tidy base (disk st) -> Path.components (text_folder base) ∈ dirs (disk st) ->
  wp_any (persist url depth base text)
    (fun st' => forall d,
       files (disk st') !! Path.components (page_filename base d)
       = if decide (d = depth) then Some (page_text (BeautifulSoup text))
         else files (disk st) !! Path.components (page_filename base d)) st.
Proof.
  intros Hd T Ht. unfold persist. apply wp_any_bind. unfold wp at 1.
  rewrite (save_text_Tidy base depth _ st Hd T Ht).
  match goal with |- wp_any _ _ ?s => set (st1 := s) end.
  assert (H1 : forall d,
    files (disk st1) !! Path.components (page_filename base d)
    = if decide (d = depth) then Some (page_text (BeautifulSoup text))
      else files (disk st) !! Path.components (page_filename base d)).
  { intros d. simpl.
    rewrite components_text_folder, <- app_assoc, components_page_filename.
    simpl app. destruct (decide (d = depth)) as [->|Hne].
    - apply lookup_insert_eq.
    - rewrite lookup_insert_ne; [reflexivity|].
      intros H'. apply app_inv_head in H'. apply Hne. symmetry.
      apply page_name_inj. congruence. }
  apply wp_any_bind. unfold wp at 1. rewrite resolve_imgs_eq.
  destruct (bad_ref url "src" _) as [ref|]; [exact H1|].
  eapply wp_any_mono; [apply images_keep_texts|].
  intros st' H d. rewrite H. apply H1.
Qed.

Lemma Crashed_extend base e st st1 st2 :
  (exists tr, calls st1 = calls st ++ tr) ->
  Crashed base e st1 st2 -> Crashed base e st st2.
Proof.
  intros (tr0 & Hc0) (tr & page & text & Hc & Hin & Hget & He).
  exists (tr0 ++ tr), page, text.
  split; [rewrite Hc, Hc0, <- app_assoc; reflexivity|].
  split; [apply elem_of_app; right; exact Hin|]. auto.
Qed.

Lemma Fetches_refl st : Fetches st st.
Proof. exists []. rewrite app_nil_r. auto. Qed.

Lemma Fetches_trans st1 st2 st3 :
  Fetches st1 st2 -> Fetches st2 st3 -> Fetches st1 st3.
Proof.
  intros (tr1 & Hc1 & H1) (tr2 & Hc2 & H2). exists (tr1 ++ tr2).
  rewrite Hc2, Hc1, <- app_assoc, entered_app, gets_app, fmap_app, H1, H2.
  auto.
Qed.

Lemma entered_folder_calls url b :
  entered (folder_calls url b) = [] /\ gets (folder_calls url b) = [] /\
  streams (folder_calls url b) = [].
Proof. destruct b; auto. Qed.

Lemma Texts_refl base st : Texts base st st.
Proof. exists []. rewrite app_nil_r. auto. Qed.

Lemma Texts_trans base st1 st2 st3 :
  Texts base st1 st2 -> Texts base st2 st3 -> Texts base st1 st3.
Proof.
  intros (tr1 & Hc1 & H1) (tr2 & Hc2 & H2). exists (tr1 ++ tr2).
  rewrite Hc2, Hc1, <- app_assoc. split; [reflexivity|].
  intros d. rewrite H2, H1, entered_app. unfold saved_text.
  now rewrite foldl_app.
Qed.

(** The text files after one page was announced and nothing below it. *)
Lemma Texts_page base url depth st st' tr :
  calls st' = calls st ++ tr -> entered tr = [(url, depth)] ->
  (forall d,
     files (disk st') !! Path.components (page_filename base d)
     = match requests_get url with
       | Some text => if decide (d = depth)
                      then Some (page_text (BeautifulSoup text))
                      else files (disk st) !! Path.components (page_filename base d)
       | None => files (disk st) !! Path.components (page_filename base d)
       end) ->
  Texts base st st'.
Proof.
  intros Hc He Hf. exists tr. split; [exact Hc|]. intros d.
  rewrite Hf, He. unfold saved_text. simpl.
  destruct (requests_get url) as [text|].
  - destruct (decide (d = depth)) as [->|Hne].
    + now rewrite Nat.eqb_refl.
    + destruct (Nat.eqb_spec depth d) as [->|_]; [contradiction|reflexivity].
  - now destruct (depth =? d)%nat.
Qed.

Lemma Kept_refl base st : Tidy base (disk st) -> Kept base st st.
Proof.
  intros T. split; [exact T|]. split; [reflexivity|]. split; [set_solver|].
  split; [apply Fetches_refl|]. split; [apply Texts_refl|apply Images_refl].
Qed.

Lemma Kept_trans base st1 st2 st3 :
  Kept base st1 st2 -> Kept base st2 st3 -> Kept base st1 st3.
Proof.
  intros (_ & Hs1 & Hu1 & F1 & X1 & I1) (T2 & Hs2 & Hu2 & F2 & X2 & I2).
  split; [exact T2|]. split; [etrans; eassumption|]. split; [set_solver|].
  split; [eapply Fetches_trans; eassumption|].
  split; [eapply Texts_trans|eapply Images_trans]; eassumption.
Qed.

Lemma folders_made_sub url b :
  folders_made url b
  ⊆ made (resolve_base url b) ∪ made (img_folder (resolve_base url b))
      ∪ made (text_folder (resolve_base url b)).
Proof. unfold folders_made. destruct b; simpl; set_solver. Qed.

(** From a tidy disk, a call of [scrape] whose folders can be made
    makes every folder and saves every text: it fetches every page it
    announces, the text files and the image files hold what these pages
    and their images leave in them, and only a page it has fetched can
    end it by an exception: by a reference [urljoin] raises for, or by
    an image whose URL gives no usable name. *)
Lemma scrape_Tidy url depth b st :
  Ready url b (disk st) ->
  wp (scrape url depth b)
     (fun _ st' => Kept (resolve_base url b) st st')
     (fun e st' => Crashed (resolve_base url b) e st st' /\
                   Kept (resolve_base url b) st st') st.
Proof.
  revert url depth b st.
  apply (scrape_ind (fun url depth b st r =>
    Ready url b (disk st) ->
    match r with
    | Ok _ st' => Kept (resolve_base url b) st st'
    | Raise e st' => Crashed (resolve_base url b) e st st' /\
                     Kept (resolve_base url b) st st'
    | OutOfFuel => True
    end)); [|exact (fun _ _ _ _ _ => I)].
  intros self IH url depth b st Rdy.
  pose proof Rdy as (T & Hfit & _).
  destruct (gated url depth st) eqn:G.
  { rewrite scrape_body_gated by exact G. apply Kept_refl, T. }
  rewrite scrape_body_phases by exact G.
  apply gated_false in G as [_ Hd].
  set (B := resolve_base url b) in *.
  destruct (make_folders_Tidy url b (entered_state url depth st) Rdy)
    as (st2 & Hmf & _ & Hf2 & Hd2 & Hc2 & T2). fold B in Hmf, T2.
  unfold bind at 1. rewrite enter_eq, Hmf, bind_call.
  set (st3 := add_call (Get url) st2).
  assert (Hi : Path.components (img_folder B) ∈ dirs (disk st3)).
  { assert (Hm : Path.components (img_folder B) ∈ made (img_folder B)).
    { apply components_in_made. rewrite components_img_folder.
      intros H. apply app_eq_nil in H as [_ H]. discriminate. }
    change (disk st3) with (disk st2). rewrite Hd2.
    unfold folders_made. fold B. set_solver. }
  assert (Ht : Path.components (text_folder B) ∈ dirs (disk st3)).
  { assert (Hm : Path.components (text_folder B) ∈ made (text_folder B)).
    { apply components_in_made. rewrite components_text_folder.
      intros H. apply app_eq_nil in H as [_ H]. discriminate. }
    change (disk st3) with (disk st2). rewrite Hd2.
    unfold folders_made. fold B. set_solver. }
  assert (Hd3 : dirs (disk st3) = dirs (disk st) ∪ folders_made url b).
  { exact Hd2. }
  assert (Hc3 : calls st3 = calls st ++ Print (Scraping url depth)
                                     :: folder_calls url b ++ [Get url]).
  { simpl. rewrite Hc2. simpl. rewrite <- !app_assoc. reflexivity. }
  destruct (entered_folder_calls url b) as (Hfe & Hfg & Hfs).
  assert (He3 : entered (Print (Scraping url depth)
                           :: folder_calls url b ++ [Get url])
                = [(url, depth)]).
  { rewrite entered_cons, entered_app, Hfe. reflexivity. }
  assert (Hg3 : gets (Print (Scraping url depth)
                        :: folder_calls url b ++ [Get url]) = [url]).
  { rewrite gets_cons, gets_app, Hfg. reflexivity. }
  assert (Hs3 : streams (Print (Scraping url depth)
                           :: folder_calls url b ++ [Get url]) = []).
  { change (Print (Scraping url depth) :: folder_calls url b ++ [Get url])
      with ([Print (Scraping url depth)] ++ folder_calls url b ++ [Get url]).
    rewrite !streams_app, Hfs. reflexivity. }
  (* the state once the page is fetched and saved, or not fetched *)
  assert (K4 : forall st4,
    Frame B depth st3 st4 ->
    Tidy B (disk st4) -> dirs (disk st4) = dirs (disk st3) ->
    Images B st3 st4 ->
    (forall d,
       files (disk st4) !! Path.components (page_filename B d)
       = match requests_get url with
         | Some text => if decide (d = depth)
                        then Some (page_text (BeautifulSoup text))
                        else files (disk st3) !! Path.components (page_filename B d)
         | None => files (disk st3) !! Path.components (page_filename B d)
         end) ->
    Kept B st st4).
  { intros st4 (_ & _ & tr4 & Hc4 & _ & Hg4 & He4) T4 Hd4 I4 Hf4.
    split; [exact T4|]. rewrite Hd4, Hd3.
    split; [apply union_subseteq_l|].
    split; [pose proof (folders_made_sub url b) as Hsub; fold B in Hsub;
            set_solver|].
    split.
    { exists ((Print (Scraping url depth) :: folder_calls url b ++ [Get url]) ++ tr4).
      rewrite Hc4, Hc3, <- app_assoc. split; [reflexivity|].
      rewrite entered_app, gets_app, He3, Hg3, He4, Hg4. reflexivity. }
    split.
    { apply (Texts_page B url depth st st4
               ((Print (Scraping url depth) :: folder_calls url b ++ [Get url])
                  ++ tr4)).
      - rewrite Hc4, Hc3, <- app_assoc. reflexivity.
      - rewrite entered_app, He3, He4. reflexivity.
      - intros d. rewrite Hf4. change (disk st3) with (disk st2).
        rewrite Hf2. reflexivity. }
    eapply Images_trans; [|exact I4].
    apply (Images_same B st st3 _ Hc3 Hs3). intros n.
    change (disk st3) with (disk st2). rewrite Hf2. reflexivity. }
  (* an exception of the page fetched from [url] *)
  assert (C4 : forall text e st4,
    requests_get url = Some text ->
    (exists tr, calls st4 = calls st3 ++ tr) ->
    page_error B url (BeautifulSoup text) e -> Crashed B e st st4).
  { intros text e st4 Hget (tr4 & Hc4) He.
    exists ((Print (Scraping url depth) :: folder_calls url b ++ [Get url]) ++ tr4),
           url, text.
    split; [rewrite Hc4, Hc3, <- app_assoc; reflexivity|].
    split; [|auto]. apply elem_of_app. left.
    apply elem_of_cons. right. apply elem_of_app. right. apply list_elem_of_singleton.
    reflexivity. }
  unfold fetched. destruct (requests_get url) as [text|] eqn:Hget.
  - apply (wp_bind (persist url depth B text)).
    eapply wp_mono;
      [apply wp_conj;
         [apply wp_conj;
            [apply (persist_Tidy url depth B text st3 Hd T2 Hi Ht)
            |apply (frames_persist url depth B text Hd st3)]
         |apply (persist_texts url depth B text st3 Hd T2 Ht)]| |].
    2:{ intros e st4 [[(U & T4 & Hd4 & I4) F4] X]. split.
        - apply (C4 text e st4 eq_refl); [|exact U].
          destruct F4 as (_ & _ & tr4 & Hc4 & _). eauto.
        - apply (K4 st4 F4 T4 Hd4 I4 X). }
    intros a st4 [[(T4 & Hd4 & I4) F4] X].
    pose proof (K4 st4 F4 T4 Hd4 I4 X) as Kst4.
    unfold follow. apply wp_bind. unfold wp at 1. rewrite resolve_links_eq.
    destruct (bad_ref url "href" _) as [ref|] eqn:Href.
    { split; [|exact Kst4].
      apply (C4 text _ st4 eq_refl); [|apply bad_href, Href].
      destruct F4 as (_ & _ & tr4 & Hc4 & _). eauto. }
    apply (wp_for_each (fun s => Kept B st s)); [exact Kst4|].
    intros link s _ Ks. apply wp_bind. unfold wp at 1. simpl.
    destruct (bool_decide _); [exact Ks|].
    assert (Rs : Ready link (Some B) (disk s)).
    { split; [exact (proj1 Ks)|]. split; [exact Hfit|discriminate]. }
    specialize (IH link (S depth) (Some B) s Rs). unfold wp.
    destruct (self link (S depth) (Some B) s) as [x s'|e s'|]; [| |exact I].
    + eapply Kept_trans; eassumption.
    + destruct IH as [U K']. split; [|eapply Kept_trans; eassumption].
      apply (Crashed_extend B e st s s'); [|exact U].
      destruct Ks as (_ & _ & _ & (tr & Hc & _) & _). eauto.
  - unfold wp. simpl. fold st3.
    apply (K4 (add_call (Print (FailedRetrieve url)) st3)).
    + apply (frames_call B depth (Print (FailedRetrieve url))); simpl; auto.
    + exact T2.
    + reflexivity.
    + apply (Images_same B st3 _ [Print (FailedRetrieve url)]);
        [reflexivity|reflexivity|]. intros n. reflexivity.
    + intros d. reflexivity.
Qed.

Lemma no_file_empty ds l : existsb (is_file (mkFS ds ∅)) l = false.
Proof.
  induction l as [|cs l IH]; [reflexivity|]. simpl. rewrite IH.
  unfold is_file. simpl. rewrite lookup_empty. reflexivity.
Qed.

(** A program whose seed cannot be parsed, or has a folder that cannot
    be made, ends before its first fetch, whatever directories there
    are. *)
Lemma seed_error_run url e ds :
  seed_error url = Some e ->
  scrape url 0 None (mkState ∅ (mkFS ds ∅) [])
  = Raise e (mkState {[url]}
                     (mkFS (ds ∪ dirs (disk (seed_failed url))) ∅)
                     (calls (seed_failed url))).
Proof.
  unfold seed_error, seed_failed. intros He.
  rewrite scrape_phases by (unfold gated; rewrite maxRekrusion_eq; reflexivity).
  unfold bind at 1. rewrite enter_eq. unfold make_folders.
  unfold bind at 1. unfold bind at 1. rewrite get_domain_folder_eq.
  destruct (urlparse_raises url).
  { injection He as <-. unfold entered_state. simpl.
    do 2 f_equal; [set_solver|]. f_equal. set_solver. }
  destruct (existsb name_too_long _) eqn:Hl; [|discriminate].
  injection He as <-. unfold bind at 1. rewrite os_makedirs_eq.
  unfold blocked, half_made. rewrite Hl. simpl. rewrite no_file_empty.
  do 2 f_equal. set_solver.
Qed.

Lemma main_seed_error url e :
  seed_error url = Some e -> main url = Raise e (seed_failed url).
Proof.
  intros He. unfold main, initial. rewrite (seed_error_run url e ∅ He).
  f_equal. destruct (seed_failed url) as [v [d f] c] eqn:E. simpl.
  assert (Hv : v = {[url]} /\ f = ∅).
  { unfold seed_failed in E. destruct (urlparse_raises url);
      injection E as <- <- <- <-; auto. }
  destruct Hv as [-> ->]. do 2 f_equal. set_solver.
Qed.

(** Otherwise the first call is ready. *)
Lemma seed_Ready url : seed_error url = None -> Ready url None (disk initial).
Proof.
  unfold seed_error. intros He.
  destruct (urlparse_raises url) eqn:Hp; [discriminate|].
  destruct (existsb name_too_long _) eqn:Hl; [discriminate|].
  split; [apply Tidy_initial|]. split; [exact Hl|]. intros _. exact Hp.
Qed.

(** ** Two runs from two tidy disks *)

Lemma Same_refl st1 st2 :
  visitedUrls st1 = visitedUrls st2 -> Same st1 st2 st1 st2.
Proof. intros Hv. split; [exact Hv|]. exists []. now rewrite !app_nil_r. Qed.

Lemma Same_Alike st1 st2 s1 s2 r1 r2 :
  Same st1 st2 s1 s2 -> Alike s1 s2 r1 r2 -> Alike st1 st2 r1 r2.
Proof.
  intros (_ & tr & Hc1 & Hc2).
  assert (H : forall t1 t2, Same s1 s2 t1 t2 -> Same st1 st2 t1 t2).
  { intros t1 t2 (Hv & tr' & Hd1 & Hd2). split; [exact Hv|].
    exists (tr ++ tr'). rewrite Hd1, Hd2, Hc1, Hc2, <- !app_assoc. auto. }
  destruct r1 as [x1 t1|e1 t1|], r2 as [x2 t2|e2 t2|]; simpl; auto.
  intros [He HS]. auto.
Qed.

(** The images of a page are fetched alike from two tidy disks. *)
Lemma images_alike base imgs st1 st2 :
  visitedUrls st1 = visitedUrls st2 ->
  Tidy base (disk st1) -> Path.components (img_folder base) ∈ dirs (disk st1) ->
  Tidy base (disk st2) -> Path.components (img_folder base) ∈ dirs (disk st2) ->
  Alike st1 st2
    (for_each imgs (fun u => download_image u (img_folder base)) st1)
    (for_each imgs (fun u => download_image u (img_folder base)) st2).
Proof.
  revert st1 st2.
  induction imgs as [|u imgs IH]; intros st1 st2 Hv T1 H1 T2 H2; cbn [for_each].
  { apply Same_refl, Hv. }
  unfold bind.
  rewrite (download_image_Tidy_eq base u st1 T1 H1),
          (download_image_Tidy_eq base u st2 T2 H2).
  destruct (requests_get_stream u) as [|chunks complete].
  { eapply Same_Alike; [|apply IH; simpl; assumption].
    split; [exact Hv|]. exists [GetStream u; Print (FailedImage u)].
    simpl. rewrite <- !app_assoc. auto. }
  cbv zeta. destruct (names_no_file (image_name u)).
  - split; [reflexivity|]. split; [exact Hv|].
    exists [GetStream u; OpenBinary (Path.join (img_folder base) (image_name u))].
    simpl. rewrite <- !app_assoc. auto.
  - eapply Same_Alike.
    2:{ apply IH; simpl; try assumption;
          (apply Tidy_insert;
             [assumption|apply length_in_folder, length_img_folder]). }
    split; [exact Hv|]. eexists. simpl. split; reflexivity.
Qed.

Lemma persist_alike url depth base text st1 st2 :
  depth < maxRekrusion ->
  visitedUrls st1 = visitedUrls st2 ->
  Tidy base (disk st1) -> Path.components (img_folder base) ∈ dirs (disk st1) ->
  Path.components (text_folder base) ∈ dirs (disk st1) ->
  Tidy base (disk st2) -> Path.components (img_folder base) ∈ dirs (disk st2) ->
  Path.components (text_folder base) ∈ dirs (disk st2) ->
  Alike st1 st2 (persist url depth base text st1) (persist url depth base text st2).
Proof.
  intros Hd Hv T1 Hi1 Ht1 T2 Hi2 Ht2. unfold persist, bind.
  rewrite (save_text_Tidy base depth _ st1 Hd T1 Ht1),
          (save_text_Tidy base depth _ st2 Hd T2 Ht2).
  rewrite !resolve_imgs_eq.
  destruct (bad_ref url "src" _) as [ref|].
  { split; [reflexivity|]. split; [exact Hv|]. eexists. simpl. split; reflexivity. }
  eapply Same_Alike.
  2:{ apply images_alike; simpl; try assumption;
        (apply Tidy_insert;
           [assumption|apply length_in_folder, length_text_folder]). }
  split; [exact Hv|]. eexists. simpl. split; reflexivity.
Qed.

Lemma Ready_link link base d : Tidy base d -> Fits base -> Ready link (Some base) d.
Proof. intros T Hfit. split; [exact T|]. split; [exact Hfit|discriminate]. Qed.

(** Past the gate and on a tidy disk, a call is what follows the fetch
    of its page, in the state in which its folders are made. *)
Lemma scrape_Tidy_phases url depth b st :
  gated url depth st = false ->
  Ready url b (disk st) ->
  exists st3,
    scrape url depth b st = fetched scrape url depth (resolve_base url b) st3 /\
    visitedUrls st3 = {[url]} ∪ visitedUrls st /\
    calls st3 = calls st ++ Print (Scraping url depth)
                            :: folder_calls url b ++ [Get url] /\
    files (disk st3) = files (disk st) /\
    dirs (disk st3) = dirs (disk st) ∪ folders_made url b /\
    Tidy (resolve_base url b) (disk st3) /\
    Path.components (img_folder (resolve_base url b)) ∈ dirs (disk st3) /\
    Path.components (text_folder (resolve_base url b)) ∈ dirs (disk st3).
Proof.
  intros G T. set (B := resolve_base url b) in *.
  destruct (make_folders_Tidy url b (entered_state url depth st) T)
    as (st2 & Hmf & Hv2 & Hf2 & Hd2 & Hc2 & T2). fold B in Hmf, T2.
  exists (add_call (Get url) st2).
  split.
  { rewrite scrape_phases by exact G. unfold bind at 1.
    rewrite enter_eq, Hmf, bind_call. reflexivity. }
  split; [exact Hv2|].
  split; [simpl; rewrite Hc2; simpl; rewrite <- !app_assoc; reflexivity|].
  split; [exact Hf2|]. split; [exact Hd2|]. split; [exact T2|].
  simpl. rewrite Hd2. unfold folders_made. fold B. split.
  - assert (Hm : Path.components (img_folder B) ∈ made (img_folder B)).
    { apply components_in_made. rewrite components_img_folder.
      intros H. apply app_eq_nil in H as [_ H]. discriminate. }
    set_solver.
  - assert (Hm : Path.components (text_folder B) ∈ made (text_folder B)).
    { apply components_in_made. rewrite components_text_folder.
      intros H. apply app_eq_nil in H as [_ H]. discriminate. }
    set_solver.
Qed.

Lemma gated_alike url depth st1 st2 :
  visitedUrls st1 = visitedUrls st2 -> gated url depth st1 = gated url depth st2.
Proof. unfold gated. now intros ->. Qed.

(** From two tidy disks and one visited set, [scrape] makes the same
    calls and ends alike. *)
Lemma scrape_alike url depth b st1 st2 :
  visitedUrls st1 = visitedUrls st2 ->
  Ready url b (disk st1) -> Ready url b (disk st2) ->
  Alike st1 st2 (scrape url depth b st1) (scrape url depth b st2).
Proof.
  remember (maxRekrusion - depth) as k eqn:Hk.
  revert url depth b st1 st2 Hk.
  induction k as [k IH] using lt_wf_ind. intros url depth b st1 st2 Hk Hv T1 T2.
  pose proof T1 as (_ & Hfit & _).
  destruct (gated url depth st1) eqn:G1.
  { rewrite !scrape_gated; [apply Same_refl, Hv|
      rewrite <- (gated_alike url depth st1 st2 Hv); exact G1|exact G1]. }
  assert (G2 : gated url depth st2 = false)
    by (rewrite <- (gated_alike url depth st1 st2 Hv); exact G1).
  set (B := resolve_base url b) in *.
  destruct (scrape_Tidy_phases url depth b st1 G1 T1)
    as (s1 & -> & Hv1 & Hc1 & _ & _ & Ts1 & Hi1 & Ht1).
  destruct (scrape_Tidy_phases url depth b st2 G2 T2)
    as (s2 & -> & Hv2 & Hc2 & _ & _ & Ts2 & Hi2 & Ht2).
  fold B in Ts1, Hi1, Ht1, Ts2, Hi2, Ht2 |- *.
  apply gated_false in G1 as [_ Hd].
  assert (Hvs : visitedUrls s1 = visitedUrls s2) by (rewrite Hv1, Hv2, Hv; reflexivity).
  eapply Same_Alike; [split; [exact Hvs|eexists; split; eassumption]|].
  unfold fetched. destruct (requests_get url) as [text|] eqn:Hget.
  2:{ split; [exact Hvs|]. exists [Print (FailedRetrieve url)]. auto. }
  unfold bind.
  pose proof (persist_alike url depth B text s1 s2 Hd Hvs Ts1 Hi1 Ht1 Ts2 Hi2 Ht2) as HA.
  pose proof (persist_Tidy url depth B text s1 Hd Ts1 Hi1 Ht1) as HP1.
  pose proof (persist_Tidy url depth B text s2 Hd Ts2 Hi2 Ht2) as HP2.
  unfold wp in HP1, HP2.
  destruct (persist url depth B text s1) as [x1 t1|e1 t1|],
           (persist url depth B text s2) as [x2 t2|e2 t2|];
    simpl in HA; try contradiction; try exact HA.
  eapply Same_Alike; [exact HA|].
  destruct HA as [Hvt _]. destruct HP1 as [Tt1 _], HP2 as [Tt2 _].
  unfold follow, bind. rewrite !resolve_links_eq.
  destruct (bad_ref url "href" _) as [ref|].
  { split; [reflexivity|]. apply Same_refl, Hvt. }
  clear - IH Hk Hd Hvt Tt1 Tt2 Hfit.
  (* the loop over the links *)
  generalize (new_urls url (BeautifulSoup text)). intros links.
  revert t1 t2 Hvt Tt1 Tt2.
  induction links as [|link rest IHl]; intros t1 t2 Hvt Tt1 Tt2.
  { apply Same_refl, Hvt. }
  destruct (decide (link ∈ visitedUrls t1)) as [Hin|Hnin].
  - rewrite !recurse_skip; [apply IHl; assumption|rewrite <- Hvt; exact Hin|exact Hin].
  - rewrite !recurse_cons; [|rewrite <- Hvt; exact Hnin|exact Hnin]. unfold bind.
    assert (HA : Alike t1 t2 (scrape link (S depth) (Some B) t1)
                             (scrape link (S depth) (Some B) t2)).
    { apply (IH (maxRekrusion - S depth)); [lia|reflexivity|exact Hvt| |];
        apply Ready_link; assumption. }
    pose proof (scrape_Tidy link (S depth) (Some B) t1
                  (Ready_link link B _ Tt1 Hfit)) as HK1.
    pose proof (scrape_Tidy link (S depth) (Some B) t2
                  (Ready_link link B _ Tt2 Hfit)) as HK2.
    unfold wp in HK1, HK2.
    destruct (scrape link (S depth) (Some B) t1) as [x1 u1|e1 u1|],
             (scrape link (S depth) (Some B) t2) as [x2 u2|e2 u2|];
      simpl in HA; try contradiction; try exact HA.
    eapply Same_Alike; [exact HA|].
    apply IHl; [exact (proj1 HA)|exact (proj1 HK1)|exact (proj1 HK2)].
Qed.

(** ** What a run leaves on disk *)

Lemma saved_text_last d pages old :
  saved_text d pages old
  = match saved_text d pages None with Some t => Some t | None => old end.
Proof.
  unfold saved_text. revert old.
  induction pages as [|p pages IH]; intros old; [reflexivity|]. cbn [foldl].
  match goal with |- foldl ?f _ _ = _ => set (step := f) in * end.
  match goal with
  | |- foldl _ ?a _ = match foldl _ ?b _ with _ => _ end =>
      rewrite (IH a), (IH b)
  end.
  destruct (foldl step None pages); [reflexivity|].
  destruct (p.2 =? d)%nat; [destruct (requests_get p.1)|]; reflexivity.
Qed.

Lemma saved_image_last n imgs old :
  saved_image n imgs old
  = match saved_image n imgs None with Some t => Some t | None => old end.
Proof.
  unfold saved_image. revert old.
  induction imgs as [|u imgs IH]; intros old; [reflexivity|]. cbn [foldl].
  match goal with |- foldl ?f _ _ = _ => set (step := f) in * end.
  match goal with
  | |- foldl _ ?a _ = match foldl _ ?b _ with _ => _ end =>
      rewrite (IH a), (IH b)
  end.
  destruct (foldl step None imgs); [reflexivity|].
  destruct (requests_get_stream u); [reflexivity|].
  destruct (_ && _); reflexivity.
Qed.

(** The folders of a call that passed the gate are there at its end. *)
Lemma scrape_Tidy_folders url depth b st st' :
  gated url depth st = false ->
  Ready url b (disk st) ->
  final (scrape url depth b st) = Some st' ->
  folders_made url b ⊆ dirs (disk st').
Proof.
  intros G T Hfin.
  destruct (scrape_Tidy_phases url depth b st G T)
    as (st3 & E & _ & _ & _ & Hd3 & _). rewrite E in Hfin.
  apply gated_false in G as [_ Hd].
  pose proof (fetched_Run url depth (resolve_base url b) st3 Hd) as HR.
  unfold wp_any, wp in HR.
  assert (R : Run (resolve_base url b) depth st3 st').
  { destruct (fetched scrape url depth (resolve_base url b) st3);
      simpl in Hfin; [| |discriminate]; injection Hfin as <-; exact HR. }
  destruct R as (_ & _ & _ & [Hsub _] & _).
  etrans; [|exact Hsub]. rewrite Hd3. apply union_subseteq_r.
Qed.

(** A second run, in a new process, on the disk a first run from the
    empty directory has left: when both have made the same calls, the
    second leaves the state the first has left. *)
Lemma rerun_state base st1 st2 :
  Kept base initial st1 ->
  Kept base (mkState ∅ (disk st1) []) st2 ->
  Writes base 0 (mkState ∅ (disk st1) []) st2 ->
  Same initial (mkState ∅ (disk st1) []) st1 st2 ->
  made base ∪ made (img_folder base) ∪ made (text_folder base) ⊆ dirs (disk st1) ->
  st2 = st1.
Proof.
  intros (T1 & _ & _ & _ & (tx1 & Hx1 & X1) & (ti1 & Hi1 & I1))
         (T2 & Hs2 & Hu2 & _ & (tx2 & Hx2 & X2) & (ti2 & Hi2 & I2))
         W2 (Hv & tr & Hc1 & Hc2) Hlow.
  simpl in *. subst tx1 ti1 tx2 ti2 tr.
  assert (Hd : dirs (disk st2) = dirs (disk st1)) by set_solver.
  assert (Hf : files (disk st2) = files (disk st1)).
  { apply map_eq. intros cs.
    destruct (W2 cs) as [E|[(d & _ & ->)|(u & ->)]]; [exact E| |].
    - rewrite X2, X1, Hc2, lookup_empty, (saved_text_last d _ (saved_text _ _ _)).
      destruct (saved_text d (entered (calls st1)) None); reflexivity.
    - destruct (Str.nonempty (image_name u)) eqn:Hne.
      + rewrite components_join_name by (auto using image_name_no_slash).
        rewrite I2, I1, Hc2, lookup_empty by (auto using image_name_no_slash).
        rewrite (saved_image_last _ _ (saved_image _ _ _)).
        destruct (saved_image (image_name u) (streams (calls st1)) None);
          reflexivity.
      + destruct (image_name u); [|discriminate Hne].
        rewrite components_join by reflexivity.
        change (Path.components "") with (@nil string). rewrite app_nil_r.
        assert (Hnone : forall d0, Tidy base d0 ->
                  files d0 !! Path.components (img_folder base) = None).
        { intros d0 [_ Hfd]. apply eq_None_not_Some. intros H.
          apply Hfd in H. rewrite length_img_folder in H. lia. }
        rewrite !Hnone by assumption. reflexivity. }
  destruct st1 as [v1 [d1 f1] c1], st2 as [v2 [d2 f2] c2]. simpl in *.
  congruence.
Qed.

(** ** The image fetches of a page *)

Lemma write_file_calls path content st :
  wp_any (write_file path content) (fun st' => calls st' = calls st) st.
Proof.
  unfold wp_any, wp, write_file, bind, get_disk, set_disk, raise.
  repeat (match goal with |- context [if ?b then _ else _] => destruct b end;
          simpl; try reflexivity).
Qed.

(** Every call of [download_image] issues one GET, however it ends. *)
Lemma download_image_streams u folder st :
  wp_any (download_image u folder)
         (fun st' => exists tr, calls st' = calls st ++ tr /\ streams tr = [u]) st.
Proof.
  unfold wp_any, wp, download_image. rewrite bind_call.
  destruct (requests_get_stream u) as [|chunks complete].
  { simpl. exists [GetStream u; Print (FailedImage u)].
    rewrite <- app_assoc. auto. }
  rewrite bind_call. unfold bind.
  match goal with |- context [write_file ?p ?c ?s] =>
    pose proof (write_file_calls p c s) as Hw; unfold wp_any, wp in Hw;
    destruct (write_file p c s) as [x s1|e s1|]
  end; [| |exact I].
  - destruct complete; simpl; rewrite Hw; simpl; rewrite <- !app_assoc;
      eexists; (split; [reflexivity|reflexivity]).
  - rewrite Hw. simpl. rewrite <- !app_assoc.
    eexists; (split; [reflexivity|reflexivity]).
Qed.

Lemma for_each_streams folder imgs st :
  wp (for_each imgs (fun u => download_image u folder))
     (fun _ st' => exists tr, calls st' = calls st ++ tr /\ streams tr = imgs)
     (fun _ st' => exists tr, calls st' = calls st ++ tr /\
                              streams tr `prefix_of` imgs) st.
Proof.
  revert st. induction imgs as [|u imgs IH]; intros st; cbn [for_each].
  { exists []. rewrite app_nil_r. auto. }
  apply wp_bind.
  eapply wp_mono; [apply download_image_streams| |].
  - intros a s1 (tr1 & Hc1 & H1).
    eapply wp_mono; [apply IH| |].
    + intros a' s2 (tr2 & Hc2 & H2). exists (tr1 ++ tr2).
      rewrite Hc2, Hc1, <- app_assoc, streams_app, H1, H2. auto.
    + intros e s2 (tr2 & Hc2 & H2). exists (tr1 ++ tr2).
      rewrite Hc2, Hc1, <- app_assoc, streams_app, H1.
      split; [reflexivity|]. now apply prefix_cons.
  - intros e s1 (tr1 & Hc1 & H1). exists tr1. rewrite H1.
    split; [exact Hc1|]. exists imgs. reflexivity.
Qed.

(** ** The announcement comes first *)

Lemma announced_first_quiet tr : gets tr = [] -> announced_first tr.
Proof.
  intros Hg tr1 u tr2 ->. rewrite gets_app, gets_cons in Hg.
  apply app_eq_nil in Hg as [_ Hg]. discriminate Hg.
Qed.

Lemma announced_first_app tr tr' :
  announced_first tr -> announced_first tr' -> announced_first (tr ++ tr').
Proof.
  intros H H' tr1 u tr2 E.
  apply app_eq_inv in E as [(k & Ht & E)|(k & -> & E)].
  - destruct k as [|c k]; simpl in E.
    + destruct (H' [] u tr2 (eq_sym E)) as (d & Hd). inversion Hd.
    + injection E as <- _. exact (H tr1 u k Ht).
  - destruct (H' k u tr2 E) as (d & Hd). exists d.
    apply elem_of_app. right. exact Hd.
Qed.

(** A call that passed the gate announces its page, makes its folders
    and fetches it. *)
Lemma announced_first_enter u d mk :
  gets mk = [] -> announced_first (Print (Scraping u d) :: mk ++ [Get u]).
Proof.
  intros Hg tr1 v tr2 E. exists d.
  assert (Hv : gets (Print (Scraping u d) :: mk ++ [Get u]) = [u]).
  { rewrite gets_cons, gets_app, Hg. reflexivity. }
  assert (Hin : v ∈ gets (Print (Scraping u d) :: mk ++ [Get u])).
  { apply gets_elem. rewrite E. apply elem_of_app. right. left. }
  rewrite Hv in Hin. apply list_elem_of_singleton in Hin as ->.
  destruct tr1 as [|c tr1]; [discriminate E|].
  injection E as <- _. apply elem_of_cons. left. reflexivity.
Qed.

Lemma Announces_refl st : Announces st st.
Proof.
  exists []. rewrite app_nil_r. split; [reflexivity|].
  now apply announced_first_quiet.
Qed.

Lemma Announces_trans st1 st2 st3 :
  Announces st1 st2 -> Announces st2 st3 -> Announces st1 st3.
Proof.
  intros (tr1 & Hc1 & H1) (tr2 & Hc2 & H2). exists (tr1 ++ tr2).
  rewrite Hc2, Hc1, <- app_assoc. split; [reflexivity|].
  apply announced_first_app; assumption.
Qed.

Lemma Frame_Announces base depth st st' :
  Frame base depth st st' -> Announces st st'.
Proof.
  intros (_ & _ & tr & Hc & _ & Hg & _). exists tr.
  split; [exact Hc|apply announced_first_quiet, Hg].
Qed.

(** In every call, a page is fetched only after it was announced. *)
Lemma scrape_Announces url depth b st :
  wp_any (scrape url depth b) (Announces st) st.
Proof.
  revert url depth b st.
  apply (scrape_ind (fun url depth b st r =>
    match r with
    | Ok _ st' | Raise _ st' => Announces st st'
    | OutOfFuel => True
    end)); [|exact (fun _ _ _ _ => I)].
  intros self IH url depth b st.
  destruct (gated url depth st) eqn:G.
  { rewrite scrape_body_gated by exact G. apply Announces_refl. }
  rewrite scrape_body_phases by exact G.
  apply gated_false in G as [_ Hd].
  set (B := resolve_base url b).
  pose proof (wp_enter url depth b st) as He. unfold wp in He.
  unfold bind at 1.
  destruct (enter url depth b st) as [base st2|e st2|]; [| |exact I].
  2:{ destruct He as (_ & _ & tr2 & Hc2 & _ & Hg2 & _). simpl in Hc2.
      exists (Print (Scraping url depth) :: tr2).
      split; [rewrite Hc2, <- app_assoc; reflexivity|].
      apply announced_first_quiet. rewrite gets_cons, Hg2. reflexivity. }
  destruct He as [-> (_ & _ & tr2 & Hc2 & _ & Hg2 & _)]. fold B.
  simpl in Hc2. rewrite bind_call.
  set (st3 := add_call (Get url) st2).
  assert (Hnode : forall st5, Announces st3 st5 -> Announces st st5).
  { intros st5 (tr5 & Hc5 & H5).
    exists ((Print (Scraping url depth) :: tr2 ++ [Get url]) ++ tr5).
    split; [rewrite Hc5; simpl; rewrite Hc2, <- !app_assoc; reflexivity|].
    apply announced_first_app; [apply announced_first_enter, Hg2|exact H5]. }
  assert (Hrest : wp_any (fetched self url depth B) (Announces st3) st3).
  { unfold fetched. destruct (requests_get url) as [text|].
    - apply wp_any_bind.
      eapply wp_mono; [apply (frames_persist url depth B text Hd)| |].
      2:{ intros e st4 F4. eapply Frame_Announces, F4. }
      intros x st4 F4. unfold follow. apply wp_any_bind.
      eapply wp_mono; [apply (frames_resolve_links B depth url)| |].
      2:{ intros e st5 F5. eapply Announces_trans;
          [eapply Frame_Announces; exact F4|eapply Frame_Announces; exact F5]. }
      intros links st5 F5.
      assert (A5 : Announces st3 st5).
      { eapply Announces_trans;
          [eapply Frame_Announces; exact F4|eapply Frame_Announces; exact F5]. }
      apply (wp_for_each (Announces st3)); [exact A5|].
      intros link s _ As. apply wp_bind. unfold wp at 1. simpl.
      destruct (bool_decide _); [exact As|].
      specialize (IH link (S depth) (Some B) s). unfold wp.
      destruct (self link (S depth) (Some B) s) as [y s'|e s'|]; [| |exact I];
        eapply Announces_trans; eassumption.
    - eapply wp_any_mono;
        [apply (frames_call B depth (Print (FailedRetrieve url))); simpl; auto|].
      intros st4. apply Frame_Announces. }
  unfold wp_any, wp in Hrest |- *.
  destruct (fetched self url depth B st3) as [y st5|e st5|]; [| |exact I];
    apply Hnode, Hrest.
Qed.

(** ** Further properties of the program *)




(** X4. The visited set at the end of a call is exactly the visited
    set at its start and the URLs the call and the calls below it
    announced. No URL is announced twice, none that was visited at the
    start, and a page is fetched only after it was announced: every
    fetch in the record of the call comes after an announcement of its
    URL. *)
Theorem visited_set_is_what_was_announced url depth base_folder st :
  exists st' tr,
    final (scrape url depth base_folder st) = Some st' /\
    calls st' = calls st ++ tr /\
    visitedUrls st' = visitedUrls st ∪ list_to_set (entered tr).*1 /\
    NoDup (entered tr).*1 /\
    (forall u d, Print (Scraping u d) ∈ tr -> u ∉ visitedUrls st) /\
    (forall tr1 u tr2,
       tr = tr1 ++ Get u :: tr2 -> exists d, Print (Scraping u d) ∈ tr1).
Proof.
  destruct (scrape_final url depth base_folder st)
    as (st' & Hfin & tr & Hc & Hv & _ & _ & He & Hnew & _ & Hg).
  exists st', tr. repeat (split; [assumption|]). split.
  - intros u d Hp. apply Hnew. apply entered_elem in Hp.
    apply list_elem_of_fmap. exists (u, d). auto.
  - pose proof (scrape_Announces url depth base_folder st) as HA.
    unfold wp_any, wp in HA.
    assert (A : Announces st st').
    { destruct (scrape url depth base_folder st) as [x s|e s|];
        simpl in Hfin; [| |discriminate]; injection Hfin as ->; exact HA. }
    destruct A as (tr' & Hc' & HA'). rewrite Hc in Hc'.
    apply app_inv_head in Hc' as <-. exact HA'.
Qed.

(** X5. When a call that fetched its page returns normally, the text
    file of the page holds the text of the page: neither the images of
    the page nor the pages below it, which are saved under other depths,
    have overwritten it. *)
Theorem page_text_is_on_disk url depth base_folder text st st' :
  gated url depth st = false ->
  requests_get url = Some text ->
  scrape url depth base_folder st = Ok tt st' ->
  files (disk st')
    !! Path.components (page_filename (resolve_base url base_folder) depth)
  = Some (page_text (BeautifulSoup text)).
Proof. apply scrape_saves_text. Qed.

(** X6. When a call returns normally, the links of every page it or a
    call below it announced and fetched, above the last level, are in
    the visited set: each was visited before or has been entered. *)
Theorem links_of_fetched_pages_are_visited
    url depth base_folder st st' tr page d text link :
  scrape url depth base_folder st = Ok tt st' ->
  calls st' = calls st ++ tr ->
  Print (Scraping page d) ∈ tr ->
  S d < maxRekrusion ->
  requests_get page = Some text ->
  link ∈ new_urls page (BeautifulSoup text) ->
  link ∈ visitedUrls st'.
Proof.
  intros Hok Hc Hp Hd Hget Hl.
  pose proof (scrape_Covers url depth base_folder st) as H.
  unfold wp in H. rewrite Hok in H.
  destruct H as [(tr0 & Hc0 & _ & Hcl) _].
  rewrite Hc in Hc0. apply app_inv_head in Hc0 as <-.
  eapply Hcl; eassumption.
Qed.

(** X7. [get_domain_folder] is idempotent: when it returns, its result
    is the folder of the site, which is a directory from then on, no
    file was touched, and a second call returns the same folder and
    leaves the disk as it is. *)
Theorem get_domain_folder_idempotent url st base st1 :
  get_domain_folder url st = Ok base st1 ->
  base = site_root url /\
  is_dir (disk st1) (Path.components base) = true /\
  files (disk st1) = files (disk st) /\
  visitedUrls st1 = visitedUrls st /\
  get_domain_folder url st1 = Ok base (add_call (Makedirs base) st1).
Proof.
  rewrite !get_domain_folder_eq.
  destruct (urlparse_raises url); [discriminate|].
  unfold bind. rewrite !os_makedirs_eq.
  destruct (blocked (disk st) (site_root url)) eqn:Hb; [discriminate|].
  intros H. injection H as <- <-. simpl.
  split; [reflexivity|]. split.
  { unfold is_dir. simpl.
    destruct (Path.components (site_root url)) as [|c cs] eqn:Hcs;
      [reflexivity|].
    apply orb_true_iff. right. apply bool_decide_eq_true.
    apply elem_of_union_r. rewrite <- Hcs. apply components_in_made.
    rewrite Hcs. discriminate. }
  split; [reflexivity|]. split; [reflexivity|].
  unfold blocked in *. simpl. unfold is_file in *. simpl. rewrite Hb.
  unfold add_call. simpl. do 2 f_equal. f_equal. set_solver.
Qed.

(** X8. An image whose GET is answered but whose URL gives no usable
    file name (its path ends in ['/'], or its last segment is ["."] or
    [".."], or the name is longer than [NAME_MAX] bytes) makes
    [download_image] raise an [OSError], in every state and for every
    folder; nothing is written. *)
Theorem image_without_name_raises img_url folder_path chunks complete st :
  requests_get_stream img_url = ImageBody chunks complete ->
  Str.ends_with "/" (Str.split_head "?" img_url) = true \/
  names_no_file (image_name img_url) = true ->
  download_image img_url folder_path st
  = Raise (OSError (Path.join folder_path (image_name img_url)))
          (add_call (OpenBinary (Path.join folder_path (image_name img_url)))
                    (add_call (GetStream img_url) st)).
Proof.
  intros Hs Hbad.
  assert (Hname : names_no_file (image_name img_url) = true).
  { destruct Hbad as [He|H]; [|exact H].
    unfold image_name. rewrite basename_ends_with_sep by exact He. reflexivity. }
  unfold download_image. rewrite Hs, !bind_call. unfold bind.
  rewrite write_file_no_name; [reflexivity|apply image_name_no_slash|exact Hname].
Qed.

(** X9. In the file system as it is modelled here (a file opens when
    its folder exists, its name is not empty, ["."] or [".."] and has
    at most [NAME_MAX] bytes, and no directory has its path), an image
    whose GET is answered and whose URL gives a usable name is always
    stored when the folder exists and no directory has the name of the
    file: the file holds the chunks received, whatever it held before,
    also when the body broke off; nothing else on disk and nothing of
    the visited set changes. *)
Theorem download_image_stores_body img_url folder_path chunks complete st :
  requests_get_stream img_url = ImageBody chunks complete ->
  names_no_file (image_name img_url) = false ->
  is_dir (disk st) (Path.components folder_path) = true ->
  Path.components folder_path ++ [image_name img_url] ∉ dirs (disk st) ->
  exists st',
    download_image img_url folder_path st = Ok tt st' /\
    Path.components (Path.join folder_path (image_name img_url))
    = Path.components folder_path ++ [image_name img_url] /\
    files (disk st')
    = <[Path.components folder_path ++ [image_name img_url] := Str.join "" chunks]>
        (files (disk st)) /\
    dirs (disk st') = dirs (disk st) /\
    visitedUrls st' = visitedUrls st /\
    calls st'
    = calls st ++ [GetStream img_url;
                   OpenBinary (Path.join folder_path (image_name img_url));
                   Print (if complete then DownloadedImage (image_name img_url)
                          else FailedImage img_url)].
Proof.
  intros Hs Hok Hdir Hfree.
  unfold download_image. rewrite Hs, !bind_call. unfold bind.
  rewrite write_file_succeeds;
    [|apply image_name_no_slash|exact Hok|exact Hdir|exact Hfree].
  rewrite components_join_name;
    [|apply image_name_no_slash|apply names_no_file_nonempty, Hok].
  destruct complete; eexists; (split; [reflexivity|]); simpl;
    rewrite <- !app_assoc; auto.
Qed.

(** X10. The images of a page are fetched once for each [img] element
    with a [src], in document order, an image that occurs twice being
    fetched twice: when the page has been saved, the image fetches made
    are the image URLs of the page; when an exception ends it (the
    [OSError] of an image, or the [ValueError] of a [src], which is
    raised before the first image is fetched), they are the first of
    these URLs. *)
Theorem images_fetched_in_document_order url depth base text st :
  (forall st', persist url depth base text st = Ok tt st' ->
     exists tr, calls st' = calls st ++ tr /\
                streams tr = img_urls url (BeautifulSoup text)) /\
  (forall e st', persist url depth base text st = Raise e st' ->
     exists tr, calls st' = calls st ++ tr /\
                streams tr `prefix_of` img_urls url (BeautifulSoup text)) /\
  img_urls url (BeautifulSoup text)
  = List.map (fun img_tag => urljoin url (getitem img_tag "src"))
             (find_all_with "img" "src" (BeautifulSoup text)).
Proof.
  assert (H : wp (persist url depth base text)
     (fun _ st' => exists tr, calls st' = calls st ++ tr /\
                              streams tr = img_urls url (BeautifulSoup text))
     (fun _ st' => exists tr, calls st' = calls st ++ tr /\
                              streams tr `prefix_of` img_urls url (BeautifulSoup text))
     st).
  { unfold persist, save_text. apply wp_bind. unfold wp at 1.
    rewrite bind_call.
    match goal with |- context [write_file ?p ?c ?s] =>
      pose proof (write_file_calls p c s) as Hw; unfold wp_any, wp in Hw;
      destruct (write_file p c s) as [x s1|e s1|]
    end; [| |exact I].
    - apply wp_bind. unfold wp at 1. rewrite resolve_imgs_eq.
      destruct (bad_ref url "src" _) as [ref|].
      { exists [OpenText (page_filename base depth)]. rewrite Hw. simpl.
        split; [reflexivity|]. apply prefix_nil. }
      eapply wp_mono; [apply for_each_streams| |].
      + intros a s2 (tr & Hc & Ht). exists (OpenText (page_filename base depth) :: tr).
        rewrite Hc, Hw. simpl. rewrite <- app_assoc. auto.
      + intros e s2 (tr & Hc & Ht). exists (OpenText (page_filename base depth) :: tr).
        rewrite Hc, Hw. simpl. rewrite <- app_assoc. auto.
    - exists [OpenText (page_filename base depth)]. rewrite Hw. simpl.
      split; [reflexivity|]. apply prefix_nil. }
  unfold wp in H. split; [|split; [|reflexivity]].
  - intros st' E. rewrite E in H. exact H.
  - intros e st' E. rewrite E in H. exact H.
Qed.

(** X11. The text files of two depths are two files, and no image is
    stored in the file of a text: only pages of the same depth share a
    text file. *)
Theorem page_files_differ_by_depth base d d' :
  (Path.components (page_filename base d) = Path.components (page_filename base d')
   <-> d = d') /\
  (page_filename base d = page_filename base d' <-> d = d') /\
  (forall img_url,
     Path.components (page_filename base d)
     <> Path.components (Path.join (img_folder base) (image_name img_url))) /\
  Path.components (page_filename base d)
  = Path.components base ++ ["text"; "page_" +:+ Str.of_nat d +:+ ".txt"].
Proof.
  assert (Hc : Path.components (page_filename base d)
               = Path.components (page_filename base d') -> d = d').
  { rewrite !components_page_filename. intros H. apply app_inv_head in H.
    apply page_name_inj. congruence. }
  split; [split; [exact Hc|intros ->; reflexivity]|].
  split; [split; [intros H; apply Hc; now rewrite H|intros ->; reflexivity]|].
  split; [|apply components_page_filename].
  intros u H. rewrite components_page_filename in H.
  rewrite components_join in H by apply image_name_relative.
  rewrite components_img_folder, <- app_assoc in H.
  apply app_inv_head in H. discriminate H.
Qed.

(** X12. At the last level, the depth [maxRekrusion - 1], a page is
    fetched and saved like any other and its links are resolved, which
    can raise a [ValueError] as at any level, but none of them is
    followed: the loop over the links leaves the state as it is. *)
Theorem last_level_follows_no_link url depth base_folder st :
  maxRekrusion <= S depth ->
  (forall base links st0, recurse scrape depth base links st0 = Ok tt st0) /\
  (gated url depth st = false ->
   scrape url depth base_folder st
   = (base <- enter url depth base_folder ;;
      call (Get url) ;;
      match requests_get url with
      | None => print (FailedRetrieve url)
      | Some text =>
          persist url depth base text ;;
          links <- resolve_links url (BeautifulSoup text) ;;
          ret tt
      end) st).
Proof.
  intros Hmax.
  assert (Hloop : forall base links st0,
            recurse scrape depth base links st0 = Ok tt st0).
  { intros base links. induction links as [|link rest IH]; intros st0;
      [reflexivity|].
    destruct (decide (link ∈ visitedUrls st0)) as [Hv|Hnv].
    - rewrite recurse_skip by exact Hv. apply IH.
    - rewrite recurse_cons by exact Hnv. unfold bind.
      rewrite scrape_gated by (apply gated_true; right; exact Hmax). apply IH. }
  split; [exact Hloop|]. intros G. rewrite scrape_phases by exact G.
  apply bind_ext. intros base st2. apply bind_ext. intros _ st3.
  unfold fetched. destruct (requests_get url) as [text|]; [|reflexivity].
  apply bind_ext. intros _ st4. unfold follow. apply bind_ext.
  intros links st5. apply Hloop.
Qed.

(** X13. At the end of a run of the program whose seed can be parsed
    and whose folder can be made, however the run ends, the text file
    of each depth holds the text of the last page that was announced at
    this depth and could be fetched; there is no such file for a depth
    at which no page was fetched. A run that is ended before its first
    fetch leaves no file at all. *)
Theorem text_files_hold_last_page_of_depth url :
  exists st',
    final (main url) = Some st' /\
    match seed_error url with
    | None =>
        forall d,
          files (disk st') !! Path.components (page_filename (site_root url) d)
          = saved_text d (entered (calls st')) None
    | Some e => main url = Raise e st' /\ files (disk st') = ∅
    end.
Proof.
  destruct (seed_error url) as [e|] eqn:Hs.
  { exists (seed_failed url). rewrite (main_seed_error url e Hs).
    split; [reflexivity|]. split; [reflexivity|].
    unfold seed_failed. destruct (urlparse_raises url); reflexivity. }
  pose proof (scrape_Tidy url 0 None initial (seed_Ready url Hs)) as H.
  pose proof (scrape_returns url 0 None initial) as Hret.
  unfold wp in H. unfold main.
  assert (HX : forall st', Texts (site_root url) initial st' ->
                 forall d,
                   files (disk st') !! Path.components (page_filename (site_root url) d)
                   = saved_text d (entered (calls st')) None).
  { intros st' (tr & Hc & HX) d. simpl in Hc. rewrite Hc, HX. simpl.
    now rewrite lookup_empty. }
  destruct (scrape url 0 None initial) as [x st'|e st'|]; [| |contradiction];
    exists st'; (split; [reflexivity|]); apply HX, H.
Qed.

(** X14. At the end of a run of the program, however it ends, the
    file [img/<n>] of the seed's folder holds the body of the last image
    that is stored under the name [n] and whose GET was answered (what
    was received of it, when the body broke off), and there is no such
    file when there was no such image. Every file on disk is the text
    file of some depth or the file of some image. *)
Theorem image_files_hold_last_image_of_name url :
  exists st',
    final (main url) = Some st' /\
    (forall n, Str.contains "/" n = false -> Str.nonempty n = true ->
       files (disk st') !! Path.components (Path.join (img_folder (site_root url)) n)
       = saved_image n (streams (calls st')) None) /\
    (forall cs, is_Some (files (disk st') !! cs) ->
       (exists d, cs = Path.components (page_filename (site_root url) d)) \/
       (exists img_url,
          cs = Path.components (Path.join (img_folder (site_root url))
                                          (image_name img_url)))).
Proof.
  destruct (seed_error url) as [e|] eqn:Hs.
  { exists (seed_failed url). rewrite (main_seed_error url e Hs).
    split; [reflexivity|].
    assert (Hf : files (disk (seed_failed url)) = ∅)
      by (unfold seed_failed; destruct (urlparse_raises url); reflexivity).
    assert (Hst : streams (calls (seed_failed url)) = [])
      by (unfold seed_failed; destruct (urlparse_raises url); reflexivity).
    rewrite Hf, Hst. split.
    - intros n _ _. apply lookup_empty.
    - intros cs Hcs. rewrite lookup_empty in Hcs. destruct Hcs; discriminate. }
  pose proof (scrape_Tidy url 0 None initial (seed_Ready url Hs)) as H.
  pose proof (scrape_Writes url 0 None initial) as HW.
  pose proof (scrape_returns url 0 None initial) as Hret.
  unfold wp in H. unfold wp_any, wp in HW. unfold main.
  assert (HX : forall st',
            Kept (site_root url) initial st' ->
            Writes (site_root url) 0 initial st' ->
            (forall n, Str.contains "/" n = false -> Str.nonempty n = true ->
               files (disk st')
                 !! Path.components (Path.join (img_folder (site_root url)) n)
               = saved_image n (streams (calls st')) None) /\
            (forall cs, is_Some (files (disk st') !! cs) ->
               (exists d, cs = Path.components (page_filename (site_root url) d)) \/
               (exists img_url,
                  cs = Path.components (Path.join (img_folder (site_root url))
                                                  (image_name img_url))))).
  { intros st' (_ & _ & _ & _ & _ & (tr & Hc & HI)) Wr. simpl in Hc. split.
    - intros n Hn Hne. rewrite components_join_name by assumption.
      rewrite HI, Hc by assumption. simpl. now rewrite lookup_empty.
    - intros cs Hcs. destruct (Wr cs) as [E|[(d & _ & ->)|(u & ->)]]; eauto.
      rewrite E in Hcs. simpl in Hcs. rewrite lookup_empty in Hcs.
      destruct Hcs; discriminate. }
  destruct (scrape url 0 None initial) as [x st'|e st'|]; [| |contradiction];
    exists st'; (split; [reflexivity|]); apply HX; try exact HW; apply H.
Qed.

(** X15. Running the program a second time, in a new process, in the
    directory a first run from the empty directory has left gives the
    result of the first run: the same calls in the same order, the same
    way of ending, the same visited set, and the disk exactly as the
    first run left it. *)
Theorem second_run_reproduces_first url :
  exists st1,
    final (main url) = Some st1 /\
    scrape url 0 None (mkState ∅ (disk st1) []) = main url.
Proof.
  destruct (seed_error url) as [e|] eqn:Hs.
  { exists (seed_failed url). rewrite (main_seed_error url e Hs).
    split; [reflexivity|].
    destruct (seed_failed url) as [v [d f] c] eqn:E. simpl.
    assert (Hv : v = {[url]} /\ f = ∅).
    { unfold seed_failed in E. destruct (urlparse_raises url);
        injection E as <- <- <- <-; auto. }
    destruct Hv as [-> ->]. rewrite (seed_error_run url e d Hs), E. simpl.
    do 3 f_equal. set_solver. }
  pose proof (seed_Ready url Hs) as Rdy.
  set (B := site_root url).
  assert (G : forall d, gated url 0 (mkState ∅ d []) = false).
  { intros d. unfold gated. rewrite maxRekrusion_eq. reflexivity. }
  pose proof (scrape_Tidy url 0 None initial Rdy) as H1.
  pose proof (scrape_returns url 0 None initial) as Hret.
  pose proof (scrape_Tidy_folders url 0 None initial) as Hlow.
  unfold wp in H1. unfold main in *.
  assert (Hst : exists st1, final (scrape url 0 None initial) = Some st1 /\
                            Kept B initial st1).
  { destruct (scrape url 0 None initial) as [x s|e s|]; [| |contradiction];
      exists s; (split; [reflexivity|]); apply H1. }
  destruct Hst as (st1 & Hfin & K1). exists st1. split; [exact Hfin|].
  specialize (Hlow st1 (G _) Rdy Hfin).
  set (stb := mkState ∅ (disk st1) []).
  assert (Tb : Ready url None (disk stb)).
  { split; [exact (proj1 K1)|exact (proj2 Rdy)]. }
  pose proof (scrape_Tidy url 0 None stb Tb) as H2.
  pose proof (scrape_Writes url 0 None stb) as W2.
  pose proof (scrape_alike url 0 None initial stb eq_refl Rdy Tb) as A.
  unfold wp in H2. unfold wp_any, wp in W2. fold B in H2, W2.
  assert (Hre : forall st2, Kept B stb st2 -> Writes B 0 stb st2 ->
                            Same initial stb st1 st2 -> st2 = st1).
  { intros st2 K2 Wr S. apply (rerun_state B st1 st2 K1 K2 Wr S).
    etrans; [|exact Hlow]. unfold folders_made. simpl. fold B. reflexivity. }
  destruct (scrape url 0 None initial) as [[] s1|e1 s1|],
           (scrape url 0 None stb) as [[] s2|e2 s2|];
    simpl in A, Hfin; try contradiction; try discriminate Hfin;
    injection Hfin as ->.
  - f_equal. apply Hre; [exact H2|exact W2|exact A].
  - destruct A as [<- S]. f_equal. apply Hre; [apply H2|exact W2|exact S].
Qed.

End Beyond.

(** * The claims at work on mocked sites *)

(** C1 at work: a call on a URL that is already visited. *)
Lemma no_url_fetched_twice_witness :
  @scrape cyclic_site "http://example.com/b" 1 (Some "data/example_com")
          (mkState {["http://example.com/b"]} (mkFS ∅ ∅) [])
  = Ok tt (mkState {["http://example.com/b"]} (mkFS ∅ ∅) []).
Proof.
  apply (proj1 (@no_url_fetched_twice cyclic_site "http://example.com/b" 1
                  (Some "data/example_com")
                  (mkState {["http://example.com/b"]} (mkFS ∅ ∅) []))).
  simpl. apply elem_of_singleton. reflexivity.
Defined.

(** The two pages of [cyclic_site] link to each other and to themselves:
    each is entered and fetched once, [/b] one level below the seed. *)
Example cycle_is_walked_once :
  exists st',
    @main cyclic_site "http://example.com/" = Ok tt st' /\
    entered (calls st') = [("http://example.com/", 0); ("http://example.com/b", 1)] /\
    gets (calls st') = ["http://example.com/"; "http://example.com/b"].
Proof.
  eexists. split; [vm_compute; reflexivity|].
  split; vm_compute; reflexivity.
Qed.

(** C2 at work: a call at depth 100. *)
Lemma gate_skips_witness :
  @scrape cyclic_site "http://example.com/" 100 None initial = Ok tt initial.
Proof.
  apply (proj1 (@gate_skips cyclic_site "http://example.com/" 100 None initial)).
  right. rewrite maxRekrusion_eq. apply Nat.le_refl.
Defined.

(** C3, as stated, fails: the seed of [choices_site] is answered with
    the status 300, which is not one of 200 to 299, and its page is
    saved and its link followed like those of any page; no failure is
    printed. *)
Lemma page_of_status_300_is_saved :
  @http_get choices_site "http://example.com/"
  = Response 300 "http://example.com/" /\
  non_2xx 300 = true /\
  @requests_get choices_site "http://example.com/" = Some "http://example.com/" /\
  exists st',
    @main choices_site "http://example.com/" = Ok tt st' /\
    files (disk st') !! ["data"; "example_com"; "text"; "page_0.txt"]
    = Some "Multiple Choices" /\
    entered (calls st')
    = [("http://example.com/", 0); ("http://example.com/b", 1)] /\
    gets (calls st') = ["http://example.com/"; "http://example.com/b"] /\
    Print (FailedRetrieve "http://example.com/") ∉ calls st'.
Proof.
  split; [reflexivity|]. split; [reflexivity|]. split; [reflexivity|].
  eexists. split; [vm_compute; reflexivity|].
  split; [vm_compute; reflexivity|].
  split; [vm_compute; reflexivity|].
  split; [vm_compute; reflexivity|].
  rewrite list_elem_of_In. vm_compute. intuition discriminate.
Qed.

(** C3, as amended, at work: the page [/b] of [hello_site] is answered
    with the status 404. *)
Lemma failed_fetch_ends_node_witness :
  gated "http://example.com/b" 1 initial = false /\
  @http_get hello_site "http://example.com/b" = Response 404 "" /\
  @requests_get hello_site "http://example.com/b" = None /\
  exists st',
    final (@scrape hello_site "http://example.com/b" 1
                   (Some "data/example_com") initial) = Some st' /\
    visitedUrls st' = {["http://example.com/b"]} ∪ visitedUrls initial /\
    files (disk st') = files (disk initial).
Proof.
  assert (G : gated "http://example.com/b" 1 initial = false)
    by (vm_compute; reflexivity).
  assert (F : @requests_get hello_site "http://example.com/b" = None)
    by reflexivity.
  split; [exact G|]. split; [reflexivity|]. split; [exact F|].
  destruct (proj2 (proj2 (@failed_fetch_ends_node hello_site
              "http://example.com/b" 1 (Some "data/example_com") initial G)) F)
    as (_ & st' & Hfin & Hv & Hf & _).
  exists st'. auto.
Defined.

(** C4, as stated, fails: the page of [b.org] is fetched at depth 1 of a
    crawl that starts at [a.com], and its text is stored in the folder
    of [a.com], not in the folder derived from its own host, which is
    another folder and is never made. *)
Lemma stored_under_own_root_fails :
  exists st',
    @main two_hosts_site "http://a.com/" = Ok tt st' /\
    @netloc two_hosts_site "http://b.org/" <> @netloc two_hosts_site "http://a.com/" /\
    Get "http://b.org/" ∈ calls st' /\
    files (disk st') !! @own_text_file two_hosts_site "http://b.org/" 1 = None /\
    files (disk st') !! @own_text_file two_hosts_site "http://a.com/" 1 = Some "B" /\
    @own_text_file two_hosts_site "http://b.org/" 1
    <> @own_text_file two_hosts_site "http://a.com/" 1 /\
    is_dir (disk st') (Path.components (@site_root two_hosts_site "http://b.org/"))
    = false.
Proof.
  eexists. split; [vm_compute; reflexivity|].
  split; [vm_compute; discriminate|].
  split; [apply list_elem_of_In; vm_compute; tauto|].
  split; [vm_compute; reflexivity|].
  split; [vm_compute; reflexivity|].
  split; [vm_compute; discriminate|].
  vm_compute; reflexivity.
Qed.

(** C4, as amended, at work: two URLs of one network location. *)
Lemma stored_under_seed_root_witness :
  @site_root two_hosts_site "http://a.com/gallery?page=2"
  = @site_root two_hosts_site "http://a.com/".
Proof.
  apply (proj2 (proj2 (proj2 (proj2 (@stored_under_seed_root two_hosts_site
           "http://a.com/" 0 None initial))))).
  reflexivity.
Defined.

(** C5, as stated, fails: the empty paragraph leaves an empty line
    between the two others. *)
Lemma empty_element_leaves_blank_line :
  page_text blank_paragraph = "A" +:+ LF +:+ LF +:+ "B" /\
  page_text_spec blank_paragraph = "A" +:+ LF +:+ "B" /\
  page_text blank_paragraph <> page_text_spec blank_paragraph.
Proof.
  split; [reflexivity|]. split; [reflexivity|]. vm_compute. discriminate.
Qed.

(** C5, as amended, at work. *)
Lemma page_text_lines_witness :
  Str.split "010" (page_text blank_paragraph) = ["A"; ""; "B"].
Proof.
  apply (proj2 (proj2 (proj2 (proj2 (page_text_lines blank_paragraph))))).
  - vm_compute. discriminate.
  - vm_compute. repeat constructor.
Defined.

(** C6, as stated, fails: everything that follows the ['?'] is dropped,
    the extension too. *)
Lemma query_strips_extension :
  image_name "photo name?v=2.jpg" = "photo_name" /\
  image_name "photo name?v=2.jpg" <> "photo_name.jpg".
Proof. split; [reflexivity|]. vm_compute. discriminate. Qed.

(** C6, as amended, at work: a URL with no query is kept whole before
    its last segment is taken. *)
Lemma image_name_sanitized_witness :
  Str.split_head "?" "http://example.com/img/photo name.jpg"
  = "http://example.com/img/photo name.jpg" /\
  image_name "http://example.com/img/photo name.jpg" = "photo_name.jpg".
Proof.
  split; [|reflexivity].
  apply (proj1 (proj2 (@image_name_sanitized hello_site
                         "http://example.com/img/photo name.jpg"))).
  reflexivity.
Defined.

(** C7, as stated, fails: the folder of a site is named after the
    network location with its port, not after the host. *)
Lemma site_root_keeps_the_port :
  @netloc port_site "http://example.com:8080/" = "example.com:8080" /\
  host_of (@netloc port_site "http://example.com:8080/") = "example.com" /\
  @site_root port_site "http://example.com:8080/" = "data/example_com:8080" /\
  @site_root port_site "http://example.com:8080/"
  <> "data/" +:+ Str.replace "." "_"
                   (host_of (@netloc port_site "http://example.com:8080/")) /\
  exists st',
    @main port_site "http://example.com:8080/" = Ok tt st' /\
    Makedirs "data/example_com:8080" ∈ calls st' /\
    map_to_list (files (disk st'))
    = [ (["data"; "example_com:8080"; "text"; "page_0.txt"], "Hello") ].
Proof.
  split; [reflexivity|]. split; [reflexivity|]. split; [reflexivity|].
  split; [vm_compute; discriminate|].
  eexists. split; [vm_compute; reflexivity|].
  split; [apply list_elem_of_In; vm_compute; tauto|].
  vm_compute. reflexivity.
Qed.

(** C7, as amended, at work: the text of the seed of [hello_site]. *)
Lemma on_disk_layout_witness :
  page_filename (@site_root hello_site "http://example.com/") 0
  = "data/example_com/text/page_0.txt" /\
  exists st',
    @main hello_site "http://example.com/" = Ok tt st' /\
    files (disk st')
      !! Path.components
           (page_filename (@site_root hello_site "http://example.com/") 0)
    = Some "Hello".
Proof.
  split; [reflexivity|].
  eexists. split; [vm_compute; reflexivity|].
  refine (proj1 (proj2 (proj2 (proj2 (proj2
            (@on_disk_layout hello_site "http://example.com/" 0 None initial)))) 
            "http://example.com/" _ _ _ _)).
  - vm_compute. reflexivity.
  - reflexivity.
  - vm_compute. reflexivity.
Defined.

(** Both [/b] and [/c] are fetched at depth 1 and saved as [page_1.txt]:
    the text of [/c], saved last, is what the file holds. *)
Example same_depth_overwrites :
  exists st',
    @main siblings_site "http://example.com/" = Ok tt st' /\
    gets (calls st') = ["http://example.com/"; "http://example.com/b";
                        "http://example.com/c"] /\
    map_to_list (files (disk st'))
    ≡ₚ [ (["data"; "example_com"; "text"; "page_0.txt"], "Home");
         (["data"; "example_com"; "text"; "page_1.txt"], "C") ].
Proof.
  eexists. split; [vm_compute; reflexivity|].
  split; [vm_compute; reflexivity|].
  vm_compute. apply perm_swap.
Qed.

(** C8, as stated, fails: the image is fetched without failure, its URL
    has no last segment, the file to open is the folder itself, and the
    [OSError] leaves [download_image], [scrape] and the program; the
    link of the page, which could be retrieved, is never fetched. *)
Lemma image_failure_aborts_crawl :
  exists st',
    @main slash_image_site "http://example.com/"
    = Raise (OSError "data/example_com/img/") st' /\
    @requests_get_stream slash_image_site "http://example.com/"
    = ImageBody ["<html>"] true /\
    @new_urls slash_image_site "http://example.com/"
       (@BeautifulSoup slash_image_site "http://example.com/")
    = ["http://example.com/b"] /\
    @requests_get slash_image_site "http://example.com/b"
    = Some "http://example.com/b" /\
    gets (calls st') = ["http://example.com/"] /\
    exists st1,
      @download_image slash_image_site "http://example.com/"
         "data/example_com/img" initial
      = Raise (OSError "data/example_com/img/") st1.
Proof.
  eexists. split; [vm_compute; reflexivity|].
  split; [reflexivity|]. split; [vm_compute; reflexivity|].
  split; [reflexivity|]. split; [vm_compute; reflexivity|].
  eexists. vm_compute. reflexivity.
Qed.

(** C8, as amended, at work: the image of [cyclic_site] cannot be
    fetched. *)
Lemma image_fetch_failures_are_caught_witness :
  @download_image cyclic_site "http://example.com/a.png" "data/example_com/img"
     initial
  = Ok tt (add_call (Print (FailedImage "http://example.com/a.png"))
                    (add_call (GetStream "http://example.com/a.png") initial)).
Proof.
  apply (proj1 (proj1 (@image_fetch_failures_are_caught cyclic_site
           "http://example.com/a.png" "data/example_com/img" initial)
           eq_refl)).
Defined.

(** C9, as stated, fails: the seed of [slash_image_site] is fetched, its
    link is not visited, and the call is never made on it: the
    [OSError] of the image of the page has ended the call before the
    loop over the links. *)
Lemma fetched_page_links_not_followed :
  @requests_get slash_image_site "http://example.com/"
  = Some "http://example.com/" /\
  @new_urls slash_image_site "http://example.com/"
     (@BeautifulSoup slash_image_site "http://example.com/")
  = ["http://example.com/b"] /\
  exists st',
    @main slash_image_site "http://example.com/"
    = Raise (OSError "data/example_com/img/") st' /\
    gets (calls st') = ["http://example.com/"] /\
    entered (calls st') = [("http://example.com/", 0)] /\
    visitedUrls st' = {["http://example.com/"]}.
Proof.
  split; [reflexivity|]. split; [vm_compute; reflexivity|].
  eexists. split; [vm_compute; reflexivity|].
  split; [vm_compute; reflexivity|].
  split; [vm_compute; reflexivity|].
  vm_compute. reflexivity.
Qed.

(** The links of a page are all resolved before the first is followed:
    the second link of the seed of [bad_href_site] is not a URL,
    [urljoin] raises a [ValueError] for it, and the first link, which
    could be retrieved, is never entered. *)
Example bad_link_ends_the_crawl :
  @bad_ref bad_href_site "http://example.com/" "href"
     (find_all_with "a" "href" (@BeautifulSoup bad_href_site "http://example.com/"))
  = Some "http://[x" /\
  @requests_get bad_href_site "http://example.com/b"
  = Some "http://example.com/b" /\
  exists st',
    @main bad_href_site "http://example.com/" = Raise (ValueError "http://[x") st' /\
    entered (calls st') = [("http://example.com/", 0)] /\
    map_to_list (files (disk st'))
    = [ (["data"; "example_com"; "text"; "page_0.txt"], "Hello") ].
Proof.
  split; [vm_compute; reflexivity|]. split; [reflexivity|].
  eexists. split; [vm_compute; reflexivity|].
  split; vm_compute; reflexivity.
Qed.

(** C9, as amended, at work: the page of [cyclic_site] goes on with its
    links. *)
Lemma recursion_is_preorder_witness :
  @scrape cyclic_site "http://example.com/" 0 None initial
  = (base <- @enter cyclic_site "http://example.com/" 0 None ;;
     call (Get "http://example.com/") ;;
     @persist cyclic_site "http://example.com/" 0 base "http://example.com/" ;;
     links <- @resolve_links cyclic_site "http://example.com/"
                (@BeautifulSoup cyclic_site "http://example.com/") ;;
     @visit_links cyclic_site links 1 base) initial.
Proof.
  apply (proj1 (@recursion_is_preorder cyclic_site "http://example.com/" 0 None initial)
           "http://example.com/").
  - vm_compute. reflexivity.
  - reflexivity.
Defined.

(** C10 at work: what the failed fetch of [/b] leaves on disk. *)
Lemma folders_before_fetch_witness :
  exists st',
    @scrape hello_site "http://example.com/b" 1 (Some "data/example_com") initial
    = Ok tt st' /\
    disk st'
    = mkFS (dirs (disk initial)
            ∪ @folders_made hello_site "http://example.com/b" (Some "data/example_com"))
           (files (disk initial)).
Proof.
  assert (G : gated "http://example.com/b" 1 initial = false)
    by (vm_compute; reflexivity).
  eexists. split; [vm_compute; reflexivity|].
  refine (proj1 (proj2 (proj2 (proj2 (proj2 (@folders_before_fetch hello_site
            "http://example.com/b" 1 (Some "data/example_com") initial) G)))
            _ _ _)).
  - reflexivity.
  - vm_compute. reflexivity.
Defined.

(** * The further properties at work on mocked sites *)



(** The crawl of [bad_src_site] is ended by the image of its seed, and
    a crawl whose seed is not a URL before its first fetch. *)
Example crawls_ended_by_a_reference :
  (exists st',
     @main bad_src_site "http://example.com/" = Raise (ValueError "http://[x") st' /\
     gets (calls st') = ["http://example.com/"] /\
     streams (calls st') = [] /\
     map_to_list (files (disk st'))
     = [ (["data"; "example_com"; "text"; "page_0.txt"], "Hello") ]) /\
  (exists st',
     @main hello_site "http://[x/" = Raise (ValueError "http://[x/") st' /\
     calls st' = [Print (Scraping "http://[x/" 0)] /\
     disk st' = mkFS ∅ ∅).
Proof.
  split; eexists; (split; [vm_compute; reflexivity|]).
  - split; [vm_compute; reflexivity|]. split; vm_compute; reflexivity.
  - split; vm_compute; reflexivity.
Qed.


(** X3 at work: the pages of [cyclic_site], and a seed that is not a
    URL. *)
Example announced_pages_on_mocked_sites :
  (exists st',
     @main cyclic_site "http://example.com/" = Ok tt st' /\
     @seed_error cyclic_site "http://example.com/" = None /\
     (entered (calls st')).*1 = gets (calls st') /\
     gets (calls st') = ["http://example.com/"; "http://example.com/b"]) /\
  (exists st',
     @main cyclic_site "http://[x/" = Raise (ValueError "http://[x/") st' /\
     @seed_error cyclic_site "http://[x/" = Some (ValueError "http://[x/") /\
     entered (calls st') = [("http://[x/", 0)] /\
     gets (calls st') = []).
Proof.
  split; eexists; (split; [vm_compute; reflexivity|]);
    (split; [vm_compute; reflexivity|]); split; vm_compute; reflexivity.
Qed.

(** X5 at work: the page of [hello_site], its image stored and its link
    tried. *)
Lemma page_text_is_on_disk_witness :
  exists st',
    @main hello_site "http://example.com/" = Ok tt st' /\
    files (disk st') !! ["data"; "example_com"; "text"; "page_0.txt"]
    = Some "Hello".
Proof.
  eexists. split; [vm_compute; reflexivity|].
  refine (@page_text_is_on_disk hello_site "http://example.com/" 0 None
            "http://example.com/" initial _ _ _ _).
  - vm_compute. reflexivity.
  - reflexivity.
  - vm_compute. reflexivity.
Defined.

(** X6 at work: the link of the seed of [cyclic_site]. *)
Lemma links_of_fetched_pages_are_visited_witness :
  exists st',
    @main cyclic_site "http://example.com/" = Ok tt st' /\
    "http://example.com/b" ∈ visitedUrls st'.
Proof.
  eexists. split; [vm_compute; reflexivity|].
  refine (@links_of_fetched_pages_are_visited cyclic_site
            "http://example.com/" 0 None initial _ _
            "http://example.com/" 0 "http://example.com/" "http://example.com/b"
            _ eq_refl _ _ _ _).
  - vm_compute. reflexivity.
  - apply list_elem_of_In. vm_compute. tauto.
  - rewrite maxRekrusion_eq. lia.
  - reflexivity.
  - apply list_elem_of_In. vm_compute. tauto.
Defined.

(** X7 at work: the folder of [hello_site], made twice. *)
Lemma get_domain_folder_idempotent_witness :
  exists st1,
    @get_domain_folder hello_site "http://example.com/" initial
    = Ok "data/example_com" st1 /\
    @get_domain_folder hello_site "http://example.com/" st1
    = Ok "data/example_com" (add_call (Makedirs "data/example_com") st1).
Proof.
  eexists. split; [vm_compute; reflexivity|].
  refine (proj2 (proj2 (proj2 (proj2
            (@get_domain_folder_idempotent hello_site "http://example.com/"
               initial "data/example_com" _ _))))).
  vm_compute. reflexivity.
Defined.

(** X8 at work: the image [<img src="/">] of [slash_image_site]. *)
Lemma image_without_name_raises_witness :
  @download_image slash_image_site "http://example.com/" "data/example_com/img"
     initial
  = Raise (OSError "data/example_com/img/")
          (add_call (OpenBinary "data/example_com/img/")
                    (add_call (GetStream "http://example.com/") initial)).
Proof.
  apply (@image_without_name_raises slash_image_site "http://example.com/"
           "data/example_com/img" ["<html>"] true initial eq_refl).
  left. reflexivity.
Defined.

(** X9 at work: the image of [hello_site], its folder being there. *)
Lemma download_image_stores_body_witness :
  exists st',
    @download_image hello_site "http://example.com/a.png" "data/example_com/img"
       (mkState ∅ (mkFS (made "data/example_com/img") ∅) [])
    = Ok tt st' /\
    files (disk st') = {[ ["data"; "example_com"; "img"; "a.png"] := "PNG" ]}.
Proof.
  destruct (@download_image_stores_body hello_site "http://example.com/a.png"
              "data/example_com/img" ["PNG"] true
              (mkState ∅ (mkFS (made "data/example_com/img") ∅) []))
    as (st' & Hok & _ & Hf & _).
  - reflexivity.
  - vm_compute. reflexivity.
  - vm_compute. reflexivity.
  - apply (proj1 (bool_decide_eq_false _)). vm_compute. reflexivity.
  - exists st'. split; [exact Hok|]. rewrite Hf. reflexivity.
Defined.

(** X10 at work: the image [/a.png] occurs twice on the page of
    [gallery_site] and is fetched twice. *)
Example same_image_is_fetched_twice :
  exists st',
    @main gallery_site "http://example.com/" = Ok tt st' /\
    streams (calls st')
    = ["http://example.com/a.png"; "http://example.com/missing.png";
       "http://example.com/a.png"] /\
    gets (calls st') = ["http://example.com/"].
Proof.
  eexists. split; [vm_compute; reflexivity|].
  split; vm_compute; reflexivity.
Qed.

(** X12 at work: a link at depth 99. *)
Lemma last_level_follows_no_link_witness :
  recurse (@scrape hello_site) 99 "data/example_com"
     ["http://example.com/b"] initial
  = Ok tt initial.
Proof.
  apply (proj1 (@last_level_follows_no_link hello_site "http://example.com/" 99
                  None initial
                  (eq_ind_r (fun n => n <= 100) (Nat.le_refl 100) maxRekrusion_eq))).
Defined.

(** X13 at work: the pages [/b] and [/c] of [siblings_site] are both
    announced at depth 1; the text file of depth 1 holds [/c]. *)
Example last_page_of_depth_is_kept :
  exists st',
    @main siblings_site "http://example.com/" = Ok tt st' /\
    @seed_error siblings_site "http://example.com/" = None /\
    @saved_text siblings_site 1 (entered (calls st')) None = Some "C" /\
    @saved_text siblings_site 2 (entered (calls st')) None = None.
Proof.
  eexists. split; [vm_compute; reflexivity|].
  split; [vm_compute; reflexivity|].
  split; vm_compute; reflexivity.
Qed.

(** A seed that [urlparse] raises for leaves no file, also in a world
    in which its page could be fetched. *)
Example unparsed_seed_leaves_no_text :
  let site := Mock.with_status "http://[x/" 200 hello_site in
  @requests_get site "http://[x/" = Some "http://[x/" /\
  @seed_error site "http://[x/" = Some (ValueError "http://[x/") /\
  exists st',
    @main site "http://[x/" = Raise (ValueError "http://[x/") st' /\
    files (disk st') = ∅ /\
    @saved_text site 0 (entered (calls st')) None = Some "".
Proof.
  split; [reflexivity|]. split; [vm_compute; reflexivity|].
  eexists. split; [vm_compute; reflexivity|].
  split; vm_compute; reflexivity.
Qed.

(** X14 at work: the image of [hello_site]. *)
Example image_of_hello_site_is_kept :
  exists st',
    @main hello_site "http://example.com/" = Ok tt st' /\
    @saved_image hello_site "a.png" (streams (calls st')) None = Some "PNG" /\
    files (disk st') !! ["data"; "example_com"; "img"; "a.png"] = Some "PNG".
Proof.
  eexists. split; [vm_compute; reflexivity|].
  split; vm_compute; reflexivity.
Qed.

(** X15 at work: a second run on [hello_site], and on
    [slash_image_site], where both runs are ended by the same
    exception. *)
Example second_run_on_mocked_sites :
  (exists st1,
     @main hello_site "http://example.com/" = Ok tt st1 /\
     @scrape hello_site "http://example.com/" 0 None (mkState ∅ (disk st1) [])
     = Ok tt st1) /\
  (exists st1,
     @main slash_image_site "http://example.com/"
     = Raise (OSError "data/example_com/img/") st1 /\
     @scrape slash_image_site "http://example.com/" 0 None (mkState ∅ (disk st1) [])
     = Raise (OSError "data/example_com/img/") st1).
Proof.
  split; eexists; (split; [vm_compute; reflexivity|]); vm_compute; reflexivity.
Qed.
